(** * Codebase Onboarder: ingestion, classification and session pipeline

    A shallow embedding of the TypeScript sources
    ([src/github/analyzer.ts], [src/github/client.ts], the GitHub service
    with [ingestRepository] and [refreshRepository], the D1/KV storage
    services, [src/tutorial/index.ts] with the session service and the
    template generator, and [src/ai/service.ts] with the reply parser and
    the conversation memory) together with the properties that the
    specification states about them and further properties of the code.

    Conventions of the embedding.
    - A JavaScript string is a Rocq [string]: a sequence of code units, each
      below 256.  On that domain [toLowerCase], [includes], [split] and
      [length] below are the JavaScript ones.
    - JavaScript integers ([additions], [deletions], [current_step], limits)
      are [Z]; array lengths are [nat].
    - [async] functions are state passing over the stores they touch; a
      rejected promise or a [throw] is the [Err] branch of [outcome].
    - The writes of ingestion ([INSERT], [put]) succeed or fail as the
      environment decides (the fault fields of [Env]); reads are lookups in
      the modelled tables.  The updates of the session layer always go
      through. *)

From Stdlib Require Import ZArith Lia Bool List Ascii String.
From stdpp Require Import base option list gmap strings pretty.
Import ListNotations.

Local Open Scope string_scope.
Local Open Scope list_scope.
Local Open Scope Z_scope.

(* ===================================================================== *)
(** ** JavaScript strings *)
(* ===================================================================== *)

Module JsString.

(** [String.prototype.toLowerCase] on one code unit below 256: the ASCII
    capitals and the Latin-1 capitals (U+00C0..U+00DE without U+00D7) move up
    by 32, every other code unit is unchanged. *)
Definition lowerChar (c : ascii) : ascii :=
  let n := N_of_ascii c in
  if (((65 <=? n) && (n <=? 90)) ||
      ((192 <=? n) && (n <=? 222) && negb (n =? 215)))%N
  then ascii_of_N (n + 32) else c.

Fixpoint toLowerCase (s : string) : string :=
  match s with
  | EmptyString => EmptyString
  | String c t => String (lowerChar c) (toLowerCase t)
  end.

(** [s.startsWith(p)] *)
Fixpoint startsWith (s p : string) : bool :=
  match p, s with
  | EmptyString, _ => true
  | String _ _, EmptyString => false
  | String a p', String b s' => Ascii.eqb a b && startsWith s' p'
  end.

(** [s.includes(sub)] *)
Fixpoint includes (s sub : string) : bool :=
  startsWith s sub ||
  match s with
  | EmptyString => false
  | String _ t => includes t sub
  end.

(** [s.split(sep)] for a one-character separator: never the empty array. *)
Fixpoint split (sep : ascii) (s : string) : list string :=
  match s with
  | EmptyString => [EmptyString]
  | String c t =>
      if Ascii.eqb c sep then EmptyString :: split sep t
      else match split sep t with
           | h :: r => String c h :: r
           | [] => [String c EmptyString]
           end
  end.

(** [arr.pop()] of a freshly built array: its last element, [undefined] when
    the array is empty. *)
Definition pop (l : list string) : option string := last l.

(** [Array.prototype.includes] on an array of strings. *)
Definition arrayIncludes (l : list string) (x : string) : bool :=
  existsb (String.eqb x) l.

(** [x || ''] for an optional string. *)
Definition orEmpty (x : option string) : string :=
  match x with
  | Some s => s
  | None => EmptyString
  end.

Definition isDigit (c : ascii) : bool :=
  let n := N_of_ascii c in ((48 <=? n) && (n <=? 57))%N.

End JsString.

(* ===================================================================== *)
(** ** Commit classifier ([src/github/analyzer.ts]) *)
(* ===================================================================== *)

Module Analyzer.
Import JsString.

Inductive FileStatus := added | removed | modified | renamed.

(** [GitHubFile] of [src/github/types.ts]. *)
Record GitHubFile := {
  filename : string;
  status : FileStatus;
  additions : Z;
  deletions : Z;
  patch : option string
}.

(** [GitHubCommit]: [commit.message], [commit.author.name],
    [commit.author.date] are flattened; [files] is optional. *)
Record GitHubCommit := {
  sha : string;
  message : string;
  author_name : string;
  author_date : string;
  files : option (list GitHubFile)
}.

Inductive Category :=
  CatFeature | CatFix | CatRefactor | CatTest | CatDocs | CatOther.

Record CommitAnalysis := {
  a_sha : string;
  isLearningWorthy : bool;
  category : Category;
  reason : string;
  fileTypes : list string;
  linesChanged : Z
}.

Definition with_reason (a : CommitAnalysis) (r : string) : CommitAnalysis :=
  {| a_sha := a_sha a; isLearningWorthy := isLearningWorthy a;
     category := category a; reason := r;
     fileTypes := fileTypes a; linesChanged := linesChanged a |}.

Definition with_category (a : CommitAnalysis) (c : Category) : CommitAnalysis :=
  {| a_sha := a_sha a; isLearningWorthy := isLearningWorthy a;
     category := c; reason := reason a;
     fileTypes := fileTypes a; linesChanged := linesChanged a |}.

Definition with_worthy (a : CommitAnalysis) (b : bool) : CommitAnalysis :=
  {| a_sha := a_sha a; isLearningWorthy := b;
     category := category a; reason := reason a;
     fileTypes := fileTypes a; linesChanged := linesChanged a |}.

(** [file.filename.split('.').pop()?.toLowerCase()] *)
Definition extension (f : GitHubFile) : option string :=
  option_map toLowerCase (pop (split "." (filename f))).

(** [getFileTypes]: the extensions in first-seen order, as the [Set] keeps
    them; an empty extension is skipped. *)
Definition getFileTypes (fs : list GitHubFile) : list string :=
  fold_left
    (fun (extensions : list string) file =>
       match extension file with
       | Some ext =>
           if String.eqb ext "" then extensions
           else if arrayIncludes extensions ext then extensions
           else extensions ++ [ext]
       | None => extensions
       end)
    fs [].

(** [getTotalLinesChanged] *)
Definition getTotalLinesChanged (fs : list GitHubFile) : Z :=
  fold_left (fun total file => total + additions file + deletions file) fs 0.

Definition configExtensions : list string :=
  ["json"; "yml"; "yaml"; "toml"; "ini"; "config"].

Definition configNames : list string :=
  ["package.json"; "package-lock.json"; "yarn.lock"; ".gitignore"; "dockerfile"].

Definition isConfigFile (file : GitHubFile) : bool :=
  let ext := extension file in
  let name := toLowerCase (filename file) in
  arrayIncludes configExtensions (orEmpty ext) ||
  existsb (fun configName => includes name configName) configNames.

(** [hasOnlyConfigFiles]: [files.every(...)] *)
Definition hasOnlyConfigFiles (fs : list GitHubFile) : bool :=
  forallb isConfigFile fs.

Definition isTestFile (file : GitHubFile) : bool :=
  includes (filename file) "test" ||
  includes (filename file) "spec" ||
  includes (filename file) "__tests__".

(** [count > total * 0.7].  The source multiplies in double precision.  The
    comparison is written here in exact arithmetic: the two agree for every
    total below 90, and [analyzeCommit] has returned before it gets here when
    there are more than 15 files. *)
Definition moreThan70Percent (count total : nat) : bool :=
  (7 * Z.of_nat total <? 10 * Z.of_nat count).

Definition hasMainlyTestFiles (fs : list GitHubFile) : bool :=
  let testFiles := List.filter isTestFile fs in
  moreThan70Percent (List.length testFiles) (List.length fs).

Definition docExtensions : list string := ["md"; "txt"; "rst"].

Definition isDocFile (file : GitHubFile) : bool :=
  arrayIncludes docExtensions (orEmpty (extension file)) ||
  includes (toLowerCase (filename file)) "readme".

Definition hasMainlyDocFiles (fs : list GitHubFile) : bool :=
  let docFiles := List.filter isDocFile fs in
  moreThan70Percent (List.length docFiles) (List.length fs).

(** The regular expression [/v?\d+\.\d+\.\d+/] tried at the start of [s]:
    an optional [v], a run of digits, a dot, a run of digits, a dot and a
    digit. *)
Fixpoint skipDigits (s : string) : string :=
  match s with
  | String c t => if isDigit c then skipDigits t else s
  | EmptyString => s
  end.

Definition startsWithDigit (s : string) : bool :=
  match s with
  | String c _ => isDigit c
  | EmptyString => false
  end.

Definition digitsDotDigitsDotDigit (s : string) : bool :=
  startsWithDigit s &&
  match skipDigits s with
  | String "."%char s2 =>
      startsWithDigit s2 &&
      match skipDigits s2 with
      | String "."%char s3 => startsWithDigit s3
      | _ => false
      end
  | _ => false
  end.

Definition versionAt (s : string) : bool :=
  match s with
  | String "v"%char t => digitsDotDigitsDotDigit t || digitsDotDigitsDotDigit s
  | _ => digitsDotDigitsDotDigit s
  end.

(** [regex.test(s)]: a match starting at some position. *)
Fixpoint versionPatternTest (s : string) : bool :=
  versionAt s ||
  match s with
  | String _ t => versionPatternTest t
  | EmptyString => false
  end.

(** [isVersionBump] *)
Definition isVersionBump (msg : string) : bool :=
  versionPatternTest msg &&
  (includes msg "bump" || includes msg "release" || includes msg "version").

(** [categorizeCommit] *)
Definition categorizeCommit (msg : string) (fs : list GitHubFile) : Category :=
  if includes msg "add" || includes msg "feat" || includes msg "implement"
  then CatFeature
  else if includes msg "fix" || includes msg "bug" || includes msg "resolve"
  then CatFix
  else if includes msg "refactor" || includes msg "improve" || includes msg "clean"
  then CatRefactor
  else if includes msg "test" || hasMainlyTestFiles fs
  then CatTest
  else if includes msg "doc" || includes msg "readme" || hasMainlyDocFiles fs
  then CatDocs
  else CatOther.

(** The [switch] of [analyzeCommit] on the category. *)
Definition judgeCategory (a : CommitAnalysis) (nfiles : nat) : CommitAnalysis :=
  match category a with
  | CatFeature => with_reason (with_worthy a true) "Adds new functionality"
  | CatFix =>
      if (10 <=? linesChanged a) && (nfiles <=? 5)%nat
      then with_reason (with_worthy a true) "Substantial bug fix"
      else with_reason a "Small bug fix"
  | CatRefactor =>
      if (nfiles <=? 8)%nat && (linesChanged a <=? 200)
      then with_reason (with_worthy a true) "Code improvement/refactor"
      else with_reason a "Large refactor (too complex)"
  | CatTest => with_reason (with_worthy a true) "Adds or improves tests"
  | _ => with_reason a "Not a clear feature/improvement"
  end.

(** [commit.files || []] *)
Definition filesOf (commit : GitHubCommit) : list GitHubFile :=
  match files commit with
  | Some fs => fs
  | None => []
  end.

(** The [analysis] object as [analyzeCommit] first builds it. *)
Definition initialAnalysis (commit : GitHubCommit) : CommitAnalysis :=
  {| a_sha := sha commit; isLearningWorthy := false; category := CatOther;
     reason := ""; fileTypes := getFileTypes (filesOf commit);
     linesChanged := getTotalLinesChanged (filesOf commit) |}.

(** The two overrides that close [analyzeCommit]. *)
Definition applyOverrides (msg : string) (fs : list GitHubFile)
    (analysis : CommitAnalysis) : CommitAnalysis :=
  let analysis :=
    if hasOnlyConfigFiles fs
    then with_reason (with_worthy analysis false) "Only configuration changes"
    else analysis in
  if isVersionBump msg
  then with_reason (with_worthy analysis false) "Version bump"
  else analysis.

(** [analyzeCommit] *)
Definition analyzeCommit (commit : GitHubCommit) : CommitAnalysis :=
  let msg := toLowerCase (message commit) in
  let fs := filesOf commit in
  let analysis := initialAnalysis commit in
  if (15 <? List.length fs)%nat
  then with_reason analysis "Too many files changed (bulk operation)"
  else if linesChanged analysis <? 5
  then with_reason analysis "Very small change"
  else if 500 <? linesChanged analysis
  then with_reason analysis "Too many lines changed (likely auto-generated)"
  else
    let analysis := with_category analysis (categorizeCommit msg fs) in
    let analysis := judgeCategory analysis (List.length fs) in
    applyOverrides msg fs analysis.

(** [analyzeCommits] *)
Definition analyzeCommits (commits : list GitHubCommit) : list CommitAnalysis :=
  map analyzeCommit commits.

End Analyzer.


(* ===================================================================== *)
(** ** Outcomes of effectful code *)
(* ===================================================================== *)

(** What a [throw] carries: an [Error] object with its message, or any other
    value, kept by its [String(...)] rendering. *)
Inductive Thrown :=
| JsError (msg : string)
| JsValue (text : string).

(** [error instanceof Error ? error.message : 'Unknown error'] *)
Definition errorMessage (e : Thrown) : string :=
  match e with
  | JsError msg => msg
  | JsValue _ => "Unknown error"
  end.

(** The interpolation [`${error}`]. *)
Definition renderThrown (e : Thrown) : string :=
  match e with
  | JsError msg => "Error: " +:+ msg
  | JsValue text => text
  end.

Inductive outcome (A : Type) :=
| Ok (a : A)
| Err (e : Thrown).
Arguments Ok {A} a.
Arguments Err {A} e.

(* ===================================================================== *)
(** ** Repository locator and commit pre-filter ([src/github/client.ts]) *)
(* ===================================================================== *)

Module Client.
Import JsString Analyzer.

Record RepoParseResult := {
  owner : string;
  repo : string;
  isValid : bool;
  error : option string
}.

(** The text after the literal [p] at the start of [s]. *)
Fixpoint stripLiteral (p s : string) : option string :=
  match p, s with
  | EmptyString, _ => Some s
  | String _ _, EmptyString => None
  | String a p', String b s' =>
      if Ascii.eqb a b then stripLiteral p' s' else None
  end.

(** The longest prefix of [s] whose characters satisfy [ok], and the rest. *)
Fixpoint span (ok : ascii -> bool) (s : string) : string * string :=
  match s with
  | EmptyString => (EmptyString, EmptyString)
  | String c t =>
      if ok c then let '(a, b) := span ok t in (String c a, b)
      else (EmptyString, s)
  end.

Definition notSlash (c : ascii) : bool := negb (Ascii.eqb c "/").
Definition notSlashNorDot (c : ascii) : bool :=
  negb (Ascii.eqb c "/") && negb (Ascii.eqb c ".").

(** The common tail [([^\/]+)\/([^\/\.]+)(\.git)?$] of the three patterns,
    read left to right.  A character class followed by a character outside
    it leaves the matcher no choice: group 1 runs to the first slash, group 2
    to the first slash or dot, and what is left is empty or [.git]. *)
Definition matchOwnerRepo (s : string) : option (string * string) :=
  let '(g1, r1) := span notSlash s in
  if String.eqb g1 "" then None
  else match r1 with
       | String "/"%char r2 =>
           let '(g2, r3) := span notSlashNorDot r2 in
           if String.eqb g2 "" then None
           else if String.eqb r3 "" || String.eqb r3 ".git"
                then Some (g1, g2) else None
       | _ => None
       end.

Definition matchAfter (literal url : string) : option (string * string) :=
  match stripLiteral literal url with
  | Some rest => matchOwnerRepo rest
  | None => None
  end.

(** [/^https?:\/\/github\.com\/([^\/]+)\/([^\/\.]+)(\.git)?$/] *)
Definition pattern_https (url : string) : option (string * string) :=
  match matchAfter "https://github.com/" url with
  | Some m => Some m
  | None => matchAfter "http://github.com/" url
  end.

(** [/^git@github\.com:([^\/]+)\/([^\/\.]+)(\.git)?$/] *)
Definition pattern_ssh (url : string) : option (string * string) :=
  matchAfter "git@github.com:" url.

(** [/^github\.com\/([^\/]+)\/([^\/\.]+)(\.git)?$/] *)
Definition pattern_bare (url : string) : option (string * string) :=
  matchAfter "github.com/" url.

Definition patterns : list (string -> option (string * string)) :=
  [pattern_https; pattern_ssh; pattern_bare].

(** The [for] loop over the patterns: the first match wins. *)
Fixpoint firstMatch (ps : list (string -> option (string * string)))
    (url : string) : option (string * string) :=
  match ps with
  | [] => None
  | p :: rest =>
      match p url with
      | Some m => Some m
      | None => firstMatch rest url
      end
  end.

(** [parseRepositoryUrl].  [String.prototype.match] does not throw on a
    string, so the [catch] branch of the source is never taken. *)
Definition parseRepositoryUrl (url : string) : RepoParseResult :=
  match firstMatch patterns url with
  | Some (o, r) => {| owner := o; repo := r; isValid := true; error := None |}
  | None =>
      {| owner := ""; repo := ""; isValid := false;
         error := Some "Invalid GitHub URL format" |}
  end.

(** [filterLearningCommits] *)
Definition keepForLearning (commit : GitHubCommit) : bool :=
  let msg := toLowerCase (message commit) in
  if includes msg "merge" && (includes msg "pull request" || includes msg "branch")
  then false
  else if (String.length (message commit) <? 10)%nat
  then false
  else if includes msg "update" && (includes msg "dependency" || includes msg "package")
  then false
  else if includes msg "format" || includes msg "style" || includes msg "lint"
  then false
  else true.

Definition filterLearningCommits (commits : list GitHubCommit) : list GitHubCommit :=
  List.filter keepForLearning commits.

(** [arr.slice(0, e)] for an integer [e]. *)
Definition slice0 {A} (l : list A) (e : Z) : list A :=
  let len := Z.of_nat (List.length l) in
  let stop := if e <? 0 then Z.max (len + e) 0 else Z.min e len in
  firstn (Z.to_nat stop) l.

End Client.

(* ===================================================================== *)
(** ** State and exceptions *)
(* ===================================================================== *)

(** An [async] function over a mutable state [St]: it returns the state it
    leaves behind and either a value or what it threw.  Whatever was written
    before a [throw] stays written. *)
Definition M (St A : Type) : Type := St -> St * outcome A.

#[global] Instance M_ret {St} : MRet (M St) :=
  fun A (a : A) s => (s, Ok a).

#[global] Instance M_bind {St} : MBind (M St) :=
  fun A B (k : A -> M St B) (c : M St A) s =>
    match c s with
    | (s', Ok a) => k a s'
    | (s', Err e) => (s', Err e)
    end.

Definition throw {St A} (e : Thrown) : M St A := fun s => (s, Err e).

(** [try { body } catch (error) { handler(error) }] *)
Definition tryCatch {St A} (body : M St A) (handler : Thrown -> M St A) : M St A :=
  fun s =>
    match body s with
    | (s', Ok a) => (s', Ok a)
    | (s', Err e) => handler e s'
    end.

Definition get {St} : M St St := fun s => (s, Ok s).
Definition modify {St} (f : St -> St) : M St unit := fun s => (f s, Ok tt).

(* ===================================================================== *)
(** ** Stores ([DatabaseService], [KVService], [R2Service]) *)
(* ===================================================================== *)

Module Storage.
Import Analyzer.

Record Repository := {
  repo_id : string;
  github_url : string;
  repo_name : string;
  repo_created_at : string
}.

Record Commit := {
  commit_id : string;
  commit_repo_id : string;
  commit_sha : string;
  commit_message : string;
  commit_author : string;
  commit_date : string;
  commit_created_at : string
}.

Inductive StatusKind := pending | analyzing | completed | error.

Record AnalysisStatus := {
  st_repo_id : string;
  st_status : StatusKind;
  st_error_message : option string;
  st_started_at : string;
  st_updated_at : string
}.

(** [CommitDiff] of [src/storage/r2.ts]; a file entry has the five fields
    that [GitHubFile] keeps here, copied one by one by the caller. *)
Record CommitDiff := {
  diff_commit_sha : string;
  diff_files : list GitHubFile
}.

(** The durable state: two D1 tables, the KV namespace (analysis entries, by
    key) and the R2 bucket (diff objects, by key). *)
Record World := {
  repositories : list Repository;
  commits : list Commit;
  kv : gmap string AnalysisStatus;
  r2 : gmap string CommitDiff
}.

Definition emptyWorld : World :=
  {| repositories := []; commits := []; kv := ∅; r2 := ∅ |}.

(** [GitHubRepository], the fields the pipeline reads. *)
Record GitHubRepository := {
  full_name : string;
  default_branch : string
}.

(** What the run does not control: the clock, the GitHub API, and whether a
    write reaches its store.  A fault is what the failed call throws; it
    stands for any reason the store may have to reject the write (an outage
    as well as a violated constraint).  Commit writes are numbered by the
    position of the commit in the batch. *)
Record Env := {
  now : string;
  gh_repository : string -> string -> outcome GitHubRepository;
  gh_commits : string -> string -> option string -> Z -> outcome (list GitHubCommit);
  fault_createRepository : option Thrown;
  fault_setAnalysisStatus : StatusKind -> option Thrown;
  fault_createCommit : nat -> option Thrown;
  fault_storeCommitDiff : nat -> option Thrown
}.

(** [getRepositoryByUrl]: [SELECT * FROM repositories WHERE github_url = ?],
    first row. *)
Definition getRepositoryByUrl (url : string) : M World (option Repository) :=
  fun w => (w, Ok (List.find (fun r => String.eqb (github_url r) url) (repositories w))).

(** [createRepository]: [INSERT ... RETURNING *] *)
Definition createRepository (env : Env) (id url name : string) : M World Repository :=
  fun w =>
    match fault_createRepository env with
    | Some e => (w, Err e)
    | None =>
        let row := {| repo_id := id; github_url := url; repo_name := name;
                      repo_created_at := now env |} in
        ({| repositories := repositories w ++ [row]; commits := commits w;
            kv := kv w; r2 := r2 w |}, Ok row)
    end.

(** [createCommit]: [INSERT ... RETURNING *], for the commit at position [i]. *)
Definition createCommit (env : Env) (i : nat)
    (id repoId sha msg author date : string) : M World Commit :=
  fun w =>
    match fault_createCommit env i with
    | Some e => (w, Err e)
    | None =>
        let row := {| commit_id := id; commit_repo_id := repoId; commit_sha := sha;
                      commit_message := msg; commit_author := author;
                      commit_date := date; commit_created_at := now env |} in
        ({| repositories := repositories w; commits := commits w ++ [row];
            kv := kv w; r2 := r2 w |}, Ok row)
    end.

Definition analysisKey (repoId : string) : string := "analysis:" +:+ repoId.

(** [setAnalysisStatus]: [kv.put(`analysis:${repo_id}`, ...)] *)
Definition setAnalysisStatus (env : Env) (repoId : string)
    (st : AnalysisStatus) : M World unit :=
  fun w =>
    match fault_setAnalysisStatus env (st_status st) with
    | Some e => (w, Err e)
    | None =>
        ({| repositories := repositories w; commits := commits w;
            kv := <[analysisKey repoId := st]> (kv w); r2 := r2 w |}, Ok tt)
    end.

(** [getAnalysisStatus] *)
Definition getAnalysisStatus (repoId : string) (w : World) : option AnalysisStatus :=
  kv w !! analysisKey repoId.

Definition diffKey (repoId sha : string) : string :=
  "repos/" +:+ repoId +:+ "/diffs/" +:+ sha +:+ ".json".

(** [storeCommitDiff]: [r2.put(`repos/${repo_id}/diffs/${commit_sha}.json`, ...)],
    for the commit at position [i]. *)
Definition storeCommitDiff (env : Env) (i : nat) (repoId sha : string)
    (d : CommitDiff) : M World unit :=
  fun w =>
    match fault_storeCommitDiff env i with
    | Some e => (w, Err e)
    | None =>
        ({| repositories := repositories w; commits := commits w;
            kv := kv w; r2 := <[diffKey repoId sha := d]> (r2 w) |}, Ok tt)
    end.

End Storage.

(* ===================================================================== *)
(** ** Ingestion ([GitHubService.ingestRepository]) *)
(* ===================================================================== *)

Module Ingest.
Import JsString Analyzer Client Storage.

Record IngestOptions := {
  branch : option string;
  commitLimit : option Z
}.

Record RepoIngestionResult := {
  repository : option Repository;
  res_commits : list Commit;
  learningCommits : Z;
  totalCommits : nat;
  errors : list string
}.

(** What a run works on: the stores and its own [result] object, which the
    [catch] clause reads back. *)
Record RunState := {
  world : World;
  result : RepoIngestionResult
}.

Definition initialResult : RepoIngestionResult :=
  {| repository := None; res_commits := []; learningCommits := 0;
     totalCommits := 0%nat; errors := [] |}.

(** A storage call, run on the stores of the run. *)
Definition onWorld {A} (c : M World A) : M RunState A :=
  fun s =>
    let '(w, r) := c (world s) in
    ({| world := w; result := result s |}, r).

Definition updateResult (f : RepoIngestionResult -> RepoIngestionResult) : M RunState unit :=
  modify (fun s => {| world := world s; result := f (result s) |}).

Definition setRepository (r : Repository) : M RunState unit :=
  updateResult (fun res =>
    {| repository := Some r; res_commits := res_commits res;
       learningCommits := learningCommits res;
       totalCommits := totalCommits res; errors := errors res |}).

Definition setTotalCommits (n : nat) : M RunState unit :=
  updateResult (fun res =>
    {| repository := repository res; res_commits := res_commits res;
       learningCommits := learningCommits res;
       totalCommits := n; errors := errors res |}).

Definition pushCommit (c : Commit) : M RunState unit :=
  updateResult (fun res =>
    {| repository := repository res; res_commits := res_commits res ++ [c];
       learningCommits := learningCommits res;
       totalCommits := totalCommits res; errors := errors res |}).

Definition incrLearningCommits : M RunState unit :=
  updateResult (fun res =>
    {| repository := repository res; res_commits := res_commits res;
       learningCommits := learningCommits res + 1;
       totalCommits := totalCommits res; errors := errors res |}).

Definition pushError (msg : string) : M RunState unit :=
  updateResult (fun res =>
    {| repository := repository res; res_commits := res_commits res;
       learningCommits := learningCommits res;
       totalCommits := totalCommits res; errors := errors res ++ [msg] |}).

(** [x || d] for an optional string: absent and empty are falsy. *)
Definition strOr (x : option string) (d : string) : string :=
  match x with
  | Some s => if String.eqb s "" then d else s
  | None => d
  end.

(** [x || d] for an optional integer: absent and 0 are falsy. *)
Definition intOr (x : option Z) (d : Z) : Z :=
  match x with
  | Some n => if n =? 0 then d else n
  | None => d
  end.

(** [client.getCommits]: the [sha] parameter is sent only for a non-empty
    branch, [per_page] falls back to 30. *)
Definition getCommits (env : Env) (o r : string) (br : option string)
    (per_page : option Z) : outcome (list GitHubCommit) :=
  let sha_param := match br with
                   | Some b => if String.eqb b "" then None else Some b
                   | None => None
                   end in
  gh_commits env o r sha_param (intOr per_page 30).

(** [client.getLearningCommits] *)
Definition getLearningCommits (env : Env) (o r : string) (br : option string)
    (lim : option Z) : outcome (list GitHubCommit) :=
  let limit := intOr lim 20 in
  match getCommits env o r br (Some (Z.min (limit * 2) 100)) with
  | Ok cs => Ok (slice0 (filterLearningCommits cs) limit)
  | Err e => Err e
  end.

Definition liftOutcome {St A} (o : outcome A) : M St A := fun s => (s, o).

(** [options?.branch] and [options?.commitLimit] *)
Definition optionsBranch (options : option IngestOptions) : option string :=
  match options with
  | Some o => branch o
  | None => None
  end.

Definition optionsCommitLimit (options : option IngestOptions) : option Z :=
  match options with
  | Some o => commitLimit o
  | None => None
  end.

Definition statusRecord (env : Env) (repoId : string) (k : StatusKind)
    (msg : option string) : AnalysisStatus :=
  {| st_repo_id := repoId; st_status := k; st_error_message := msg;
     st_started_at := now env; st_updated_at := now env |}.

(** The body of the [for] loop, for the commit at position [i]. *)
Definition storeOne (env : Env) (repoId : string) (i : nat)
    (githubCommit : GitHubCommit) (analysis : CommitAnalysis) : M RunState unit :=
  tryCatch
    (storedCommit ← onWorld (createCommit env i
        (repoId +:+ ":" +:+ sha githubCommit) repoId (sha githubCommit)
        (message githubCommit) (author_name githubCommit) (author_date githubCommit));
     pushCommit storedCommit;;
     match isLearningWorthy analysis, files githubCommit with
     | true, Some fs =>
         onWorld (storeCommitDiff env i repoId (sha githubCommit)
           {| diff_commit_sha := sha githubCommit; diff_files := fs |});;
         incrLearningCommits
     | _, _ => mret tt
     end)
    (fun error =>
       pushError ("Failed to store commit " +:+ sha githubCommit +:+ ": "
                  +:+ renderThrown error)).

(** The [for] loop over [githubCommits] and [commitAnalyses], from position [i]. *)
Fixpoint storeAll (env : Env) (repoId : string) (i : nat)
    (items : list (GitHubCommit * CommitAnalysis)) : M RunState unit :=
  match items with
  | [] => mret tt
  | (githubCommit, analysis) :: rest =>
      storeOne env repoId i githubCommit analysis;;
      storeAll env repoId (S i) rest
  end.

(** The [try] block of [ingestRepository]. *)
Definition ingestBody (env : Env) (url : string)
    (options : option IngestOptions) : M RunState unit :=
  let parsed := parseRepositoryUrl url in
  if negb (isValid parsed)
  then throw (JsError (strOr (Client.error parsed) "Invalid repository URL"))
  else
    existing ← onWorld (getRepositoryByUrl url);
    match existing with
    | Some _ => throw (JsError "Repository already exists in database")
    | None =>
        repoInfo ← liftOutcome (gh_repository env (owner parsed) (repo parsed));
        let repoId := owner parsed +:+ "/" +:+ repo parsed in
        repository ← onWorld (createRepository env repoId url (full_name repoInfo));
        setRepository repository;;
        onWorld (setAnalysisStatus env repoId (statusRecord env repoId analyzing None));;
        githubCommits ← liftOutcome
          (getLearningCommits env (owner parsed) (repo parsed)
             (Some (strOr (optionsBranch options) (default_branch repoInfo)))
             (Some (intOr (optionsCommitLimit options) 50)));
        setTotalCommits (List.length githubCommits);;
        let commitAnalyses := analyzeCommits githubCommits in
        storeAll env repoId 0%nat (combine githubCommits commitAnalyses);;
        onWorld (setAnalysisStatus env repoId (statusRecord env repoId completed None))
    end.

(** The [catch] clause: record the failure if the repository row exists,
    then rethrow. *)
Definition ingestHandler (env : Env) (error : Thrown) : M RunState unit :=
  s ← get;
  match repository (result s) with
  | Some r =>
      onWorld (setAnalysisStatus env (repo_id r)
        (statusRecord env (repo_id r) Storage.error (Some (errorMessage error))));;
      throw error
  | None => throw error
  end.

(** [ingestRepository]: the stores it leaves behind, and its [result] or what
    it threw. *)
Definition ingestRepository (env : Env) (url : string)
    (options : option IngestOptions) (w : World) : World * outcome RepoIngestionResult :=
  let run := tryCatch (ingestBody env url options) (ingestHandler env);;
             s ← get; mret (result s) in
  let '(s, r) := run {| world := w; result := initialResult |} in
  (world s, r).

End Ingest.

(* ===================================================================== *)
(** ** Learner sessions ([TutorialService], [src/tutorial/index.ts]) *)
(* ===================================================================== *)

Module Tutorial.

Record TutorialRow := {
  tutorial_id : string;
  tutorial_commit_id : string;
  tutorial_title : string;
  tutorial_description : string;
  tutorial_created_at : string
}.

Record TutorialStep := {
  step_id : string;
  step_title : string;
  step_description : string;
  step_instructions : string
}.

(** [TutorialContent] of [src/storage/r2.ts]; a file-tree entry is kept by
    its path. *)
Record TutorialContent := {
  content_tutorial_id : string;
  steps : list TutorialStep;
  fileTree : option (list string);
  parentSha : option string
}.

Record LearnerSession := {
  session_id : string;
  session_tutorial_id : string;
  current_step : Z;
  started_at : string;
  completed_at : option string
}.

(** The stores behind the session layer: the [tutorials] and
    [learner_sessions] tables by primary key, and the content objects of the
    bucket by tutorial id.  Their updates always go through; a second row
    with an existing primary key is rejected. *)
Record Stores := {
  tutorials : gmap string TutorialRow;
  contents : gmap string TutorialContent;
  sessions : gmap string LearnerSession
}.

Definition withSessions (st : Stores) (ss : gmap string LearnerSession) : Stores :=
  {| tutorials := tutorials st; contents := contents st; sessions := ss |}.

(** [TutorialSession], what every session operation returns. *)
Record TutorialSession := {
  session : LearnerSession;
  tutorial : TutorialRow;
  content : TutorialContent;
  currentStepContent : option TutorialStep;
  ts_fileTree : list string;
  ts_parentSha : option string
}.

(** [arr[i] || null] for an integer index. *)
Definition stepAt (l : list TutorialStep) (i : Z) : option TutorialStep :=
  if i <? 0 then None else l !! Z.to_nat i.

(** [database.getSession] *)
Definition db_getSession (id : string) : M Stores (option LearnerSession) :=
  fun st => (st, Ok (sessions st !! id)).

(** [database.createSession]: [INSERT ... RETURNING *]; [started_at] is the
    column default [CURRENT_TIMESTAMP]. *)
Definition db_createSession (now id tutorialId : string) (step : Z)
    (completedAt : option string) : M Stores LearnerSession :=
  fun st =>
    match sessions st !! id with
    | Some _ => (st, Err (JsError "UNIQUE constraint failed: learner_sessions.id"))
    | None =>
        let row := {| session_id := id; session_tutorial_id := tutorialId;
                      current_step := step; started_at := now;
                      completed_at := completedAt |} in
        (withSessions st (<[id := row]> (sessions st)), Ok row)
    end.

(** The row with [current_step] set. *)
Definition withStep (s : LearnerSession) (step : Z) : LearnerSession :=
  {| session_id := session_id s; session_tutorial_id := session_tutorial_id s;
     current_step := step; started_at := started_at s;
     completed_at := completed_at s |}.

(** The row with [completed_at] set. *)
Definition withCompletedAt (s : LearnerSession) (t : string) : LearnerSession :=
  {| session_id := session_id s; session_tutorial_id := session_tutorial_id s;
     current_step := current_step s; started_at := started_at s;
     completed_at := Some t |}.

(** [database.updateSessionProgress]:
    [UPDATE learner_sessions SET current_step = ? WHERE id = ?] *)
Definition db_updateSessionProgress (id : string) (step : Z) : M Stores unit :=
  modify (fun st =>
    withSessions st (alter (fun s => withStep s step) id (sessions st))).

(** [database.completeSession]:
    [UPDATE learner_sessions SET completed_at = CURRENT_TIMESTAMP WHERE id = ?] *)
Definition db_completeSession (now id : string) : M Stores unit :=
  modify (fun st =>
    withSessions st (alter (fun s => withCompletedAt s now) id (sessions st))).

(** [getTutorialWithContent] *)
Definition getTutorial (tutorialId : string) : M Stores (TutorialRow * TutorialContent) :=
  fun st =>
    match tutorials st !! tutorialId with
    | None => (st, Err (JsError "Tutorial not found"))
    | Some t =>
        match contents st !! tutorialId with
        | None => (st, Err (JsError "Tutorial content not found"))
        | Some c => (st, Ok (t, c))
        end
    end.

Definition mkSession (s : LearnerSession) (t : TutorialRow) (c : TutorialContent)
    (i : Z) : TutorialSession :=
  {| session := s; tutorial := t; content := c;
     currentStepContent := stepAt (steps c) i;
     ts_fileTree := match fileTree c with Some ft => ft | None => [] end;
     ts_parentSha := parentSha c |}.

(** [startSession]; [sessionId] is what [generateId()] returned. *)
Definition startSession (now sessionId tutorialId : string) : M Stores TutorialSession :=
  '(t, c) ← getTutorial tutorialId;
  s ← db_createSession now sessionId tutorialId 0 None;
  mret (mkSession s t c 0).

(** [getSession] *)
Definition getSession (sessionId : string) : M Stores TutorialSession :=
  found ← db_getSession sessionId;
  match found with
  | None => throw (JsError "Session not found")
  | Some s =>
      '(t, c) ← getTutorial (session_tutorial_id s);
      mret (mkSession s t c (current_step s))
  end.

(** [nextStep] *)
Definition nextStep (now sessionId : string) : M Stores TutorialSession :=
  found ← db_getSession sessionId;
  match found with
  | None => throw (JsError "Session not found")
  | Some s =>
      '(_, c) ← getTutorial (session_tutorial_id s);
      if Z.of_nat (List.length (steps c)) - 1 <=? current_step s
      then db_completeSession now sessionId;; getSession sessionId
      else db_updateSessionProgress sessionId (current_step s + 1);;
           getSession sessionId
  end.

(** [previousStep] *)
Definition previousStep (sessionId : string) : M Stores TutorialSession :=
  found ← db_getSession sessionId;
  match found with
  | None => throw (JsError "Session not found")
  | Some s =>
      if current_step s <=? 0
      then getSession sessionId
      else db_updateSessionProgress sessionId (current_step s - 1);;
           getSession sessionId
  end.

(** [completeSession] *)
Definition completeSession (now sessionId : string) : M Stores unit :=
  db_completeSession now sessionId.

(** The [complete] action of [handleSessionAction]: complete, then read the
    session back. *)
Definition completeAction (now sessionId : string) : M Stores TutorialSession :=
  completeSession now sessionId;; getSession sessionId.

(** The session is completed: [completed_at] is not null. *)
Definition completed (s : LearnerSession) : bool :=
  match completed_at s with
  | Some _ => true
  | None => false
  end.

End Tutorial.

(* ===================================================================== *)
(** ** Tutorial content from the model ([AIService], [src/ai/service.ts]) *)
(* ===================================================================== *)

Module AI.
Import JsString.

(** The text of a string that [JSON.parse] built: its UTF-16 code units.
    The texts that are parsed have code units below 256, but an escape
    [\uXXXX] puts any unit into a string or a key. *)
Definition jsText : Type := list N.

(** A string of the embedding as such a text. *)
Definition units (s : string) : jsText := map N_of_ascii (list_ascii_of_string s).

Fixpoint unitsEqb (a b : jsText) : bool :=
  match a, b with
  | [], [] => true
  | x :: a', y :: b' => (x =? y)%N && unitsEqb a' b'
  | _, _ => false
  end.

(** A value that [JSON.parse] can return.  A number is kept as the decimal
    [mantissa * 10 ^ exponent] it was written as; an object keeps its members
    in source order. *)
#[local] Unset Elimination Schemes.
Inductive json :=
| JNull
| JBool (b : bool)
| JNumber (mantissa exponent : Z)
| JString (s : jsText)
| JArray (items : list json)
| JObject (members : list (jsText * json)).
#[local] Set Elimination Schemes.

(** A string literal of the source as a value. *)
Definition JStr (s : string) : json := JString (units s).

(** The double nearest to [m * 10 ^ e] is zero: [m] is zero, or the value is
    at most half the smallest subnormal, [2 ^ -1075]. *)
Definition roundsToZero (m e : Z) : bool :=
  (m =? 0) || ((e <? 0) && (Z.abs m * 2 ^ 1075 <=? 10 ^ (- e))).

(** JavaScript truthiness. *)
Definition truthy (v : json) : bool :=
  match v with
  | JNull => false
  | JBool b => b
  | JNumber m e => negb (roundsToZero m e)
  | JString s => match s with [] => false | _ :: _ => true end
  | JArray _ => true
  | JObject _ => true
  end.

(** The own property [key] of an object: of two members with one key the
    later one stays. *)
Fixpoint lookupMember (members : list (jsText * json)) (key : string) : option json :=
  match members with
  | [] => None
  | (k, v) :: rest =>
      match lookupMember rest key with
      | Some later => Some later
      | None => if unitsEqb k (units key) then Some v else None
      end
  end.

(** [parsed.key] for a key that no prototype of a JSON value has (the keys
    read here: [title], [description], [steps], [repository],
    [fileStructure], [codePatterns], [relatedFiles]): a [TypeError] on
    [null], [undefined] on every value that is not an object. *)
Definition getField (parsed : json) (key : string) : outcome (option json) :=
  match parsed with
  | JNull => Err (JsError "Cannot read properties of null")
  | JObject members => Ok (lookupMember members key)
  | _ => Ok None
  end.

(** [x || d] *)
Definition orDefault (x : option json) (d : json) : json :=
  match x with
  | Some v => if truthy v then v else d
  | None => d
  end.

(** What [generateTutorialContent] returns. *)
Record TutorialDraft := {
  title : json;
  description : json;
  steps : json
}.

Definition hintsOf (hs : list string) : json := JArray (map JStr hs).

Definition fallbackStep (t d i : string) (hs : list string) : json :=
  JObject [(units "title", JStr t); (units "description", JStr d);
           (units "instructions", JStr i); (units "hints", hintsOf hs)].

Definition fallbackSteps : list json :=
  [ fallbackStep "Understand the Changes" "Review what was modified"
      "Study the commit message and file changes to understand the goal."
      ["Look at the commit message for context"; "Check which files were modified"];
    fallbackStep "Plan Your Implementation" "Break down the approach"
      "Think about the implementation strategy and required changes."
      ["Start with the main functionality"; "Consider edge cases"];
    fallbackStep "Implement the Changes" "Write the code"
      "Implement the feature following the same patterns as the original commit."
      ["Follow existing code patterns"; "Add proper error handling"] ].

(** [s.split('\n')[0]] *)
Definition firstLine (s : string) : string :=
  match split "010" s with
  | l :: _ => l
  | [] => EmptyString
  end.

(** [generateFallbackTutorial(commit, files)]; the commit is given by its
    message, [None] is the [null] commit.  The files are not read. *)
Definition generateFallbackTutorial (commitMessage : option string) : TutorialDraft :=
  {| title := match commitMessage with
              | Some m => JStr ("Learn: " +:+ firstLine m)
              | None => JStr "Learn from this commit"
              end;
     description :=
       JStr "Step-by-step implementation guide based on the commit changes.";
     steps := JArray fallbackSteps |}.

(** [response.match(/\{[\s\S]*\}/)]: from the first opening brace to the
    last closing brace after it. *)
Fixpoint fromFirstOpen (s : string) : option string :=
  match s with
  | EmptyString => None
  | String c t => if Ascii.eqb c "{" then Some t else fromFirstOpen t
  end.

Fixpoint uptoLastClose (s : string) : option string :=
  match s with
  | EmptyString => None
  | String c t =>
      match uptoLastClose t with
      | Some r => Some (String c r)
      | None => if Ascii.eqb c "}" then Some (String c EmptyString) else None
      end
  end.

Definition jsonMatch (response : string) : option string :=
  match fromFirstOpen response with
  | Some afterOpen =>
      match uptoLastClose afterOpen with
      | Some body => Some (String "{" body)
      | None => None
      end
  | None => None
  end.

(** What [env.AI.run] did: it rejected, it resolved to [null] or
    [undefined], or it resolved to an object whose [response] property is
    absent or a string.  A [response] that is falsy is read as the empty
    string; one that is neither falsy nor a string has no [match] for
    [parseTutorialResponse] to call, which gives the template as the empty
    string does. *)
Inductive AiReply :=
| AiThrows (e : Thrown)
| AiNothing
| AiObject (response : option string).

(** [o] and then [k]: what the first of them throws is thrown. *)
Definition andThen {A B} (o : outcome A) (k : A -> outcome B) : outcome B :=
  match o with
  | Ok a => k a
  | Err e => Err e
  end.

(** [v.key] on a value that is not [null], for a key that no prototype of a
    JSON value has. *)
Definition member (v : json) (key : string) : option json :=
  match v with
  | JObject members => lookupMember members key
  | _ => None
  end.

(** [v?.key] *)
Definition optMember (v : option json) (key : string) : option json :=
  match v with
  | Some JNull => None
  | Some x => member x key
  | None => None
  end.

(** [CodebaseContext], with the values that are in it at run time: what
    [parseCodebaseContext] puts there is whatever the reply held. *)
Record RepositoryInfo := {
  ri_name : json;
  ri_owner : json;
  ri_language : json;
  ri_framework : option json;
  ri_architecture : option json
}.

Record FileStructure := {
  fs_mainFiles : json;
  fs_configFiles : json;
  fs_testFiles : json;
  fs_documentationFiles : json
}.

Record CodePatterns := {
  cp_imports : json;
  cp_functions : json;
  cp_classes : json;
  cp_patterns : json
}.

Record CodebaseContext := {
  cc_repository : RepositoryInfo;
  cc_fileStructure : FileStructure;
  cc_codePatterns : CodePatterns;
  cc_relatedFiles : json
}.

(** An entry of the file tree, as [generateFallbackCodebaseContext] reads it. *)
Record TreeItem := {
  tree_path : string;
  tree_type : string
}.

(** [s.endsWith(suffix)] *)
Definition endsWith (s suffix : string) : bool :=
  (String.length suffix <=? String.length s)%nat &&
  String.eqb
    (String.substring (String.length s - String.length suffix) (String.length suffix) s)
    suffix.

Definition pathsOf (items : list TreeItem) : json :=
  JArray (map (fun f => JStr (tree_path f)) items).

(** [generateFallbackCodebaseContext(fileTree, repository)]; the repository
    is given by its [name]. *)
Definition generateFallbackCodebaseContext (fileTree : list TreeItem)
    (repositoryName : option string) : CodebaseContext :=
  let mainFiles :=
    pathsOf
      (Client.slice0
         (List.filter
            (fun f => String.eqb (tree_type f) "blob" &&
                      (includes (tree_path f) "index." ||
                       includes (tree_path f) "main." ||
                       includes (tree_path f) "app." ||
                       endsWith (tree_path f) ".js" ||
                       endsWith (tree_path f) ".ts"))
            fileTree)
         5) in
  {| cc_repository :=
       {| ri_name := JStr (Ingest.strOr repositoryName "Unknown");
          ri_owner := JStr "Unknown";
          ri_language := JStr "JavaScript";
          ri_framework := Some (JStr "Unknown");
          ri_architecture := Some (JStr "Unknown") |};
     cc_fileStructure :=
       {| fs_mainFiles := mainFiles;
          fs_configFiles :=
            pathsOf (List.filter
                       (fun f => includes (tree_path f) "config" ||
                                 includes (tree_path f) "package.json") fileTree);
          fs_testFiles :=
            pathsOf (List.filter
                       (fun f => includes (tree_path f) "test" ||
                                 includes (tree_path f) "spec") fileTree);
          fs_documentationFiles :=
            pathsOf (List.filter
                       (fun f => includes (tree_path f) "README" ||
                                 includes (tree_path f) ".md") fileTree) |};
     cc_codePatterns :=
       {| cp_imports := JArray []; cp_functions := JArray []; cp_classes := JArray [];
          cp_patterns := JArray [JStr "Standard JavaScript patterns"] |};
     cc_relatedFiles := JArray [] |}.

(** The conversion to a string that a template literal applies to a value
    goes through: an object converts through its [toString], and one that
    has a member of that name has no function there; an array converts its
    elements, skipping [null]. *)
Fixpoint converts (v : json) : bool :=
  match v with
  | JArray items => forallb converts items
  | JObject members =>
      match lookupMember members "toString" with
      | Some _ => false
      | None => true
      end
  | _ => true
  end.

(** A value that is interpolated into a template literal: the value, or the
    [TypeError] of the conversion. *)
Definition interpolate (v : json) : outcome json :=
  if converts v then Ok v
  else Err (JsError "Cannot convert object to primitive value").

Definition interpolateOpt (v : option json) : outcome (option json) :=
  match v with
  | Some x => andThen (interpolate x) (fun y => Ok (Some y))
  | None => Ok None
  end.

Fixpoint mapItems {A} (f : json -> outcome A) (items : list json) : outcome (list A) :=
  match items with
  | [] => Ok []
  | x :: rest =>
      andThen (f x) (fun y => andThen (mapItems f rest) (fun ys => Ok (y :: ys)))
  end.

(** [v.map(f)] on a value: an array has the method, [null] has no
    properties, nothing else has a [map]; [callee] is the text of the
    expression that is called, which the [TypeError] names. *)
Definition mapValue {A} (callee : string) (f : json -> outcome A) (v : json)
    : outcome (list A) :=
  match v with
  | JArray items => mapItems f items
  | JNull => Err (JsError "Cannot read properties of null (reading 'map')")
  | _ => Err (JsError (callee +:+ " is not a function"))
  end.

(** The line of one related file: [f.path] and [f.relevance], interpolated. *)
Definition relatedLine (f : json) : outcome (option json * option json) :=
  match f with
  | JNull => Err (JsError "Cannot read properties of null (reading 'path')")
  | _ =>
      andThen (interpolateOpt (member f "path")) (fun path =>
      andThen (interpolateOpt (member f "relevance")) (fun relevance =>
      Ok (path, relevance)))
  end.

(** The context section of the prompt, by what is interpolated into it. *)
Record ContextSection := {
  cs_language : json;
  cs_framework : json;
  cs_architecture : json;
  cs_mainFiles : list json;
  cs_patterns : list json;
  cs_relatedFiles : list (option json * option json)
}.

(** The prompt, by what is interpolated into its fixed text: of the commit,
    the repository and the files (their names, statuses and line counts,
    whose number and total the text gives too), and the context section,
    which is there when a context is given. *)
Record Prompt := {
  p_message : string;
  p_author : string;
  p_repository : string;
  p_files : list Analyzer.GitHubFile;
  p_context : option ContextSection
}.

(** The [contextSection] of [buildTutorialPrompt], left to right. *)
Definition contextSection (c : CodebaseContext) : outcome ContextSection :=
  andThen (interpolate (ri_language (cc_repository c))) (fun language =>
  andThen (interpolate (orDefault (ri_framework (cc_repository c))
                          (JStr "Not specified"))) (fun framework =>
  andThen (interpolate (orDefault (ri_architecture (cc_repository c))
                          (JStr "Not specified"))) (fun architecture =>
  andThen (mapValue "codebaseContext.fileStructure.mainFiles.map" interpolate
             (fs_mainFiles (cc_fileStructure c))) (fun mainFiles =>
  andThen (mapValue "codebaseContext.codePatterns.patterns.map" interpolate
             (cp_patterns (cc_codePatterns c))) (fun patterns =>
  andThen (mapValue "codebaseContext.relatedFiles.map" relatedLine
             (cc_relatedFiles c)) (fun relatedFiles =>
  Ok {| cs_language := language; cs_framework := framework;
        cs_architecture := architecture; cs_mainFiles := mainFiles;
        cs_patterns := patterns; cs_relatedFiles := relatedFiles |})))))).

(** [buildTutorialPrompt]: the commit and the repository are rows of the
    database and the files are those of the GitHub commit, so only the
    context section can throw. *)
Definition buildTutorialPrompt (commit : Storage.Commit)
    (files : list Analyzer.GitHubFile) (repository : Storage.Repository)
    (codebaseContext : option CodebaseContext) : outcome Prompt :=
  andThen
    (match codebaseContext with
     | Some c => andThen (contextSection c) (fun section => Ok (Some section))
     | None => Ok None
     end)
    (fun section =>
       Ok {| p_message := Storage.commit_message commit;
             p_author := Storage.commit_author commit;
             p_repository := Storage.repo_name repository;
             p_files := files;
             p_context := section |}).

Section WithJsonParse.

(** The built-in [JSON.parse]: the value, or the [SyntaxError] it throws. *)
Variable JSON_parse : string -> outcome json.

(** [env.AI.run] with the instructions of [generateTutorialContent]: what it
    does on a prompt. *)
Variable AI_run : Prompt -> AiReply.

(** The [try] block of [parseCodebaseContext]: [None] when the response has
    no braces to extract. *)
Definition parseCodebaseJson (response : string) : outcome (option CodebaseContext) :=
  match jsonMatch response with
  | Some text =>
      andThen (JSON_parse text) (fun parsed =>
      andThen (getField parsed "repository") (fun repository =>
      let fileStructure := member parsed "fileStructure" in
      let codePatterns := member parsed "codePatterns" in
      Ok (Some
        {| cc_repository :=
             {| ri_name := orDefault (optMember repository "name") (JStr "Unknown");
                ri_owner := orDefault (optMember repository "owner") (JStr "Unknown");
                ri_language :=
                  orDefault (optMember repository "language") (JStr "JavaScript");
                ri_framework := optMember repository "framework";
                ri_architecture := optMember repository "architecture" |};
           cc_fileStructure :=
             {| fs_mainFiles := orDefault (optMember fileStructure "mainFiles") (JArray []);
                fs_configFiles :=
                  orDefault (optMember fileStructure "configFiles") (JArray []);
                fs_testFiles := orDefault (optMember fileStructure "testFiles") (JArray []);
                fs_documentationFiles :=
                  orDefault (optMember fileStructure "documentationFiles") (JArray []) |};
           cc_codePatterns :=
             {| cp_imports := orDefault (optMember codePatterns "imports") (JArray []);
                cp_functions := orDefault (optMember codePatterns "functions") (JArray []);
                cp_classes := orDefault (optMember codePatterns "classes") (JArray []);
                cp_patterns := orDefault (optMember codePatterns "patterns") (JArray []) |};
           cc_relatedFiles := orDefault (member parsed "relatedFiles") (JArray []) |})))
  | None => Ok None
  end.

(** [parseCodebaseContext] *)
Definition parseCodebaseContext (response : string) : CodebaseContext :=
  match parseCodebaseJson response with
  | Ok (Some context) => context
  | Ok None => generateFallbackCodebaseContext [] (Some "Unknown")
  | Err _ => generateFallbackCodebaseContext [] (Some "Unknown")
  end.

(** The [try] block of [parseTutorialResponse]: [None] when the response has
    no braces to extract. *)
Definition parseTutorialJson (response : string) : outcome (option TutorialDraft) :=
  match jsonMatch response with
  | Some text =>
      match JSON_parse text with
      | Err e => Err e
      | Ok parsed =>
          match getField parsed "title", getField parsed "description",
                getField parsed "steps" with
          | Ok t, Ok d, Ok st =>
              Ok (Some {| title := orDefault t (JStr "Learn from this commit");
                          description :=
                            orDefault d (JStr "Step-by-step implementation guide");
                          steps := orDefault st (JArray []) |})
          | Err e, _, _ => Err e
          | _, Err e, _ => Err e
          | _, _, Err e => Err e
          end
      end
  | None => Ok None
  end.

(** [parseTutorialResponse] *)
Definition parseTutorialResponse (response : string) : TutorialDraft :=
  match parseTutorialJson response with
  | Ok (Some draft) => draft
  | Ok None => generateFallbackTutorial None
  | Err _ => generateFallbackTutorial None
  end.

(** [generateTutorialContent]: the prompt is built before the [try] block,
    so what [buildTutorialPrompt] throws is thrown; then the reply of the
    model decides. *)
Definition generateTutorialContent (commit : Storage.Commit)
    (files : list Analyzer.GitHubFile) (repository : Storage.Repository)
    (codebaseContext : option CodebaseContext) : outcome TutorialDraft :=
  andThen (buildTutorialPrompt commit files repository codebaseContext) (fun prompt =>
  match AI_run prompt with
  | AiThrows _ => Ok (generateFallbackTutorial (Some (Storage.commit_message commit)))
  | AiNothing => Ok (generateFallbackTutorial (Some (Storage.commit_message commit)))
  | AiObject response => Ok (parseTutorialResponse (orEmpty response))
  end).

End WithJsonParse.

(** *** A reference [JSON.parse]

    The JSON grammar of ECMA-404 on texts of code units below 256; the
    strings it builds hold the units of the text and those that the escapes
    name.  The parser descends with a budget of which every value, every
    member and every element takes one; [parseJson] starts it at twice the
    length of the text plus two. *)

Definition isWs (c : ascii) : bool :=
  let n := N_of_ascii c in ((n =? 32) || (n =? 9) || (n =? 10) || (n =? 13))%N.

Fixpoint skipWs (s : string) : string :=
  match s with
  | String c t => if isWs c then skipWs t else s
  | EmptyString => s
  end.

Definition hexValue (c : ascii) : option N :=
  let n := N_of_ascii c in
  if ((48 <=? n) && (n <=? 57))%N then Some (n - 48)%N
  else if ((65 <=? n) && (n <=? 70))%N then Some (n - 55)%N
  else if ((97 <=? n) && (n <=? 102))%N then Some (n - 87)%N
  else None.

Definition hex4 (a b c d : ascii) : option N :=
  match hexValue a, hexValue b, hexValue c, hexValue d with
  | Some x, Some y, Some z, Some w => Some (((x * 16 + y) * 16 + z) * 16 + w)%N
  | _, _, _, _ => None
  end.

(** The code unit a two-character escape stands for. *)
Definition simpleEscape (c : ascii) : option N :=
  let n := N_of_ascii c in
  if (n =? 34)%N then Some n            (* quote *)
  else if (n =? 92)%N then Some n       (* backslash *)
  else if (n =? 47)%N then Some n       (* slash *)
  else if (n =? 98)%N then Some 8%N
  else if (n =? 102)%N then Some 12%N
  else if (n =? 110)%N then Some 10%N
  else if (n =? 114)%N then Some 13%N
  else if (n =? 116)%N then Some 9%N
  else None.

Definition consTo (c : N) (r : option (jsText * string)) : option (jsText * string) :=
  match r with
  | Some (body, rest) => Some (c :: body, rest)
  | None => None
  end.

(** A string after its opening quote: its content and the text after the
    closing quote. *)
Fixpoint parseStringBody (s : string) : option (jsText * string) :=
  match s with
  | EmptyString => None
  | String c t =>
      let n := N_of_ascii c in
      if (n =? 34)%N then Some ([], t)
      else if (n <? 32)%N then None
      else if (n =? 92)%N then
        match t with
        | String e t1 =>
            match simpleEscape e with
            | Some ch => consTo ch (parseStringBody t1)
            | None =>
                if Ascii.eqb e "u" then
                  match t1 with
                  | String h1 (String h2 (String h3 (String h4 t2))) =>
                      match hex4 h1 h2 h3 h4 with
                      | Some v => consTo v (parseStringBody t2)
                      | None => None
                      end
                  | _ => None
                  end
                else None
            end
        | EmptyString => None
        end
      else consTo n (parseStringBody t)
  end.

(** The text after the word [w] at the start of [s]. *)
Fixpoint stripWord (w s : string) : option string :=
  match w, s with
  | EmptyString, _ => Some s
  | String _ _, EmptyString => None
  | String a w', String b s' => if Ascii.eqb a b then stripWord w' s' else None
  end.

(** A run of digits read into [acc]: the number read, how many digits, the rest. *)
Fixpoint readDigits (s : string) (acc : Z) (count : Z) : Z * Z * string :=
  match s with
  | String c t =>
      if isDigit c
      then readDigits t (acc * 10 + Z.of_N (N_of_ascii c - 48)) (count + 1)
      else (acc, count, s)
  | EmptyString => (acc, count, s)
  end.

(** A JSON number: an optional minus, [0] or a digit run that does not start
    with [0], an optional fraction (a dot and digits), an optional exponent
    ([e] or [E], an optional sign, digits). *)
Definition parseNumber (s : string) : option (json * string) :=
  let '(negative, s1) :=
    match s with
    | String "-"%char t => (true, t)
    | _ => (false, s)
    end in
  let intPart :=
    match s1 with
    | String "0"%char t => Some (0, t)
    | String c _ =>
        if isDigit c then let '(m, _, r) := readDigits s1 0 0 in Some (m, r) else None
    | EmptyString => None
    end in
  match intPart with
  | None => None
  | Some (m, s2) =>
      let fracPart :=
        match s2 with
        | String "."%char t =>
            let '(m', k, r) := readDigits t m 0 in
            if k =? 0 then None else Some (m', k, r)
        | _ => Some (m, 0, s2)
        end in
      match fracPart with
      | None => None
      | Some (m2, k, s3) =>
          let signed := if negative then - m2 else m2 in
          match s3 with
          | String c t =>
              if Ascii.eqb c "e" || Ascii.eqb c "E" then
                let '(expNegative, t1) :=
                  match t with
                  | String "-"%char u => (true, u)
                  | String "+"%char u => (false, u)
                  | _ => (false, t)
                  end in
                let '(x, n, r) := readDigits t1 0 0 in
                if n =? 0 then None
                else Some (JNumber signed ((if expNegative then - x else x) - k), r)
              else Some (JNumber signed (- k), s3)
          | EmptyString => Some (JNumber signed (- k), s3)
          end
      end
  end.

Fixpoint parseValue (budget : nat) (s : string) : option (json * string) :=
  match budget with
  | O => None
  | S budget' =>
      match skipWs s with
      | String c t =>
          let n := N_of_ascii c in
          if (n =? 123)%N then            (* opening brace *)
            match skipWs t with
            | String "}"%char r => Some (JObject [], r)
            | _ => parseMembers budget' t []
            end
          else if (n =? 91)%N then        (* opening bracket *)
            match skipWs t with
            | String "]"%char r => Some (JArray [], r)
            | _ => parseElements budget' t []
            end
          else if (n =? 34)%N then        (* quote *)
            match parseStringBody t with
            | Some (str, r) => Some (JString str, r)
            | None => None
            end
          else
            match stripWord "true" (String c t), stripWord "false" (String c t),
                  stripWord "null" (String c t) with
            | Some r, _, _ => Some (JBool true, r)
            | _, Some r, _ => Some (JBool false, r)
            | _, _, Some r => Some (JNull, r)
            | None, None, None => parseNumber (String c t)
            end
      | EmptyString => None
      end
  end
with parseMembers (budget : nat) (s : string) (acc : list (jsText * json))
    : option (json * string) :=
  match budget with
  | O => None
  | S budget' =>
      match skipWs s with
      | String q t =>
          if (N_of_ascii q =? 34)%N then
            match parseStringBody t with
            | Some (key, r) =>
                match skipWs r with
                | String ":"%char r1 =>
                    match parseValue budget' r1 with
                    | Some (v, r2) =>
                        match skipWs r2 with
                        | String ","%char r3 => parseMembers budget' r3 (acc ++ [(key, v)])
                        | String "}"%char r3 => Some (JObject (acc ++ [(key, v)]), r3)
                        | _ => None
                        end
                    | None => None
                    end
                | _ => None
                end
            | None => None
            end
          else None
      | EmptyString => None
      end
  end
with parseElements (budget : nat) (s : string) (acc : list json)
    : option (json * string) :=
  match budget with
  | O => None
  | S budget' =>
      match parseValue budget' s with
      | Some (v, r) =>
          match skipWs r with
          | String ","%char r1 => parseElements budget' r1 (acc ++ [v])
          | String "]"%char r1 => Some (JArray (acc ++ [v]), r1)
          | _ => None
          end
      | None => None
      end
  end.

(** [JSON.parse(text)]: one value, blanks around it, nothing else. *)
Definition parseJson (text : string) : outcome json :=
  match parseValue (2 * String.length text + 2) text with
  | Some (v, rest) =>
      if String.eqb (skipWs rest) "" then Ok v
      else Err (JsError "SyntaxError: Unexpected non-whitespace character after JSON")
  | None => Err (JsError "SyntaxError: Unexpected token in JSON")
  end.

(** The step sequence is a non-empty array. *)
Definition hasSteps (d : TutorialDraft) : bool :=
  match steps d with
  | JArray (_ :: _) => true
  | _ => false
  end.

End AI.

(* ===================================================================== *)
(** ** Commit rows and their identifiers ([convertToDbCommit]) *)
(* ===================================================================== *)

Module CommitIds.
Import JsString Analyzer.

(** [Omit<Commit, 'created_at'>] *)
Record DbCommit := {
  db_id : string;
  db_repo_id : string;
  db_sha : string;
  db_message : string;
  db_author : string;
  db_date : string
}.

(** [convertToDbCommit] *)
Definition convertToDbCommit (gitHubCommit : GitHubCommit) (repoId : string) : DbCommit :=
  {| db_id := repoId +:+ ":" +:+ sha gitHubCommit;
     db_repo_id := repoId;
     db_sha := sha gitHubCommit;
     db_message := message gitHubCommit;
     db_author := author_name gitHubCommit;
     db_date := author_date gitHubCommit |}.

(** [commitId.split(':')[0]], the repository that [generateTutorial] reads
    out of a commit id. *)
Definition repoOfCommitId (commitId : string) : string :=
  match split ":" commitId with
  | h :: _ => h
  | [] => EmptyString
  end.

Definition notColon (c : ascii) : bool := negb (Ascii.eqb c ":").

(** No character of [s] is a colon. *)
Fixpoint colonFree (s : string) : bool :=
  match s with
  | EmptyString => true
  | String c t => notColon c && colonFree t
  end.

(** [CommitAnalyzer.getLearningCommits]: the commits paired with their
    analysis, the worthy ones kept. *)
Definition getLearningCommits (commits : list GitHubCommit)
    : list (GitHubCommit * CommitAnalysis) :=
  List.filter (fun '(_, analysis) => isLearningWorthy analysis)
    (map (fun commit => (commit, analyzeCommit commit)) commits).

End CommitIds.

(* ===================================================================== *)
(** ** Refreshing a repository ([GitHubService.refreshRepository]) *)
(* ===================================================================== *)

Module Refresh.
Import JsString Analyzer Client Storage Ingest CommitIds.

Record RefreshResult := {
  newCommits : nat;
  refreshErrors : list string
}.

(** [getRepository]: [SELECT * FROM repositories WHERE id = ?], first row. *)
Definition getRepository (id : string) : M World (option Repository) :=
  fun w => (w, Ok (List.find (fun r => String.eqb (repo_id r) id) (repositories w))).

(** [WHERE repo_id = ?] *)
Definition ofRepo (repoId : string) (c : Commit) : bool :=
  String.eqb (commit_repo_id c) repoId.

Section WithOrder.

(** [ORDER BY date DESC]: the order in which the database hands out a set of
    rows.  The refresh reads the rows as a set of hashes, so the order only
    decides which rows a [LIMIT] cuts off. *)
Variable byDateDesc : list Commit -> list Commit.

(** [getCommitsByRepo]:
    [SELECT * FROM commits WHERE repo_id = ? ORDER BY date DESC LIMIT ?] *)
Definition getCommitsByRepo (repoId : string) (limit : nat) : M World (list Commit) :=
  fun w => (w, Ok (take limit (byDateDesc (List.filter (ofRepo repoId) (commits w))))).

(** [new Set(existingCommits.map(c => c.sha))] *)
Definition shaSet (existingCommits : list Commit) : gset string :=
  list_to_set (map commit_sha existingCommits).

(** [githubCommits.filter(c => !existingShas.has(c.sha))] *)
Definition unseen (existingShas : gset string) (githubCommits : list GitHubCommit)
    : list GitHubCommit :=
  List.filter (fun c => negb (bool_decide (sha c ∈ existingShas))) githubCommits.

(** The [try] block of the loop, for the commit at position [i]. *)
Definition refreshOne (env : Env) (repoId : string) (i : nat)
    (githubCommit : GitHubCommit) : M World unit :=
  let dbCommit := convertToDbCommit githubCommit repoId in
  _ ← createCommit env i (db_id dbCommit) (db_repo_id dbCommit) (db_sha dbCommit)
        (db_message dbCommit) (db_author dbCommit) (db_date dbCommit);
  let analysis := analyzeCommit githubCommit in
  match isLearningWorthy analysis, files githubCommit with
  | true, Some fs =>
      storeCommitDiff env i repoId (sha githubCommit)
        {| diff_commit_sha := sha githubCommit; diff_files := fs |}
  | _, _ => mret tt
  end.

(** The [for] loop over [newCommits], from position [i]; [errors] is the
    local array it pushes to. *)
Fixpoint refreshAll (env : Env) (repoId : string) (i : nat)
    (newCommits : list GitHubCommit) (errors : list string) : M World (list string) :=
  match newCommits with
  | [] => mret errors
  | githubCommit :: rest =>
      errors' ← tryCatch
        (refreshOne env repoId i githubCommit;; mret errors)
        (fun error =>
           mret (errors ++ ["Failed to store commit " +:+ sha githubCommit +:+ ": "
                            +:+ renderThrown error]));
      refreshAll env repoId (S i) rest errors'
  end.

(** [refreshRepository] *)
Definition refreshRepository (env : Env) (repoId : string)
    (options : option IngestOptions) : M World RefreshResult :=
  repository ← getRepository repoId;
  match repository with
  | None => throw (JsError "Repository not found")
  | Some repository =>
      let parsed := parseRepositoryUrl (github_url repository) in
      if negb (isValid parsed)
      then throw (JsError "Invalid repository URL in database")
      else
        existingCommits ← getCommitsByRepo repoId 50;
        let existingShas := shaSet existingCommits in
        githubCommits ← liftOutcome
          (Ingest.getLearningCommits env (owner parsed) (repo parsed)
             (optionsBranch options)
             (Some (intOr (optionsCommitLimit options) 20)));
        let newCommits := unseen existingShas githubCommits in
        errors ← refreshAll env repoId 0%nat newCommits [];
        mret {| newCommits := List.length newCommits; refreshErrors := errors |}
  end.

End WithOrder.

(** The commits the refresh asks GitHub for. *)
Definition listed (env : Env) (url : string) (options : option IngestOptions)
    : outcome (list GitHubCommit) :=
  Ingest.getLearningCommits env (owner (parseRepositoryUrl url)) (repo (parseRepositoryUrl url))
    (optionsBranch options) (Some (intOr (optionsCommitLimit options) 20)).

(** The inserts that are rejected among those of the commits at the [n]
    positions from [i]. *)
Fixpoint failedInserts (env : Env) (i n : nat) : nat :=
  match n with
  | O => 0
  | S n' =>
      (match fault_createCommit env i with
       | Some _ => 1
       | None => 0
       end) + failedInserts env (S i) n'
  end.

(** The row of the repository [repoId], as [getRepository] finds it. *)
Definition rowOf (repoId : string) (w : World) : option Repository :=
  List.find (fun r => String.eqb (repo_id r) repoId) (repositories w).

(** The commits a refresh of [repoId] takes for new. *)
Definition newOnes (byDateDesc : list Commit -> list Commit) (repoId : string)
    (w : World) (cs : list GitHubCommit) : list GitHubCommit :=
  unseen (shaSet (take 50 (byDateDesc (List.filter (ofRepo repoId) (commits w))))) cs.

End Refresh.

(* ===================================================================== *)
(** ** Template tutorials ([TutorialGenerator], [src/tutorial/index.ts]) *)
(* ===================================================================== *)

Module Generator.
Import JsString Analyzer.

(** The type [groupFilesByType] files a file under: the extension is
    [file.filename.split('.').pop()?.toLowerCase() || 'other'], and the first
    list that has it names the type. *)
Definition fileType (file : GitHubFile) : string :=
  let ext := match extension file with
             | Some e => if String.eqb e "" then "other" else e
             | None => "other"
             end in
  if arrayIncludes ["js"; "ts"; "jsx"; "tsx"] ext then "JavaScript/TypeScript"
  else if arrayIncludes ["css"; "scss"; "sass"] ext then "Styles"
  else if arrayIncludes ["html"; "jsx"; "tsx"] ext then "Templates"
  else if arrayIncludes ["json"; "yml"; "yaml"] ext then "Configuration"
  else if arrayIncludes ["md"; "txt"] ext then "Documentation"
  else "Other".

(** [if (!groups[type]) groups[type] = []; groups[type].push(file)] on an
    object whose keys stay in the order they were first set. *)
Fixpoint pushTo (groups : list (string * list GitHubFile)) (type : string)
    (file : GitHubFile) : list (string * list GitHubFile) :=
  match groups with
  | [] => [(type, [file])]
  | (k, fs) :: rest =>
      if String.eqb k type then (k, fs ++ [file]) :: rest
      else (k, fs) :: pushTo rest type file
  end.

(** [groupFilesByType]; the result is read with [Object.entries]. *)
Definition groupFilesByType (files : list GitHubFile) : list (string * list GitHubFile) :=
  fold_left (fun groups file => pushTo groups (fileType file) file) files [].

(** What [generateSimpleTutorial] reads of its [context]. *)
Record Context := {
  ctx_sha : string;
  ctx_message : string;
  ctx_author : string;
  ctx_files : list GitHubFile
}.

Record SimpleTutorial := {
  st_title : string;
  st_description : string;
  st_steps : list Tutorial.TutorialStep
}.

(** [files.map(f => f.filename).join(', ')] *)
Definition fileNames (files : list GitHubFile) : string :=
  String.concat ", " (map filename files).

Definition mkStep (id title description instructions : string) : Tutorial.TutorialStep :=
  {| Tutorial.step_id := id; Tutorial.step_title := title;
     Tutorial.step_description := description;
     Tutorial.step_instructions := instructions |}.

(** The step of one group of files; [id] is what [generateId()] returned. *)
Definition groupStep (id : string) (group : string * list GitHubFile) : Tutorial.TutorialStep :=
  let '(type, files) := group in
  mkStep id ("Modify " +:+ type +:+ " Files")
    ("Update the " +:+ type +:+ " files as shown in the commit")
    ("Work on the following " +:+ type +:+ " files: " +:+ fileNames files +:+ ". "
     +:+ "Follow the same patterns shown in the original commit.").

(** The [forEach] over the groups; [n] calls of [generateId()] came before. *)
Fixpoint groupSteps (genId : nat -> string) (n : nat)
    (groups : list (string * list GitHubFile)) : list Tutorial.TutorialStep :=
  match groups with
  | [] => []
  | g :: rest => groupStep (genId n) g :: groupSteps genId (S n) rest
  end.

Section WithIds.

(** [generateId()]: what its [n]-th call within one run returns. *)
Variable genId : nat -> string.

(** [generateSimpleTutorial] *)
Definition generateSimpleTutorial (context : Context) : SimpleTutorial :=
  let message := ctx_message context in
  let isFeature := includes (toLowerCase message) "add"
                   || includes (toLowerCase message) "implement" in
  let isFix := includes (toLowerCase message) "fix"
               || includes (toLowerCase message) "bug" in
  let title :=
    if isFeature then "Implement: " +:+ AI.firstLine message
    else if isFix then "Fix: " +:+ AI.firstLine message
    else "Learn: " +:+ AI.firstLine message in
  let description :=
    "Learn how to implement the changes from commit "
    +:+ String.substring 0 8 (ctx_sha context) +:+ " by " +:+ ctx_author context +:+ ". "
    +:+ "This tutorial will guide you through the same implementation process." in
  let files := ctx_files context in
  let steps :=
    if (List.length files =? 0)%nat then
      [ mkStep (genId 0) "Understand the Problem" "Review what needs to be implemented"
          ("Study the commit message: " +:+ String "034" message +:+ String "034" ". "
           +:+ "Research what this change accomplishes and why it was needed.");
        mkStep (genId 1) "Plan Your Implementation" "Break down the implementation approach"
          "Think about what files might need to be changed and what the implementation approach should be.";
        mkStep (genId 2) "Implement the Change" "Write the code to accomplish the same goal"
          "Implement the feature following the same patterns used in the original commit.";
        mkStep (genId 3) "Test Your Implementation" "Verify that your implementation works"
          "Test your implementation to ensure it works correctly and follows the same behavior as the original commit." ]
    else
      let filesByType := groupFilesByType files in
      [ mkStep (genId 0) "Understand the Changes" "Review what files were modified and why"
          ("This commit modified " +:+ pretty (List.length files) +:+ " file(s): "
           +:+ fileNames files +:+ ". "
           +:+ "Study each file to understand what changes were made.") ]
      ++ groupSteps genId 1 filesByType
      ++ [ mkStep (genId (S (List.length filesByType))) "Verify Your Implementation"
             "Test that your changes work correctly"
             "Run tests and verify that your implementation matches the expected behavior from the original commit." ] in
  {| st_title := title; st_description := description; st_steps := steps |}.

End WithIds.

(** The six type names. *)
Definition typeNames : list string :=
  ["JavaScript/TypeScript"; "Styles"; "Templates"; "Configuration";
   "Documentation"; "Other"].

(** A group of [files]: it is not empty, its files have the type it is
    filed under, and they come in the order they have in [files]. *)
Definition GroupOf (files : list GitHubFile) (g : string * list GitHubFile) : Prop :=
  snd g <> [] /\ Forall (fun f => fileType f = fst g) (snd g) /\ sublist (snd g) files.

End Generator.

(* ===================================================================== *)
(** ** Conversation memory ([AIService], [src/ai/service.ts]) *)
(* ===================================================================== *)

Module Memory.
Import JsString AI.

Inductive Role := RoleUser | RoleAssistant | RoleSystem.

(** A message of the memory; a [Date] is kept as the instant it names, and
    the clock reads the same instant throughout one call. *)
Record Message := {
  msg_role : Role;
  msg_content : string;
  msg_timestamp : string;
  msg_context : option json
}.

Record ConversationMemory := {
  mem_sessionId : string;
  mem_messages : list Message;
  mem_codebaseContext : option json;
  mem_currentStep : option string;
  mem_lastUpdated : string
}.

(** The [STATUS_KV] namespace: text by key. *)
Definition KV := gmap string string.

Definition conversationKey (sessionId : string) : string :=
  "conversation:" +:+ sessionId.

(** [arr.slice(-n)] *)
Definition sliceLast {A} (n : nat) (l : list A) : list A :=
  drop (List.length l - n) l.

Section WithCodec.

(** What the service does not control: whether a read or a write of the
    namespace goes through, what [JSON.parse] and the conversion of the
    dates make of a stored text (a memory, or what they throw), and what
    [JSON.stringify] makes of a memory. *)
Variable fault_get : option Thrown.
Variable fault_put : option Thrown.
Variable decode : string -> outcome ConversationMemory.
Variable encode : ConversationMemory -> outcome string.

Definition kv_get (key : string) : M KV (option string) :=
  fun kv =>
    match fault_get with
    | Some e => (kv, Err e)
    | None => (kv, Ok (kv !! key))
    end.

Definition kv_put (key text : string) : M KV unit :=
  fun kv =>
    match fault_put with
    | Some e => (kv, Err e)
    | None => (<[key := text]> kv, Ok tt)
    end.

(** [getConversationMemory]: an absent or empty text is no memory, and so is
    whatever makes the [try] block throw. *)
Definition getConversationMemory (sessionId : string) : M KV (option ConversationMemory) :=
  tryCatch
    (stored ← kv_get (conversationKey sessionId);
     match stored with
     | Some text =>
         if String.eqb text "" then mret None
         else memory ← Ingest.liftOutcome (decode text); mret (Some memory)
     | None => mret None
     end)
    (fun _ => mret None).

(** [saveConversationMemory] *)
Definition saveConversationMemory (memory : ConversationMemory) : M KV unit :=
  tryCatch
    (text ← Ingest.liftOutcome (encode memory);
     kv_put (conversationKey (mem_sessionId memory)) text)
    (fun _ => mret tt).

(** The memory [addToConversationMemory] hands to [saveConversationMemory],
    from what [getConversationMemory] returned. *)
Definition withMessage (now : string) (found : option ConversationMemory)
    (sessionId : string) (message : Message) : ConversationMemory :=
  let memory :=
    match found with
    | Some m => m
    | None => {| mem_sessionId := sessionId; mem_messages := [];
                 mem_codebaseContext := None; mem_currentStep := None;
                 mem_lastUpdated := now |}
    end in
  let pushed := mem_messages memory ++ [message] in
  let kept := if (20 <? List.length pushed)%nat then sliceLast 20 pushed else pushed in
  {| mem_sessionId := mem_sessionId memory; mem_messages := kept;
     mem_codebaseContext := mem_codebaseContext memory;
     mem_currentStep := mem_currentStep memory;
     mem_lastUpdated := now |}.

(** [addToConversationMemory] *)
Definition addToConversationMemory (now sessionId : string) (role : Role)
    (content : string) (context : option json) : M KV unit :=
  found ← getConversationMemory sessionId;
  saveConversationMemory
    (withMessage now found sessionId
       {| msg_role := role; msg_content := content; msg_timestamp := now;
          msg_context := context |}).

(** The memory that the namespace holds for a session, as far as the
    service can read it: the read goes through, the entry is there, it is
    not empty and it decodes. *)
Definition readableMemory (sessionId : string) (kv : KV) : option ConversationMemory :=
  match fault_get, kv !! conversationKey sessionId with
  | None, Some text =>
      if String.eqb text "" then None
      else match decode text with
           | Ok m => Some m
           | Err _ => None
           end
  | _, _ => None
  end.

(** The namespace after a memory was handed to [put]: the entry of its
    session holds its text when it can be encoded and the write goes
    through, and nothing has changed otherwise. *)
Definition afterSave (memory : ConversationMemory) (kv : KV) : KV :=
  match encode memory, fault_put with
  | Ok text, None => <[conversationKey (mem_sessionId memory) := text]> kv
  | _, _ => kv
  end.

End WithCodec.

(** The messages of a memory that may be absent. *)
Definition messagesOf (found : option ConversationMemory) : list Message :=
  match found with
  | Some m => mem_messages m
  | None => []
  end.

End Memory.

(* ===================================================================== *)
(** ** Text around the JSON of a reply *)
(* ===================================================================== *)

Module ReplyText.

(** No character of [s] is an opening brace. *)
Fixpoint noOpen (s : string) : bool :=
  match s with
  | EmptyString => true
  | String c t => negb (Ascii.eqb c "{") && noOpen t
  end.

(** No character of [s] is a closing brace. *)
Fixpoint noClose (s : string) : bool :=
  match s with
  | EmptyString => true
  | String c t => negb (Ascii.eqb c "}") && noClose t
  end.

End ReplyText.

(* ===================================================================== *)
(** ** The classifier as the specification words it *)
(* ===================================================================== *)

Module ClassifierSpec.
Import JsString Analyzer.

(** The message contains one of the keywords. *)
Definition mentions (msg : string) (keywords : list string) : bool :=
  existsb (fun k => includes msg k) keywords.

(** More than 70% of the files satisfy [p]. *)
Definition share70 (p : GitHubFile -> bool) (fs : list GitHubFile) : bool :=
  7 * Z.of_nat (List.length fs) <? 10 * Z.of_nat (List.length (List.filter p fs)).

(** Step 3 of the classifier: the keyword scan of the lowercased message, in
    the order feature, fix, refactor, test, docs, other. *)
Definition spec_category (msg : string) (fs : list GitHubFile) : Category :=
  if mentions msg ["add"; "feat"; "implement"] then CatFeature
  else if mentions msg ["fix"; "bug"; "resolve"] then CatFix
  else if mentions msg ["refactor"; "improve"; "clean"] then CatRefactor
  else if mentions msg ["test"] || share70 isTestFile fs then CatTest
  else if mentions msg ["doc"; "readme"] || share70 isDocFile fs then CatDocs
  else CatOther.

(** Step 4: worthiness by category, before the overrides. *)
Definition spec_worthy (c : Category) (lines : Z) (nfiles : nat) : bool :=
  match c with
  | CatFeature => true
  | CatFix => (10 <=? lines) && (nfiles <=? 5)%nat
  | CatRefactor => (nfiles <=? 8)%nat && (lines <=? 200)
  | CatTest => true
  | CatDocs => false
  | CatOther => false
  end.

(** Step 5: a configuration file has an extension out of the set or a
    lowercased name that contains a known configuration base name. *)
Definition spec_configFile (f : GitHubFile) : Prop :=
  In (orEmpty (extension f)) ["json"; "yml"; "yaml"; "toml"; "ini"; "config"] \/
  exists base,
    In base ["package.json"; "package-lock.json"; "yarn.lock"; ".gitignore"; "dockerfile"]
    /\ includes (toLowerCase (filename f)) base = true.

(** The reasons [analyzeCommit] can give. *)
Definition allReasons : list string :=
  [ "Too many files changed (bulk operation)"; "Very small change";
    "Too many lines changed (likely auto-generated)"; "Adds new functionality";
    "Substantial bug fix"; "Small bug fix"; "Code improvement/refactor";
    "Large refactor (too complex)"; "Adds or improves tests";
    "Not a clear feature/improvement"; "Only configuration changes";
    "Version bump" ].

(** The size gates let the commit through. *)
Definition passesGates (commit : GitHubCommit) : Prop :=
  (List.length (filesOf commit) <= 15)%nat /\
  5 <= getTotalLinesChanged (filesOf commit) <= 500.

End ClassifierSpec.

(* ===================================================================== *)
(** ** The URL shapes that the locator accepts *)
(* ===================================================================== *)

Module LocatorSpec.
Import JsString Client.

Fixpoint allChars (ok : ascii -> bool) (s : string) : bool :=
  match s with
  | EmptyString => true
  | String c t => ok c && allChars ok t
  end.

(** What may stand before the owner. *)
Definition acceptedPrefixes : list string :=
  ["https://github.com/"; "http://github.com/"; "git@github.com:"; "github.com/"].

(** What may stand after the name. *)
Definition acceptedSuffixes : list string := [EmptyString; ".git"].

(** An owner: not empty, no slash. *)
Definition validOwner (o : string) : Prop :=
  o <> EmptyString /\ allChars notSlash o = true.

(** A repository name: not empty, no slash and no dot. *)
Definition validName (n : string) : Prop :=
  n <> EmptyString /\ allChars notSlashNorDot n = true.

Definition invalidFormat : RepoParseResult :=
  {| owner := ""; repo := ""; isValid := false;
     error := Some "Invalid GitHub URL format" |}.

End LocatorSpec.

(* ===================================================================== *)
(** ** Vocabulary for ingestion runs *)
(* ===================================================================== *)

Module IngestSpec.
Import JsString Analyzer Client Storage Ingest.

Definition isSome {A} (x : option A) : bool :=
  match x with
  | Some _ => true
  | None => false
  end.

(** The identifier [ingestRepository] gives the repository of [url]. *)
Definition repoIdOf (url : string) : string :=
  owner (parseRepositoryUrl url) +:+ "/" +:+ repo (parseRepositoryUrl url).

(** The candidate commits of a run: what [getLearningCommits] is asked for. *)
Definition candidates (env : Env) (url : string) (options : option IngestOptions)
    (info : GitHubRepository) : outcome (list GitHubCommit) :=
  getLearningCommits env (owner (parseRepositoryUrl url)) (repo (parseRepositoryUrl url))
    (Some (strOr (optionsBranch options) (default_branch info)))
    (Some (intOr (optionsCommitLimit options) 50)).

(** The run gets as far as writing the repository row: the URL parses, no row
    has it, GitHub knows the repository and the insert goes through. *)
Definition WritesRow (env : Env) (url : string) (w : World)
    (info : GitHubRepository) : Prop :=
  isValid (parseRepositoryUrl url) = true /\
  List.find (fun r => String.eqb (github_url r) url) (repositories w) = None /\
  gh_repository env (owner (parseRepositoryUrl url)) (repo (parseRepositoryUrl url))
    = Ok info /\
  fault_createRepository env = None.

(** The run gets as far as the loop, over the candidates [cs]. *)
Definition ReachesLoop (env : Env) (url : string) (options : option IngestOptions)
    (w : World) (info : GitHubRepository) (cs : list GitHubCommit) : Prop :=
  WritesRow env url w info /\
  fault_setAnalysisStatus env analyzing = None /\
  candidates env url options info = Ok cs.

(** The row that [createRepository] writes in such a run. *)
Definition rowFor (env : Env) (url : string) (info : GitHubRepository) : Repository :=
  {| repo_id := repoIdOf url; github_url := url; repo_name := full_name info;
     repo_created_at := now env |}.

(** The insert of the commit row at position [i] fails. *)
Definition rowWriteFails (env : Env) (i : nat) : bool :=
  isSome (fault_createCommit env i).

(** The diff of the commit is written: it is worthy and has file data. *)
Definition diffWritten (c : GitHubCommit) : bool :=
  isLearningWorthy (analyzeCommit c) && isSome (files c).

(** The row went in and the write of the diff fails. *)
Definition diffWriteFails (env : Env) (i : nat) (c : GitHubCommit) : bool :=
  negb (rowWriteFails env i) && diffWritten c && isSome (fault_storeCommitDiff env i).

(** A storage write for the commit at position [i] fails. *)
Definition commitFails (env : Env) (i : nat) (c : GitHubCommit) : bool :=
  rowWriteFails env i || diffWriteFails env i c.

(** What the failed write of the commit at position [i] throws. *)
Definition failureOf (env : Env) (i : nat) (c : GitHubCommit) : option Thrown :=
  match fault_createCommit env i with
  | Some e => Some e
  | None => if diffWritten c then fault_storeCommitDiff env i else None
  end.

Definition failureMessage (c : GitHubCommit) (e : Thrown) : string :=
  "Failed to store commit " +:+ sha c +:+ ": " +:+ renderThrown e.

(** Exactly one commit of the batch has a failing storage write: the one at
    position [j]. *)
Definition OnlyFailure (env : Env) (cs : list GitHubCommit) (j : nat) : Prop :=
  (exists c, cs !! j = Some c /\ commitFails env j c = true) /\
  (forall i c, cs !! i = Some c -> i <> j -> commitFails env i c = false).

(** The rows a loop over [cs] from position [i] stores, and the messages it
    records. *)
Definition commitRow (env : Env) (repoId : string) (c : GitHubCommit) : Commit :=
  {| commit_id := repoId +:+ ":" +:+ sha c; commit_repo_id := repoId;
     commit_sha := sha c; commit_message := message c;
     commit_author := author_name c; commit_date := author_date c;
     commit_created_at := now env |}.

Fixpoint storedRows (env : Env) (repoId : string) (i : nat)
    (cs : list GitHubCommit) : list Commit :=
  match cs with
  | [] => []
  | c :: rest =>
      (if rowWriteFails env i then [] else [commitRow env repoId c])
      ++ storedRows env repoId (S i) rest
  end.

Fixpoint recordedErrors (env : Env) (i : nat) (cs : list GitHubCommit) : list string :=
  match cs with
  | [] => []
  | c :: rest =>
      (match failureOf env i c with
       | Some e => [failureMessage c e]
       | None => []
       end) ++ recordedErrors env (S i) rest
  end.

(** Every URL in the repository table is one the locator accepts.  Rows are
    written by [ingestRepository] only, after the URL has parsed. *)
Definition StoredUrlsParse (w : World) : Prop :=
  Forall (fun r => isValid (parseRepositoryUrl (github_url r)) = true) (repositories w).

(** [url] is the URL of a row of the repository table. *)
Definition Ingested (url : string) (w : World) : Prop :=
  In url (map github_url (repositories w)).

Definition alreadyExists : Thrown := JsError "Repository already exists in database".

(** What a stretch of the loop leaves behind, from state [s] to state [s']:
    the repository table and the status entries are as before, and [result]
    has grown by the rows stored and the messages recorded. *)
Record Advances (s s' : RunState) (rows : list Commit) (msgs : list string) : Prop := {
  adv_repository : repository (result s') = repository (result s);
  adv_total : totalCommits (result s') = totalCommits (result s);
  adv_commits : res_commits (result s') = res_commits (result s) ++ rows;
  adv_errors : errors (result s') = errors (result s) ++ msgs;
  adv_kv : kv (world s') = kv (world s);
  adv_repositories : repositories (world s') = repositories (world s)
}.

End IngestSpec.

(* ===================================================================== *)
(** ** What an ingestion run may touch *)
(* ===================================================================== *)

Module IngestFrame.
Import JsString Analyzer Client Storage Ingest IngestSpec.

(** The commits of a loop over [cs] from position [i] whose row and diff both
    went in: what the loop adds to [learningCommits]. *)
Fixpoint learnedCount (env : Env) (i : nat) (cs : list GitHubCommit) : Z :=
  match cs with
  | [] => 0
  | c :: rest =>
      (if negb (commitFails env i c) && diffWritten c then 1 else 0)
      + learnedCount env (S i) rest
  end.

(** What a stretch of the loop for the repository [repoId] does to the
    stores and to the counter, from state [s] to state [s']: the commit table
    grows by [rows] at its end, the counter by [learned], and the bucket
    changes under diff keys of this repository only. *)
Record Touches (repoId : string) (s s' : RunState) (rows : list Commit)
    (learned : Z) : Prop := {
  touch_learning : learningCommits (result s') = learningCommits (result s) + learned;
  touch_commits : commits (world s') = commits (world s) ++ rows;
  touch_r2 : forall k, (forall h, k <> diffKey repoId h) ->
               r2 (world s') !! k = r2 (world s) !! k
}.

(** The stores [w'] differ from [w] only by what a run for [url] may write:
    at most one repository row and some commit rows of this repository, both
    added at the end of their tables; the status entry of this repository;
    diff objects of this repository. *)
Record Framed (url : string) (w w' : World) : Prop := {
  frame_repositories :
    exists added, repositories w' = repositories w ++ added /\
                  (List.length added <= 1)%nat /\
                  Forall (fun r => github_url r = url /\ repo_id r = repoIdOf url) added;
  frame_commits :
    exists added, commits w' = commits w ++ added /\
                  Forall (fun c => commit_repo_id c = repoIdOf url) added;
  frame_kv :
    forall k, k <> analysisKey (repoIdOf url) -> kv w' !! k = kv w !! k;
  frame_r2 :
    forall k, (forall h, k <> diffKey (repoIdOf url) h) -> r2 w' !! k = r2 w !! k
}.

(** Every repository row has the identifier that ingestion derives from its
    URL.  Rows are written by [ingestRepository] only, which derives it so. *)
Definition IdsFromUrls (w : World) : Prop :=
  Forall (fun r => repo_id r = repoIdOf (github_url r)) (repositories w).

End IngestFrame.

(* ===================================================================== *)
(** ** Vocabulary for learner sessions *)
(* ===================================================================== *)

Module SessionSpec.
Import Tutorial.

(** The stores hold the session [s] under [sid], and the tutorial row [t] and
    the content [c] of its tutorial. *)
Definition Known (st : Stores) (sid : string) (s : LearnerSession)
    (t : TutorialRow) (c : TutorialContent) : Prop :=
  sessions st !! sid = Some s /\
  tutorials st !! session_tutorial_id s = Some t /\
  contents st !! session_tutorial_id s = Some c.

(** [K - 1] for a tutorial of [K] steps. *)
Definition lastIndex (c : TutorialContent) : Z :=
  Z.of_nat (List.length (steps c)) - 1.

(** The stores after [n] calls of [nextStep]. *)
Fixpoint afterNexts (n : nat) (now sid : string) (st : Stores) : Stores :=
  match n with
  | O => st
  | S n' => fst (nextStep now sid (afterNexts n' now sid st))
  end.

End SessionSpec.

(* ===================================================================== *)
(** ** Vocabulary for the replies of the model *)
(* ===================================================================== *)

Module AISpec.
Import JsString AI.

(** The call threw, or resolved to nothing. *)
Definition CallFailed (reply : AiReply) : Prop :=
  match reply with
  | AiThrows _ => True
  | AiNothing => True
  | AiObject _ => False
  end.

(** The call resolved to an object whose response is not parseable as JSON:
    it has no braces to extract, or [JSON.parse] throws on what is
    extracted. *)
Definition NotJson (JSON_parse : string -> outcome json) (reply : AiReply) : Prop :=
  match reply with
  | AiObject response =>
      match jsonMatch (orEmpty response) with
      | None => True
      | Some text => exists e, JSON_parse text = Err e
      end
  | _ => False
  end.

(** The call resolved to an object whose response holds the JSON object with
    the given members. *)
Definition HoldsObject (JSON_parse : string -> outcome json) (reply : AiReply)
    (members : list (jsText * json)) : Prop :=
  match reply with
  | AiObject response =>
      match jsonMatch (orEmpty response) with
      | None => False
      | Some text => JSON_parse text = Ok (JObject members)
      end
  | _ => False
  end.

(** A context as the interface [CodebaseContext] types what the prompt
    reads of it: the language is a string, the framework and the
    architecture are strings when they are there, the main files and the
    patterns are arrays of strings, and the related files are an array of
    objects whose path and relevance are strings. *)
Definition isString (v : json) : bool :=
  match v with
  | JString _ => true
  | _ => false
  end.

Definition isStringArray (v : json) : bool :=
  match v with
  | JArray items => forallb isString items
  | _ => false
  end.

Definition optString (v : option json) : bool :=
  match v with
  | Some x => isString x
  | None => true
  end.

Definition isRelatedFile (v : json) : bool :=
  match v with
  | JObject members =>
      match lookupMember members "path", lookupMember members "relevance" with
      | Some p, Some r => isString p && isString r
      | _, _ => false
      end
  | _ => false
  end.

Definition Typed (c : CodebaseContext) : bool :=
  isString (ri_language (cc_repository c)) &&
  optString (ri_framework (cc_repository c)) &&
  optString (ri_architecture (cc_repository c)) &&
  isStringArray (fs_mainFiles (cc_fileStructure c)) &&
  isStringArray (cp_patterns (cc_codePatterns c)) &&
  match cc_relatedFiles c with
  | JArray items => forallb isRelatedFile items
  | _ => false
  end.

(** No context is given, or the one given is typed. *)
Definition TypedOrAbsent (codebaseContext : option CodebaseContext) : Prop :=
  match codebaseContext with
  | Some c => Typed c = true
  | None => True
  end.

End AISpec.

(* ===================================================================== *)
(** ** Sample inputs *)
(* ===================================================================== *)

Module Samples.
Import Analyzer.

Definition file (name : string) (adds dels : Z) : GitHubFile :=
  {| filename := name; status := modified; additions := adds;
     deletions := dels; patch := None |}.

Definition commitOf (h msg : string) (fs : option (list GitHubFile)) : GitHubCommit :=
  {| sha := h; message := msg; author_name := "octocat";
     author_date := "2024-01-01T00:00:00Z"; files := fs |}.

Definition fixTypo : GitHubCommit :=
  commitOf "a1" "Fix typo" (Some [file "README.md" 1 1]).

Definition darkMode : GitHubCommit :=
  commitOf "a2" "Add dark mode toggle"
    (Some [file "src/theme.ts" 20 0; file "src/App.tsx" 10 2; file "src/toggle.css" 8 0]).

Definition pagination : GitHubCommit :=
  commitOf "a3" "Fix off-by-one in pagination"
    (Some [file "src/pager.ts" 5 3; file "src/pager.test.ts" 4 0]).

Definition configOnly : GitHubCommit :=
  commitOf "a4" "Add feature"
    (Some [file ".github/workflows/ci.yml" 12 3; file "package-lock.json" 40 10]).

Definition noFiles : GitHubCommit :=
  commitOf "a5" "Add streaming parser and implement retries" None.

Definition bulk : GitHubCommit :=
  commitOf "a6" "Add generated client"
    (Some (repeat (file "gen/api.ts" 0 0) 16)).

Definition paginationSwapped : GitHubCommit :=
  commitOf "a3" "Fix off-by-one in pagination"
    (Some [file "src/pager.test.ts" 4 0; file "src/pager.ts" 5 3]).

Definition versionBump : GitHubCommit :=
  commitOf "a7" "chore: bump version to 2.3.1" (Some [file "src/version.ts" 10 10]).

Definition sampleUrl : string := "https://github.com/octocat/Hello-World".

Definition sampleInfo : Storage.GitHubRepository :=
  {| Storage.full_name := "octocat/Hello-World"; Storage.default_branch := "main" |}.

(** Two candidates, both worthy and both with file data. *)
Definition sampleBatch : list GitHubCommit := [darkMode; pagination].

Definition sampleEnv (listing : outcome (list GitHubCommit))
    (statusFault : Storage.StatusKind -> option Thrown)
    (rowFault diffFault : nat -> option Thrown) : Storage.Env :=
  {| Storage.now := "2024-01-02T03:04:05Z";
     Storage.gh_repository := fun _ _ => Ok sampleInfo;
     Storage.gh_commits := fun _ _ _ _ => listing;
     Storage.fault_createRepository := None;
     Storage.fault_setAnalysisStatus := statusFault;
     Storage.fault_createCommit := rowFault;
     Storage.fault_storeCommitDiff := diffFault |}.

(** Every write goes through. *)
Definition quietEnv : Storage.Env :=
  sampleEnv (Ok sampleBatch) (fun _ => None) (fun _ => None) (fun _ => None).

(** The insert of the second commit row fails. *)
Definition rowFaultEnv : Storage.Env :=
  sampleEnv (Ok sampleBatch) (fun _ => None)
    (fun i => if Nat.eqb i 1 then Some (JsError "D1_ERROR: insert failed") else None)
    (fun _ => None).

(** The write of the first commit's diff fails. *)
Definition diffFaultEnv : Storage.Env :=
  sampleEnv (Ok sampleBatch) (fun _ => None) (fun _ => None)
    (fun i => if Nat.eqb i 0 then Some (JsError "R2 put failed") else None).

(** GitHub fails to list the commits, and the status entry cannot be
    rewritten after its first write. *)
Definition staleEnv : Storage.Env :=
  sampleEnv (Err (JsError "GitHub API error (502): Bad Gateway"))
    (fun k => match k with
              | Storage.error => Some (JsError "KV put failed")
              | _ => None
              end)
    (fun _ => None) (fun _ => None).

(** GitHub fails to list the commits; the status entry can be written. *)
Definition listingFailsEnv : Storage.Env :=
  sampleEnv (Err (JsError "GitHub API error (502): Bad Gateway"))
    (fun _ => None) (fun _ => None) (fun _ => None).

(** A store that holds the sample repository. *)
Definition ingestedWorld : Storage.World :=
  {| Storage.repositories :=
       [{| Storage.repo_id := "octocat/Hello-World"; Storage.github_url := sampleUrl;
           Storage.repo_name := "octocat/Hello-World";
           Storage.repo_created_at := "2024-01-02T03:04:05Z" |}];
     Storage.commits := []; Storage.kv := ∅; Storage.r2 := ∅ |}.

Definition sampleStep (n : string) : Tutorial.TutorialStep :=
  {| Tutorial.step_id := n; Tutorial.step_title := "Step " +:+ n;
     Tutorial.step_description := "What to do"; Tutorial.step_instructions := "How" |}.

(** A tutorial of three steps and a session on it that was completed, by the
    complete action, while still on its first step. *)
Definition completedEarly : Tutorial.Stores :=
  {| Tutorial.tutorials :=
       {[ "t1" := {| Tutorial.tutorial_id := "t1";
                     Tutorial.tutorial_commit_id := "octocat/Hello-World:a2";
                     Tutorial.tutorial_title := "Implement: Add dark mode toggle";
                     Tutorial.tutorial_description := "Learn the change";
                     Tutorial.tutorial_created_at := "2024-01-02T03:04:05Z" |} ]};
     Tutorial.contents :=
       {[ "t1" := {| Tutorial.content_tutorial_id := "t1";
                     Tutorial.steps := [sampleStep "1"; sampleStep "2"; sampleStep "3"];
                     Tutorial.fileTree := None; Tutorial.parentSha := Some "a1" |} ]};
     Tutorial.sessions :=
       {[ "s1" := {| Tutorial.session_id := "s1"; Tutorial.session_tutorial_id := "t1";
                     Tutorial.current_step := 0;
                     Tutorial.started_at := "2024-01-03T00:00:00Z";
                     Tutorial.completed_at := Some "2024-01-03T00:05:00Z" |} ]} |}.

(** The same stores before any session is started. *)
Definition noSessions : Tutorial.Stores :=
  Tutorial.withSessions completedEarly ∅.

End Samples.

(* ===================================================================== *)
(** ** Sample stores for a refresh *)
(* ===================================================================== *)

Module RefreshSamples.
Import Analyzer Storage Samples.

(** The sample repository with the row of one of its commits. *)
Definition oneCommitStored : World :=
  {| repositories := repositories ingestedWorld;
     commits := [IngestSpec.commitRow quietEnv "octocat/Hello-World" darkMode];
     kv := ∅; r2 := ∅ |}.

(** The rows in the order of the table, last row first. *)
Definition newestFirst (rows : list Commit) : list Commit := rev rows.

End RefreshSamples.

(* ===================================================================== *)
(** ** Sample calls of the model *)
(* ===================================================================== *)

Module IngestSamples.
Import Analyzer Storage Samples.

(** GitHub answers, and the insert of the repository row is rejected: its
    identifier is taken. *)
Definition keyTakenEnv : Env :=
  {| now := "2024-01-02T03:04:05Z";
     gh_repository := fun _ _ => Ok sampleInfo;
     gh_commits := fun _ _ _ _ => Ok sampleBatch;
     fault_createRepository :=
       Some (JsError "D1_ERROR: UNIQUE constraint failed: repositories.id");
     fault_setAnalysisStatus := fun _ => None;
     fault_createCommit := fun _ => None;
     fault_storeCommitDiff := fun _ => None |}.

(** The insert of the first commit row of a batch is rejected. *)
Definition firstInsertFails : Env :=
  sampleEnv (Ok sampleBatch) (fun _ => None)
    (fun i => if Nat.eqb i 0 then Some (JsError "D1_ERROR: insert failed") else None)
    (fun _ => None).

End IngestSamples.

Module AISamples.
Import AI Samples.

Definition sampleCommitRow : Storage.Commit :=
  IngestSpec.commitRow quietEnv "octocat/Hello-World" darkMode.

Definition sampleRepositoryRow : Storage.Repository :=
  IngestSpec.rowFor quietEnv sampleUrl sampleInfo.

(** The binding is down. *)
Definition outage : Prompt -> AiReply :=
  fun _ => AiThrows (JsError "AI binding unavailable").

(** The model answers with the empty object, in a sentence. *)
Definition emptyObject : Prompt -> AiReply :=
  fun _ => AiObject (Some "Here you go: {}").

(** A reply to the analysis of the codebase: an object whose [relatedFiles]
    is the number 1. *)
Definition looseReply : string :=
  "{" +:+ String "034" "relatedFiles" +:+ String "034" ":1}".

(** The context that [parseCodebaseContext] makes of it. *)
Definition looseContext : CodebaseContext :=
  parseCodebaseContext parseJson looseReply.

End AISamples.

(* ===================================================================== *)
(** * Properties *)
(* ===================================================================== *)

(** ** The classifier *)

Module AnalyzerFacts.
Import JsString Analyzer ClassifierSpec Samples.

(** Closes [passesGates c] for a concrete commit [c]. *)
Ltac solve_gates :=
  unfold passesGates; cbv; repeat split; try lia; try discriminate.

Lemma existsb_includes_3 msg a b c :
  mentions msg [a; b; c] = includes msg a || includes msg b || includes msg c.
Proof. unfold mentions. simpl. rewrite orb_false_r, orb_assoc. reflexivity. Qed.

Lemma existsb_includes_2 msg a b :
  mentions msg [a; b] = includes msg a || includes msg b.
Proof. unfold mentions. simpl. rewrite orb_false_r. reflexivity. Qed.

Lemma existsb_includes_1 msg a : mentions msg [a] = includes msg a.
Proof. unfold mentions. simpl. apply orb_false_r. Qed.

(** [categorizeCommit] is the keyword scan of the specification. *)
Lemma categorizeCommit_spec msg fs : categorizeCommit msg fs = spec_category msg fs.
Proof.
  unfold categorizeCommit, spec_category.
  rewrite !existsb_includes_3, existsb_includes_2, existsb_includes_1.
  reflexivity.
Qed.

Lemma judgeCategory_worthy a n :
  isLearningWorthy a = false ->
  isLearningWorthy (judgeCategory a n) = spec_worthy (category a) (linesChanged a) n.
Proof.
  intros Hw. unfold judgeCategory, spec_worthy.
  destruct (category a); simpl; try reflexivity; try assumption.
  - destruct ((10 <=? linesChanged a) && (n <=? 5)%nat); simpl; auto.
  - destruct ((n <=? 8)%nat && (linesChanged a <=? 200)); simpl; auto.
Qed.

Lemma judgeCategory_category a n : category (judgeCategory a n) = category a.
Proof.
  unfold judgeCategory.
  destruct (category a) eqn:E; simpl; try assumption;
    repeat match goal with |- context [if ?b then _ else _] => destruct b end;
    simpl; assumption.
Qed.

Lemma judgeCategory_lines a n : linesChanged (judgeCategory a n) = linesChanged a.
Proof.
  unfold judgeCategory.
  destruct (category a); simpl; try reflexivity;
    repeat match goal with |- context [if ?b then _ else _] => destruct b end;
    reflexivity.
Qed.

Lemma applyOverrides_worthy msg fs a :
  isLearningWorthy (applyOverrides msg fs a) =
  isLearningWorthy a && negb (hasOnlyConfigFiles fs) && negb (isVersionBump msg).
Proof.
  unfold applyOverrides.
  destruct (hasOnlyConfigFiles fs), (isVersionBump msg); simpl;
    rewrite ?andb_true_r, ?andb_false_r; reflexivity.
Qed.

Lemma applyOverrides_category msg fs a :
  category (applyOverrides msg fs a) = category a.
Proof.
  unfold applyOverrides.
  destruct (hasOnlyConfigFiles fs), (isVersionBump msg); reflexivity.
Qed.

(** Past the gates, [analyzeCommit] is categorisation, the switch and the
    overrides. *)
Lemma analyzeCommit_past_gates commit :
  passesGates commit ->
  analyzeCommit commit =
  applyOverrides (toLowerCase (message commit)) (filesOf commit)
    (judgeCategory
       (with_category (initialAnalysis commit)
          (categorizeCommit (toLowerCase (message commit)) (filesOf commit)))
       (List.length (filesOf commit))).
Proof.
  intros [Hn [Hlo Hhi]]. unfold analyzeCommit.
  destruct (Nat.ltb_spec 15 (List.length (filesOf commit))) as [H|_]; [lia|].
  change (linesChanged (initialAnalysis commit))
    with (getTotalLinesChanged (filesOf commit)).
  destruct (Z.ltb_spec (getTotalLinesChanged (filesOf commit)) 5) as [H|_]; [lia|].
  destruct (Z.ltb_spec 500 (getTotalLinesChanged (filesOf commit))) as [H|_]; [lia|].
  reflexivity.
Qed.

(** C4.  The size gates and their order: more than 15 files is a bulk
    operation whatever the line count; otherwise fewer than 5 changed lines is
    too small, and otherwise more than 500 is taken as generated.  In each
    case [analyzeCommit] returns the initial analysis with only the reason set:
    not worthy, and the category still the initial [other], the message never
    read.  Fix typo with one file and two changed lines is too small. *)
Theorem size_gates_short_circuit (commit : GitHubCommit) :
  ((15 < List.length (filesOf commit))%nat ->
     analyzeCommit commit =
     with_reason (initialAnalysis commit) "Too many files changed (bulk operation)") /\
  ((List.length (filesOf commit) <= 15)%nat ->
   getTotalLinesChanged (filesOf commit) < 5 ->
     analyzeCommit commit = with_reason (initialAnalysis commit) "Very small change") /\
  ((List.length (filesOf commit) <= 15)%nat ->
   500 < getTotalLinesChanged (filesOf commit) ->
     analyzeCommit commit =
     with_reason (initialAnalysis commit)
       "Too many lines changed (likely auto-generated)") /\
  isLearningWorthy (initialAnalysis commit) = false /\
  category (initialAnalysis commit) = CatOther /\
  (forall h author date name st adds dels p,
     adds + dels = 2 ->
     let c := {| sha := h; message := "Fix typo"; author_name := author;
                 author_date := date;
                 files := Some [{| filename := name; status := st; additions := adds;
                                   deletions := dels; patch := p |}] |} in
     isLearningWorthy (analyzeCommit c) = false /\
     reason (analyzeCommit c) = "Very small change" /\
     category (analyzeCommit c) = CatOther).
Proof.
  repeat split.
  - intros H. unfold analyzeCommit.
    destruct (Nat.ltb_spec 15 (List.length (filesOf commit))); [reflexivity|lia].
  - intros Hn Hl. unfold analyzeCommit.
    destruct (Nat.ltb_spec 15 (List.length (filesOf commit))); [lia|].
    change (linesChanged (initialAnalysis commit))
      with (getTotalLinesChanged (filesOf commit)).
    destruct (Z.ltb_spec (getTotalLinesChanged (filesOf commit)) 5); [reflexivity|lia].
  - intros Hn Hl. unfold analyzeCommit.
    destruct (Nat.ltb_spec 15 (List.length (filesOf commit))); [lia|].
    change (linesChanged (initialAnalysis commit))
      with (getTotalLinesChanged (filesOf commit)).
    destruct (Z.ltb_spec (getTotalLinesChanged (filesOf commit)) 5); [lia|].
    destruct (Z.ltb_spec 500 (getTotalLinesChanged (filesOf commit))); [reflexivity|lia].
  - unfold analyzeCommit, initialAnalysis, filesOf, getTotalLinesChanged; simpl.
    replace (0 + adds + dels) with 2 by lia. reflexivity.
  - unfold analyzeCommit, initialAnalysis, filesOf, getTotalLinesChanged; simpl.
    replace (0 + adds + dels) with 2 by lia. reflexivity.
  - unfold analyzeCommit, initialAnalysis, filesOf, getTotalLinesChanged; simpl.
    replace (0 + adds + dels) with 2 by lia. reflexivity.
Qed.

(** The gates at work: sixteen files stop at the first gate although no line
    changed, and Fix typo stops at the second. *)
Lemma size_gates_short_circuit_witness :
  reason (analyzeCommit bulk) = "Too many files changed (bulk operation)" /\
  reason (analyzeCommit fixTypo) = "Very small change" /\
  isLearningWorthy (analyzeCommit fixTypo) = false.
Proof.
  destruct (size_gates_short_circuit bulk) as [Hbulk _].
  destruct (size_gates_short_circuit fixTypo) as (_ & Hsmall & _).
  split; [| split].
  - rewrite Hbulk; [reflexivity | vm_compute; lia].
  - rewrite Hsmall; [reflexivity | vm_compute; lia | vm_compute; reflexivity].
  - rewrite Hsmall; [reflexivity | vm_compute; lia | vm_compute; reflexivity].
Defined.

(** C5.  The decision table.  For a commit that passes the size gates the
    category is the keyword scan of the lowercased message in the order
    feature, fix, refactor, test (keyword or more than 70% test paths), docs
    (keyword or more than 70% doc files), other; and the commit is worthy
    exactly when its category says so (feature and test always, fix from 10
    lines on with at most 5 files, refactor with at most 8 files and 200
    lines, docs and other never) and neither override applies. *)
Theorem decision_table (commit : GitHubCommit) :
  passesGates commit ->
  let msg := toLowerCase (message commit) in
  let fs := filesOf commit in
  let a := analyzeCommit commit in
  category a = spec_category msg fs /\
  linesChanged a = getTotalLinesChanged fs /\
  isLearningWorthy a =
    spec_worthy (category a) (getTotalLinesChanged fs) (List.length fs)
    && negb (hasOnlyConfigFiles fs) && negb (isVersionBump msg).
Proof.
  intros Hg msg fs a. subst a.
  rewrite (analyzeCommit_past_gates commit Hg). fold msg fs.
  rewrite applyOverrides_category, judgeCategory_category.
  split; [apply categorizeCommit_spec|].
  split.
  - unfold applyOverrides.
    destruct (hasOnlyConfigFiles fs), (isVersionBump msg); simpl;
      rewrite judgeCategory_lines; reflexivity.
  - rewrite applyOverrides_worthy, judgeCategory_worthy by reflexivity.
    reflexivity.
Qed.

(** The first two concrete cases of the specification: a feature with 3 files
    and 40 lines, and a fix with 2 files and 12 lines, are both worthy. *)
Lemma decision_table_witness :
  (category (analyzeCommit darkMode) = CatFeature /\
   isLearningWorthy (analyzeCommit darkMode) = true) /\
  (category (analyzeCommit pagination) = CatFix /\
   isLearningWorthy (analyzeCommit pagination) = true).
Proof.
  assert (Gd : passesGates darkMode) by solve_gates.
  assert (Gp : passesGates pagination) by solve_gates.
  destruct (decision_table darkMode Gd) as (Hc & _ & Hw).
  destruct (decision_table pagination Gp) as (Hc' & _ & Hw').
  split; split.
  - rewrite Hc. reflexivity.
  - rewrite Hw, Hc. reflexivity.
  - rewrite Hc'. reflexivity.
  - rewrite Hw', Hc'. reflexivity.
Defined.

(** A file is a configuration file exactly when its extension is one of the
    six or its lowercased name contains one of the five base names. *)
Lemma isConfigFile_iff (f : GitHubFile) :
  isConfigFile f = true <-> spec_configFile f.
Proof.
  unfold isConfigFile, arrayIncludes, spec_configFile. rewrite orb_true_iff, !existsb_exists.
  split.
  - intros [(x & Hin & Heq) | (x & Hin & Hinc)].
    + left. apply String.eqb_eq in Heq. subst x. exact Hin.
    + right. exists x. split; assumption.
  - intros [Hin | (x & Hin & Hinc)].
    + left. exists (orEmpty (extension f)). split; [exact Hin | apply String.eqb_refl].
    + right. exists x. split; assumption.
Qed.

(** C6.  The config-only override.  When every file of a commit that passes
    the size gates is a configuration file, the commit is not worthy, with
    the reason of an override, whatever category its message gave it. *)
Theorem config_only_override (commit : GitHubCommit) :
  passesGates commit ->
  Forall spec_configFile (filesOf commit) ->
  let a := analyzeCommit commit in
  isLearningWorthy a = false /\
  category a = categorizeCommit (toLowerCase (message commit)) (filesOf commit) /\
  (reason a = "Only configuration changes" \/ reason a = "Version bump").
Proof.
  intros Hg Hall a. subst a.
  assert (Hcfg : hasOnlyConfigFiles (filesOf commit) = true).
  { unfold hasOnlyConfigFiles. apply forallb_forall. intros x Hx.
    rewrite Forall_forall in Hall. apply isConfigFile_iff, Hall, list_elem_of_In, Hx. }
  rewrite (analyzeCommit_past_gates commit Hg).
  rewrite applyOverrides_worthy, applyOverrides_category, judgeCategory_category, Hcfg.
  split; [rewrite andb_false_r; reflexivity|].
  split; [reflexivity|].
  unfold applyOverrides. rewrite Hcfg.
  destruct (isVersionBump (toLowerCase (message commit))); simpl; auto.
Qed.

(** A workflow file and a lock file under the message Add feature: the
    category is feature and the commit is not worthy. *)
Lemma config_only_override_witness :
  isLearningWorthy (analyzeCommit configOnly) = false /\
  category (analyzeCommit configOnly) = CatFeature /\
  reason (analyzeCommit configOnly) = "Only configuration changes".
Proof.
  assert (G : passesGates configOnly) by solve_gates.
  assert (F : Forall spec_configFile (filesOf configOnly))
    by (repeat constructor; apply isConfigFile_iff; reflexivity).
  destruct (config_only_override configOnly G F) as (Hw & Hc & _).
  split; [exact Hw | split; [rewrite Hc; reflexivity | reflexivity]].
Defined.

(** A commit touching only a [.yml] file and [package-lock.json] is never
    worthy, whatever its message and its line counts. *)
Lemma yml_and_lockfile_never_worthy h msg author date n1 n2 s1 s2 a1 d1 a2 d2 p1 p2 :
  extension {| filename := n1; status := s1; additions := a1; deletions := d1;
               patch := p1 |} = Some "yml" ->
  n2 = "package-lock.json" ->
  isLearningWorthy
    (analyzeCommit
       {| sha := h; message := msg; author_name := author; author_date := date;
          files := Some [ {| filename := n1; status := s1; additions := a1;
                             deletions := d1; patch := p1 |};
                          {| filename := n2; status := s2; additions := a2;
                             deletions := d2; patch := p2 |} ] |}) = false.
Proof.
  intros Hext ->.
  set (f1 := {| filename := n1 |}) in *. set (f2 := {| filename := "package-lock.json" |}).
  set (c := {| sha := h |}).
  assert (Hcfg : hasOnlyConfigFiles (filesOf c) = true).
  { unfold c, filesOf, hasOnlyConfigFiles. simpl.
    assert (isConfigFile f1 = true) as ->.
    { unfold isConfigFile. rewrite Hext. reflexivity. }
    reflexivity. }
  unfold analyzeCommit.
  destruct (15 <? List.length (filesOf c))%nat; [reflexivity|].
  destruct (linesChanged (initialAnalysis c) <? 5); [reflexivity|].
  destruct (500 <? linesChanged (initialAnalysis c)); [reflexivity|].
  rewrite applyOverrides_worthy, Hcfg, andb_false_r. reflexivity.
Qed.

(** C10.  With no file list, or an empty one, [analyzeCommit] stops at the
    second gate: zero changed lines, reason Very small change, not worthy,
    whatever the message says; the overrides are not reached, although an
    empty list has only configuration files. *)
Theorem empty_files_never_worthy (commit : GitHubCommit) :
  files commit = None \/ files commit = Some [] ->
  let a := analyzeCommit commit in
  a = with_reason (initialAnalysis commit) "Very small change" /\
  isLearningWorthy a = false /\
  linesChanged a = 0 /\
  reason a = "Very small change" /\
  category a = CatOther /\
  hasOnlyConfigFiles (filesOf commit) = true.
Proof.
  intros H a.
  assert (Hfs : filesOf commit = []).
  { unfold filesOf. destruct H as [-> | ->]; reflexivity. }
  assert (Ha : a = with_reason (initialAnalysis commit) "Very small change").
  { subst a. unfold analyzeCommit, initialAnalysis. rewrite Hfs. reflexivity. }
  rewrite Ha. unfold initialAnalysis. rewrite Hfs. repeat split.
Qed.

(** A commit listed without file data, under a message full of feature
    keywords. *)
Lemma empty_files_never_worthy_witness :
  isLearningWorthy (analyzeCommit noFiles) = false /\
  reason (analyzeCommit noFiles) = "Very small change".
Proof.
  destruct (empty_files_never_worthy noFiles (or_introl eq_refl)) as (_ & Hw & _ & Hr & _).
  split; [exact Hw | exact Hr].
Defined.

End AnalyzerFacts.

(** ** The repository locator *)

Module ClientFacts.
Import JsString Client LocatorSpec.

Lemma append_cons c s t : String c s +:+ t = String c (s +:+ t).
Proof. reflexivity. Qed.

Lemma append_empty_l s : EmptyString +:+ s = s.
Proof. reflexivity. Qed.

Lemma append_empty_r s : s +:+ EmptyString = s.
Proof. induction s as [|c s IH]; [reflexivity|]. rewrite append_cons, IH. reflexivity. Qed.

Lemma stripLiteral_app p s : stripLiteral p (p +:+ s) = Some s.
Proof.
  induction p as [|a p IH]; [reflexivity|].
  rewrite append_cons. simpl. rewrite Ascii.eqb_refl. exact IH.
Qed.

Lemma stripLiteral_Some p : forall s r, stripLiteral p s = Some r -> s = p +:+ r.
Proof.
  induction p as [|a p IH]; intros s r H; simpl in H.
  - rewrite append_empty_l. congruence.
  - destruct s as [|b s]; [discriminate|].
    destruct (Ascii.eqb a b) eqn:E; [|discriminate].
    apply Ascii.eqb_eq in E. subst b. rewrite append_cons. f_equal. apply IH. exact H.
Qed.

Lemma span_all ok s : allChars ok s = true -> span ok s = (s, EmptyString).
Proof.
  induction s as [|c t IH]; simpl; [reflexivity|].
  intros H. apply andb_true_iff in H as [Hc Ht].
  rewrite Hc, (IH Ht). reflexivity.
Qed.

Lemma span_stop ok s c t :
  allChars ok s = true -> ok c = false ->
  span ok (s +:+ String c t) = (s, String c t).
Proof.
  intros Hs Hc. induction s as [|d s IH].
  - rewrite append_empty_l. simpl. rewrite Hc. reflexivity.
  - simpl in Hs. apply andb_true_iff in Hs as [Hd Hs].
    rewrite append_cons. simpl. rewrite Hd, (IH Hs). reflexivity.
Qed.

Lemma span_inv ok : forall s a b,
  span ok s = (a, b) ->
  s = a +:+ b /\ allChars ok a = true.
Proof.
  induction s as [|c t IH]; intros a b H; simpl in H.
  - inversion H; subst. split; reflexivity.
  - destruct (ok c) eqn:E.
    + destruct (span ok t) as [a' b'] eqn:Et. inversion H; subst.
      destruct (IH a' b eq_refl) as [-> Ha].
      rewrite append_cons. simpl. rewrite E, Ha. split; reflexivity.
    + inversion H; subst. split; reflexivity.
Qed.

Lemma eqb_empty_false s : s <> EmptyString -> String.eqb s "" = false.
Proof. intros H. destruct s; [congruence | reflexivity]. Qed.

(** The tail of the patterns on [owner/name] and [owner/name.git]. *)
Lemma matchOwnerRepo_accepts o n sfx :
  validOwner o -> validName n -> In sfx acceptedSuffixes ->
  matchOwnerRepo (o +:+ "/" +:+ n +:+ sfx) = Some (o, n).
Proof.
  intros [Ho1 Ho2] [Hn1 Hn2] Hs. unfold matchOwnerRepo.
  change (o +:+ "/" +:+ n +:+ sfx) with (o +:+ String "/" (n +:+ sfx)).
  rewrite (span_stop notSlash o "/" (n +:+ sfx) Ho2 eq_refl).
  rewrite (eqb_empty_false o Ho1).
  destruct Hs as [<- | [<- | []]].
  - rewrite append_empty_r.
    rewrite (span_all _ n Hn2), (eqb_empty_false n Hn1). reflexivity.
  - change (n +:+ ".git") with (n +:+ String "." "git").
    rewrite (span_stop notSlashNorDot n "." "git" Hn2 eq_refl).
    rewrite (eqb_empty_false n Hn1). reflexivity.
Qed.

Lemma matchOwnerRepo_inv s o n :
  matchOwnerRepo s = Some (o, n) ->
  validOwner o /\ validName n /\
  exists sfx, In sfx acceptedSuffixes /\ s = o +:+ "/" +:+ n +:+ sfx.
Proof.
  unfold matchOwnerRepo. intros H.
  destruct (span notSlash s) as [g1 r1] eqn:E1.
  destruct (String.eqb g1 "") eqn:Eg1; [discriminate|].
  destruct r1 as [|c r2]; [discriminate|].
  destruct (Ascii.eqb_spec c "/") as [->|Hc].
  2:{ destruct c as [[] [] [] [] [] [] [] []]; try discriminate. congruence. }
  simpl in H.
  destruct (span notSlashNorDot r2) as [g2 r3] eqn:E2.
  destruct (String.eqb g2 "") eqn:Eg2; [discriminate|].
  destruct (String.eqb r3 "" || String.eqb r3 ".git") eqn:Er; [|discriminate].
  inversion H; subst g1 g2. clear H.
  apply span_inv in E1 as [-> Ho]. apply span_inv in E2 as [-> Hn].
  apply String.eqb_neq in Eg1, Eg2.
  split; [split; assumption|]. split; [split; assumption|].
  apply orb_true_iff in Er as [Er | Er]; apply String.eqb_eq in Er; subst r3.
  - exists EmptyString. split; [left; reflexivity | reflexivity].
  - exists ".git". split; [right; left; reflexivity | reflexivity].
Qed.

Lemma matchAfter_inv lit url o n :
  matchAfter lit url = Some (o, n) ->
  validOwner o /\ validName n /\
  exists sfx, In sfx acceptedSuffixes /\ url = lit +:+ o +:+ "/" +:+ n +:+ sfx.
Proof.
  unfold matchAfter. intros H.
  destruct (stripLiteral lit url) as [rest|] eqn:E; [|discriminate].
  apply stripLiteral_Some in E. subst url.
  destruct (matchOwnerRepo_inv _ _ _ H) as (Ho & Hn & sfx & Hs & ->).
  split; [exact Ho|]. split; [exact Hn|]. exists sfx. split; [exact Hs | reflexivity].
Qed.

Lemma firstMatch_accepts pre o n sfx :
  In pre acceptedPrefixes -> validOwner o -> validName n -> In sfx acceptedSuffixes ->
  firstMatch patterns (pre +:+ o +:+ "/" +:+ n +:+ sfx) = Some (o, n).
Proof.
  intros Hp Ho Hn Hs.
  pose proof (matchOwnerRepo_accepts o n sfx Ho Hn Hs) as Hm.
  destruct Hp as [<- | [<- | [<- | [<- | []]]]]; unfold patterns, firstMatch.
  - unfold pattern_https, matchAfter. rewrite stripLiteral_app, Hm. reflexivity.
  - unfold pattern_https, matchAfter.
    change (stripLiteral "https://github.com/" ("http://github.com/" +:+ o +:+ "/" +:+ n +:+ sfx))
      with (@None string).
    rewrite stripLiteral_app, Hm. reflexivity.
  - unfold pattern_https, pattern_ssh, matchAfter.
    change (stripLiteral "https://github.com/" ("git@github.com:" +:+ o +:+ "/" +:+ n +:+ sfx))
      with (@None string).
    change (stripLiteral "http://github.com/" ("git@github.com:" +:+ o +:+ "/" +:+ n +:+ sfx))
      with (@None string).
    rewrite stripLiteral_app, Hm. reflexivity.
  - unfold pattern_https, pattern_ssh, pattern_bare, matchAfter.
    change (stripLiteral "https://github.com/" ("github.com/" +:+ o +:+ "/" +:+ n +:+ sfx))
      with (@None string).
    change (stripLiteral "http://github.com/" ("github.com/" +:+ o +:+ "/" +:+ n +:+ sfx))
      with (@None string).
    change (stripLiteral "git@github.com:" ("github.com/" +:+ o +:+ "/" +:+ n +:+ sfx))
      with (@None string).
    rewrite stripLiteral_app, Hm. reflexivity.
Qed.

Lemma firstMatch_inv url o n :
  firstMatch patterns url = Some (o, n) ->
  validOwner o /\ validName n /\
  exists pre sfx, In pre acceptedPrefixes /\ In sfx acceptedSuffixes /\
    url = pre +:+ o +:+ "/" +:+ n +:+ sfx.
Proof.
  unfold patterns, firstMatch, pattern_https, pattern_ssh, pattern_bare. intros H.
  destruct (matchAfter "https://github.com/" url) as [[o1 n1]|] eqn:E1.
  { inversion H; subst. destruct (matchAfter_inv _ _ _ _ E1) as (Ho & Hn & sfx & Hs & ->).
    repeat split; try apply Ho; try apply Hn.
    exists "https://github.com/", sfx. unfold acceptedPrefixes. simpl. auto. }
  destruct (matchAfter "http://github.com/" url) as [[o2 n2]|] eqn:E2.
  { inversion H; subst. destruct (matchAfter_inv _ _ _ _ E2) as (Ho & Hn & sfx & Hs & ->).
    repeat split; try apply Ho; try apply Hn.
    exists "http://github.com/", sfx. unfold acceptedPrefixes. simpl. auto. }
  destruct (matchAfter "git@github.com:" url) as [[o3 n3]|] eqn:E3.
  { inversion H; subst. destruct (matchAfter_inv _ _ _ _ E3) as (Ho & Hn & sfx & Hs & ->).
    repeat split; try apply Ho; try apply Hn.
    exists "git@github.com:", sfx. unfold acceptedPrefixes. simpl. auto. }
  destruct (matchAfter "github.com/" url) as [[o4 n4]|] eqn:E4; [|discriminate].
  inversion H; subst. destruct (matchAfter_inv _ _ _ _ E4) as (Ho & Hn & sfx & Hs & ->).
  repeat split; try apply Ho; try apply Hn.
  exists "github.com/", sfx. unfold acceptedPrefixes. simpl. auto 6.
Qed.

(** C9, as the code has it.  The locator accepts exactly the GitHub shapes:
    [https://github.com/], [http://github.com/], [git@github.com:] or
    [github.com/], then an owner without slash, a slash, a name without slash
    or dot, and an optional [.git], which is not part of the name returned.
    Every other input gives the one invalid result, with its error message;
    the function is total, so nothing is thrown. *)
Theorem parse_github_shapes :
  (forall pre o n sfx,
     In pre acceptedPrefixes -> validOwner o -> validName n ->
     In sfx acceptedSuffixes ->
     parseRepositoryUrl (pre +:+ o +:+ "/" +:+ n +:+ sfx) =
     {| owner := o; repo := n; isValid := true; error := None |}) /\
  (forall url,
     isValid (parseRepositoryUrl url) = true ->
     validOwner (owner (parseRepositoryUrl url)) /\
     validName (repo (parseRepositoryUrl url)) /\
     exists pre sfx,
       In pre acceptedPrefixes /\ In sfx acceptedSuffixes /\
       url = pre +:+ owner (parseRepositoryUrl url) +:+ "/"
             +:+ repo (parseRepositoryUrl url) +:+ sfx) /\
  (forall url,
     isValid (parseRepositoryUrl url) = false ->
     parseRepositoryUrl url = invalidFormat).
Proof.
  split; [|split].
  - intros pre o n sfx Hp Ho Hn Hs. unfold parseRepositoryUrl.
    rewrite (firstMatch_accepts pre o n sfx Hp Ho Hn Hs). reflexivity.
  - intros url. unfold parseRepositoryUrl.
    destruct (firstMatch patterns url) as [[o n]|] eqn:E; simpl; [|discriminate].
    intros _. apply firstMatch_inv. exact E.
  - intros url. unfold parseRepositoryUrl.
    destruct (firstMatch patterns url) as [[o n]|]; simpl; [discriminate|reflexivity].
Qed.

(** The SSH shape with the suffix: the name comes back without [.git]. *)
Lemma parse_github_shapes_witness :
  parseRepositoryUrl "git@github.com:octocat/Hello-World.git" =
  {| owner := "octocat"; repo := "Hello-World"; isValid := true; error := None |}.
Proof.
  destruct parse_github_shapes as [Hacc _].
  apply (Hacc "git@github.com:" "octocat" "Hello-World" ".git").
  - unfold acceptedPrefixes. simpl. auto.
  - split; [discriminate | reflexivity].
  - split; [discriminate | reflexivity].
  - unfold acceptedSuffixes. simpl. auto.
Defined.

(** C9, as the specification states it, fails: with a host other than
    [github.com] each of the three shapes is refused. *)
Lemma parse_other_host_refused :
  isValid (parseRepositoryUrl "https://gitlab.com/owner/name") = false /\
  isValid (parseRepositoryUrl "gitlab.com/owner/name.git") = false /\
  isValid (parseRepositoryUrl "git@gitlab.com:owner/name.git") = false.
Proof. repeat split. Qed.

(** A name with a dot in it is refused as well, on [github.com] too. *)
Lemma parse_dotted_name_refused :
  parseRepositoryUrl "https://github.com/vercel/next.js" = invalidFormat.
Proof. reflexivity. Qed.

End ClientFacts.

(** ** Ingestion *)

Module IngestFacts.
Import JsString Analyzer Client Storage Ingest IngestSpec Samples.

Lemma bind_ok {St A B} (c : M St A) (k : A -> M St B) s s' a :
  c s = (s', Ok a) -> (c ≫= k) s = k a s'.
Proof. intros H. unfold mbind, M_bind. rewrite H. reflexivity. Qed.

(** One pass of the loop body never throws. *)
Lemma storeOne_advances env repoId i c s :
  exists s',
    storeOne env repoId i c (analyzeCommit c) s = (s', Ok tt) /\
    Advances s s'
      (if rowWriteFails env i then [] else [commitRow env repoId c])
      (match failureOf env i c with
       | Some e => [failureMessage c e]
       | None => []
       end).
Proof.
  unfold storeOne, tryCatch, mbind, M_bind, onWorld, createCommit, storeCommitDiff,
    pushCommit, pushError, incrLearningCommits, updateResult, modify, mret, M_ret,
    rowWriteFails, failureOf, diffWritten, isSome.
  destruct (fault_createCommit env i) as [e|] eqn:Ec; simpl.
  - eexists. split; [reflexivity|]. split; simpl; rewrite ?app_nil_r; reflexivity.
  - destruct (isLearningWorthy (analyzeCommit c)) eqn:Ew; simpl.
    + destruct (files c) as [fs|] eqn:Ef; simpl.
      * destruct (fault_storeCommitDiff env i) as [e|] eqn:Ed; simpl;
          (eexists; split; [reflexivity|]; split; simpl; rewrite ?app_nil_r; reflexivity).
      * eexists. split; [reflexivity|]. split; simpl; rewrite ?app_nil_r; reflexivity.
    + eexists. split; [reflexivity|]. split; simpl; rewrite ?app_nil_r; reflexivity.
Qed.

Lemma combine_analyses cs :
  combine cs (analyzeCommits cs) = map (fun c => (c, analyzeCommit c)) cs.
Proof. induction cs as [|c cs IH]; simpl; [reflexivity | rewrite <- IH; reflexivity]. Qed.

(** The loop never throws: every commit of the batch gets its turn. *)
Lemma storeAll_advances env repoId cs : forall i s,
  exists s',
    storeAll env repoId i (map (fun c => (c, analyzeCommit c)) cs) s = (s', Ok tt) /\
    Advances s s' (storedRows env repoId i cs) (recordedErrors env i cs).
Proof.
  induction cs as [|c cs IH]; intros i s; simpl.
  - exists s. split; [reflexivity|]. split; rewrite ?app_nil_r; reflexivity.
  - destruct (storeOne_advances env repoId i c s) as (s1 & H1 & A1).
    destruct (IH (S i) s1) as (s2 & H2 & A2).
    exists s2. split.
    + rewrite (bind_ok _ _ _ _ _ H1). exact H2.
    + destruct A1, A2. split; try congruence.
      * rewrite adv_commits1, adv_commits0, <- app_assoc. reflexivity.
      * rewrite adv_errors1, adv_errors0, <- app_assoc. reflexivity.
Qed.


Lemma commitFails_failureOf env i c :
  commitFails env i c = isSome (failureOf env i c).
Proof.
  unfold commitFails, diffWriteFails, rowWriteFails, failureOf.
  destruct (fault_createCommit env i); simpl; [reflexivity|].
  destruct (diffWritten c); reflexivity.
Qed.

Lemma rowWriteFails_commitFails env i c :
  commitFails env i c = false -> rowWriteFails env i = false.
Proof. unfold commitFails. intros H. apply orb_false_iff in H. tauto. Qed.

(** Without a failing write nothing is recorded and every row is stored. *)
Lemma quiet_loop env repoId cs : forall i,
  (forall k c, cs !! k = Some c -> commitFails env (i + k) c = false) ->
  recordedErrors env i cs = [] /\
  storedRows env repoId i cs = map (commitRow env repoId) cs.
Proof.
  induction cs as [|c cs IH]; intros i H; simpl; [split; reflexivity|].
  pose proof (H 0%nat c eq_refl) as H0. rewrite Nat.add_0_r in H0.
  rewrite (rowWriteFails_commitFails _ _ _ H0).
  rewrite commitFails_failureOf in H0.
  destruct (failureOf env i c); [discriminate|].
  destruct (IH (S i)) as [He Hr].
  { intros k c' Hk. replace (S i + k)%nat with (i + S k)%nat by lia.
    apply H. exact Hk. }
  simpl. rewrite He, Hr. split; reflexivity.
Qed.

(** With one failing write, at position [j], one message is recorded, and
    the row of that commit is the only one that can be missing. *)
Lemma single_failure_loop env repoId cs : forall i j c e,
  cs !! j = Some c ->
  failureOf env (i + j) c = Some e ->
  (forall k c', cs !! k = Some c' -> k <> j -> commitFails env (i + k) c' = false) ->
  recordedErrors env i cs = [failureMessage c e] /\
  storedRows env repoId i cs =
    map (commitRow env repoId) (if rowWriteFails env (i + j) then delete j cs else cs).
Proof.
  induction cs as [|c0 cs IH]; intros i j c e Hj He Hothers; [discriminate|].
  destruct j as [|j]; simpl in Hj.
  - inversion Hj; subst c0. rewrite Nat.add_0_r in *. simpl.
    rewrite He.
    destruct (quiet_loop env repoId cs (S i)) as [Hq Hl].
    { intros k c' Hk. replace (S i + k)%nat with (i + S k)%nat by lia.
      apply Hothers; [exact Hk | lia]. }
    rewrite Hq. split; [reflexivity|].
    destruct (rowWriteFails env i); simpl; rewrite Hl; reflexivity.
  - simpl.
    pose proof (Hothers 0%nat c0 eq_refl ltac:(lia)) as H0. rewrite Nat.add_0_r in H0.
    rewrite (rowWriteFails_commitFails _ _ _ H0).
    rewrite commitFails_failureOf in H0.
    destruct (failureOf env i c0); [discriminate|].
    destruct (IH (S i) j c e Hj) as [Hm Hl].
    { replace (S i + j)%nat with (i + S j)%nat by lia. exact He. }
    { intros k c' Hk Hne. replace (S i + k)%nat with (i + S k)%nat by lia.
      apply Hothers; [exact Hk | lia]. }
    replace (S i + j)%nat with (i + S j)%nat in Hl by lia.
    simpl. rewrite Hm, Hl. split; [reflexivity|].
    destruct (rowWriteFails env (i + S j)); reflexivity.
Qed.

#[local] Arguments getLearningCommits : simpl never.

Ltac open_run :=
  unfold ingestRepository, tryCatch, ingestBody, ingestHandler.
Ltac open_calls :=
  unfold mbind, M_bind, onWorld, getRepositoryByUrl, liftOutcome, createRepository,
    setRepository, setTotalCommits, updateResult, modify, setAnalysisStatus, get,
    throw, mret, M_ret.

(** A run that reaches the loop and can write the final status returns: the
    loop has stored what [storedRows] says and recorded what [recordedErrors]
    says, and the status is [completed]. *)
Lemma ingest_reaches_end env url options w info cs :
  ReachesLoop env url options w info cs ->
  fault_setAnalysisStatus env completed = None ->
  exists w' res,
    ingestRepository env url options w = (w', Ok res) /\
    repository res = Some (rowFor env url info) /\
    totalCommits res = List.length cs /\
    res_commits res = storedRows env (repoIdOf url) 0 cs /\
    errors res = recordedErrors env 0 cs /\
    getAnalysisStatus (repoIdOf url) w' =
      Some (statusRecord env (repoIdOf url) completed None).
Proof.
  intros ((Hv & Hf & Hg & Hc) & Ha & Hcs) Hdone.
  unfold candidates in Hcs.
  open_run. rewrite Hv. simpl negb. cbv iota.
  open_calls. simpl. rewrite Hf, Hg, Hc. simpl. rewrite Ha, Hcs.
  rewrite combine_analyses.
  match goal with |- context [storeAll ?e ?id ?i _ ?s] =>
    destruct (storeAll_advances e id cs i s) as (s3 & H3 & A3) end.
  rewrite H3. simpl. rewrite Hdone. simpl.
  destruct A3 as [Ar At Acs Aes Akv Arepos]. simpl in *.
  eexists _, _. split; [reflexivity|].
  unfold getAnalysisStatus. simpl.
  repeat split; try assumption.
  apply lookup_insert_eq.
Qed.

(** A run that does not get to write the repository row fails and leaves the
    stores as they were. *)
Lemma ingest_before_row env url options w :
  (forall info, ~ WritesRow env url w info) ->
  exists e, ingestRepository env url options w = (w, Err e).
Proof.
  intros Hno. open_run.
  destruct (isValid (parseRepositoryUrl url)) eqn:Hv; simpl negb; cbv iota.
  2:{ open_calls. simpl. eexists. reflexivity. }
  open_calls. simpl.
  destruct (List.find (fun r => String.eqb (github_url r) url) (repositories w)) eqn:Hf.
  { simpl. eexists. reflexivity. }
  destruct (gh_repository env (owner (parseRepositoryUrl url))
              (repo (parseRepositoryUrl url))) as [info|e] eqn:Hg.
  2:{ simpl. eexists. reflexivity. }
  destruct (fault_createRepository env) as [e|] eqn:Hc.
  { simpl. eexists. reflexivity. }
  exfalso. apply (Hno info). repeat split; assumption.
Qed.

(** A run that writes the repository row: the row is the only change to the
    repository table; if the run returns, the status is [completed]; if it
    throws, the status is [error] with the message of what it throws,
    provided that last status write goes through, and it is what the store
    held before that write otherwise.  Once the commits are listed, only the
    final status write can make the run throw. *)
Lemma ingest_after_row env url options w info :
  WritesRow env url w info ->
  exists w' r,
    ingestRepository env url options w = (w', r) /\
    repositories w' = repositories w ++ [rowFor env url info] /\
    match r with
    | Ok res =>
        getAnalysisStatus (repoIdOf url) w' =
          Some (statusRecord env (repoIdOf url) completed None)
    | Err e =>
        fault_setAnalysisStatus env Storage.error = None ->
        getAnalysisStatus (repoIdOf url) w' =
          Some (statusRecord env (repoIdOf url) Storage.error (Some (errorMessage e)))
    end /\
    (forall cs,
       fault_setAnalysisStatus env analyzing = None ->
       candidates env url options info = Ok cs ->
       fault_setAnalysisStatus env completed = None ->
       exists res, r = Ok res).
Proof.
  intros (Hv & Hf & Hg & Hc).
  destruct (fault_setAnalysisStatus env analyzing) as [ea|] eqn:Ha.
  { (* the first status write fails *)
    open_run. rewrite Hv. simpl negb. cbv iota.
    open_calls. simpl. rewrite Hf, Hg, Hc. simpl. rewrite Ha. simpl.
    destruct (fault_setAnalysisStatus env Storage.error) as [ee|] eqn:He; simpl.
    - eexists _, _. split; [reflexivity|]. split; [reflexivity|].
      split; [discriminate|]. intros cs HH. discriminate.
    - eexists _, _. split; [reflexivity|]. split; [reflexivity|].
      split; [|intros cs HH; discriminate].
      intros _. unfold getAnalysisStatus. simpl. apply lookup_insert_eq. }
  destruct (candidates env url options info) as [cs|eg] eqn:Hcs.
  2:{ (* listing the commits fails *)
    unfold candidates in Hcs.
    open_run. rewrite Hv. simpl negb. cbv iota.
    open_calls. simpl. rewrite Hf, Hg, Hc. simpl. rewrite Ha, Hcs. simpl.
    destruct (fault_setAnalysisStatus env Storage.error) as [ee|] eqn:He; simpl.
    - eexists _, _. split; [reflexivity|]. split; [reflexivity|].
      split; [discriminate|]. intros cs _ HH. discriminate.
    - eexists _, _. split; [reflexivity|]. split; [reflexivity|].
      split; [|intros cs _ HH; discriminate].
      intros _. unfold getAnalysisStatus. simpl. apply lookup_insert_eq. }
  destruct (fault_setAnalysisStatus env completed) as [ec|] eqn:Hdone.
  2:{ (* the run returns *)
    destruct (ingest_reaches_end env url options w info cs) as (w' & res & Hrun & Hr & _ & _ & _ & Hst);
      [repeat split; assumption | assumption |].
    exists w', (Ok res). split; [exact Hrun|].
    split.
    - revert Hrun. unfold candidates in Hcs.
      open_run. rewrite Hv. simpl negb. cbv iota.
      open_calls. simpl. rewrite Hf, Hg, Hc. simpl. rewrite Ha, Hcs.
      rewrite combine_analyses.
      match goal with |- context [storeAll ?e ?id ?i _ ?s] =>
        destruct (storeAll_advances e id cs i s) as (s3 & H3 & A3) end.
      rewrite H3. simpl. rewrite Hdone. simpl.
      intros Hrun. inversion Hrun; subst. simpl.
      destruct A3. simpl in *. assumption.
    - split; [exact Hst|]. intros. eexists. reflexivity. }
  (* the final status write fails *)
  unfold candidates in Hcs.
  open_run. rewrite Hv. simpl negb. cbv iota.
  open_calls. simpl. rewrite Hf, Hg, Hc. simpl. rewrite Ha, Hcs.
  rewrite combine_analyses.
  match goal with |- context [storeAll ?e ?id ?i _ ?s] =>
    destruct (storeAll_advances e id cs i s) as (s3 & H3 & A3) end.
  rewrite H3. simpl. rewrite Hdone. simpl.
  destruct A3 as [Ar At Acs Aes Akv Arepos]. simpl in *. rewrite Ar.
  destruct (fault_setAnalysisStatus env Storage.error) as [ee|] eqn:He; simpl.
  - eexists _, _. split; [reflexivity|]. split; [exact Arepos|].
    split; [discriminate|]. intros cs' _ _ HH. discriminate.
  - eexists _, _. split; [reflexivity|]. split; [exact Arepos|].
    split; [|intros cs' _ _ HH; discriminate].
    intros _. unfold getAnalysisStatus. simpl. apply lookup_insert_eq.
Qed.

(** C1, as the code has it.  In a run over [N] candidates in which exactly
    one commit has a failing storage write, the failure is caught and
    recorded, the loop goes on, and the run returns with [totalCommits = N]
    and exactly one entry in [errors]; [commits] has [N - 1] entries when the
    failed write is the insert of the commit row, and [N] entries when it is
    the write of the diff, the row being stored by then.  In both cases
    [commits] holds, in the order of the batch, the row of every commit whose
    insert went through. *)
Theorem partial_failure_isolation env url options w info cs j :
  ReachesLoop env url options w info cs ->
  fault_setAnalysisStatus env completed = None ->
  OnlyFailure env cs j ->
  exists w' res c e,
    ingestRepository env url options w = (w', Ok res) /\
    cs !! j = Some c /\ failureOf env j c = Some e /\
    totalCommits res = List.length cs /\
    errors res = [failureMessage c e] /\
    res_commits res =
      map (commitRow env (repoIdOf url))
        (if rowWriteFails env j then delete j cs else cs) /\
    List.length (res_commits res) =
      (if rowWriteFails env j then List.length cs - 1 else List.length cs)%nat.
Proof.
  intros Hreach Hdone [(c & Hj & Hfail) Hothers].
  rewrite commitFails_failureOf in Hfail.
  destruct (failureOf env j c) as [e|] eqn:He; [|discriminate].
  destruct (ingest_reaches_end env url options w info cs Hreach Hdone)
    as (w' & res & Hrun & _ & Htotal & Hrows & Herrs & _).
  destruct (single_failure_loop env (repoIdOf url) cs 0 j c e Hj He Hothers)
    as [Hmsgs Hstored].
  simpl in Hstored.
  exists w', res, c, e. rewrite Herrs, Hrows, Hstored, length_map.
  repeat split; try assumption.
  destruct (rowWriteFails env j); [|reflexivity].
  apply length_delete. eauto.
Qed.

Lemma sample_reaches_loop (rowFault diffFault : nat -> option Thrown) :
  ReachesLoop (sampleEnv (Ok sampleBatch) (fun _ => None) rowFault diffFault)
    sampleUrl None emptyWorld sampleInfo sampleBatch.
Proof. repeat split. Qed.

Lemma only_second_row_fails : OnlyFailure rowFaultEnv sampleBatch 1.
Proof.
  split.
  - exists pagination. split; reflexivity.
  - intros [|[|i]] c Hc Hne; [| congruence | discriminate].
    cbv in Hc. inversion Hc; subst c. reflexivity.
Qed.

Lemma only_first_diff_fails : OnlyFailure diffFaultEnv sampleBatch 0.
Proof.
  split.
  - exists darkMode. split; reflexivity.
  - intros [|[|i]] c Hc Hne; [congruence | | discriminate].
    cbv in Hc. inversion Hc; subst c. reflexivity.
Qed.

(** Two candidates, the insert of the second row fails: one row, one error. *)
Lemma partial_failure_isolation_witness :
  exists w' res,
    ingestRepository rowFaultEnv sampleUrl None emptyWorld = (w', Ok res) /\
    totalCommits res = 2%nat /\
    List.length (errors res) = 1%nat /\
    List.length (res_commits res) = 1%nat.
Proof.
  destruct (partial_failure_isolation rowFaultEnv sampleUrl None emptyWorld
              sampleInfo sampleBatch 1
              (sample_reaches_loop _ _) eq_refl only_second_row_fails)
    as (w' & res & c & e & Hrun & _ & _ & Ht & He & _ & Hl).
  exists w', res. rewrite He. repeat split; assumption.
Defined.

(** C1, as the specification states it, fails: two candidates, the write of
    the first one's diff is the only failing write, and the run returns two
    rows in [commits], not one. *)
Lemma diff_failure_keeps_the_row :
  OnlyFailure diffFaultEnv sampleBatch 0 /\
  exists w' res,
    ingestRepository diffFaultEnv sampleUrl None emptyWorld = (w', Ok res) /\
    totalCommits res = 2%nat /\
    List.length (errors res) = 1%nat /\
    List.length (res_commits res) = 2%nat /\
    List.length (res_commits res) <> (totalCommits res - 1)%nat.
Proof.
  split; [exact only_first_diff_fails|].
  eexists _, _. split; [vm_compute; reflexivity|].
  repeat split. discriminate.
Qed.

(** [ingestRepository] keeps the repository table to URLs that parse. *)
Lemma ingest_keeps_urls_parsing env url options w :
  StoredUrlsParse w -> StoredUrlsParse (fst (ingestRepository env url options w)).
Proof.
  intros Hinv.
  destruct (isValid (parseRepositoryUrl url)) eqn:Hv.
  2:{ destruct (ingest_before_row env url options w) as (e & ->); [|exact Hinv].
      intros info (Hv' & _). congruence. }
  destruct (List.find (fun r => String.eqb (github_url r) url) (repositories w)) eqn:Hf.
  { destruct (ingest_before_row env url options w) as (e & ->); [|exact Hinv].
    intros info (_ & Hf' & _). congruence. }
  destruct (gh_repository env (owner (parseRepositoryUrl url))
              (repo (parseRepositoryUrl url))) as [info|e] eqn:Hg.
  2:{ destruct (ingest_before_row env url options w) as (e' & ->); [|exact Hinv].
      intros info (_ & _ & Hg' & _). congruence. }
  destruct (fault_createRepository env) as [e|] eqn:Hc.
  { destruct (ingest_before_row env url options w) as (e' & ->); [|exact Hinv].
    intros info' (_ & _ & _ & Hc'). congruence. }
  destruct (ingest_after_row env url options w info) as (w' & r & -> & Hrepos & _).
  { repeat split; assumption. }
  unfold StoredUrlsParse in *. simpl. rewrite Hrepos.
  apply Forall_app. split; [exact Hinv|].
  constructor; [exact Hv | constructor].
Qed.

Lemma find_ingested url w :
  Ingested url w ->
  exists r, List.find (fun r => String.eqb (github_url r) url) (repositories w) = Some r.
Proof.
  unfold Ingested. induction (repositories w) as [|r rs IH]; simpl; [tauto|].
  intros [Hr | Hin].
  - exists r. rewrite Hr, String.eqb_refl. reflexivity.
  - destruct (String.eqb (github_url r) url); [eauto | auto].
Qed.

(** The guard itself: a URL that parses and is in the table is refused, and
    nothing is touched. *)
Lemma ingest_refuses_known_url env url options w :
  isValid (parseRepositoryUrl url) = true -> Ingested url w ->
  ingestRepository env url options w = (w, Err alreadyExists).
Proof.
  intros Hv Hin. destruct (find_ingested url w Hin) as (r & Hf).
  open_run. rewrite Hv. simpl negb. cbv iota.
  open_calls. simpl. rewrite Hf. reflexivity.
Qed.

(** A run that returns has parsed its URL and left it in the table. *)
Lemma ingest_returns_ingested env url options w w1 res :
  ingestRepository env url options w = (w1, Ok res) ->
  isValid (parseRepositoryUrl url) = true /\ Ingested url w1.
Proof.
  intros Hrun.
  destruct (isValid (parseRepositoryUrl url)) eqn:Hv.
  2:{ destruct (ingest_before_row env url options w) as (e & He); [|congruence].
      intros info (Hv' & _). congruence. }
  split; [reflexivity|].
  destruct (List.find (fun r => String.eqb (github_url r) url) (repositories w)) eqn:Hf.
  { destruct (ingest_before_row env url options w) as (e & He); [|congruence].
    intros info (_ & Hf' & _). congruence. }
  destruct (gh_repository env (owner (parseRepositoryUrl url))
              (repo (parseRepositoryUrl url))) as [info|e] eqn:Hg.
  2:{ destruct (ingest_before_row env url options w) as (e' & He); [|congruence].
      intros info (_ & _ & Hg' & _). congruence. }
  destruct (fault_createRepository env) as [e|] eqn:Hc.
  { destruct (ingest_before_row env url options w) as (e' & He); [|congruence].
    intros info' (_ & _ & _ & Hc'). congruence. }
  destruct (ingest_after_row env url options w info) as (w' & r & Hrun' & Hrepos & _).
  { repeat split; assumption. }
  rewrite Hrun in Hrun'. inversion Hrun'; subst w' r.
  unfold Ingested. rewrite Hrepos, map_app. apply in_or_app. right. left. reflexivity.
Qed.

(** C2.  The dedup guard.  When the URL is the URL of a repository row, the
    call throws the already-exists error and leaves every store as it was:
    no row is added, nothing is written.  In particular, after a call that
    returned, a second call with the same URL is refused in this way,
    whatever the environment does. *)
Theorem dedup_guard :
  (forall env url options w,
     StoredUrlsParse w -> Ingested url w ->
     ingestRepository env url options w = (w, Err alreadyExists)) /\
  (forall env url options w w1 res env2 options2,
     ingestRepository env url options w = (w1, Ok res) ->
     Ingested url w1 /\
     ingestRepository env2 url options2 w1 = (w1, Err alreadyExists)).
Proof.
  split.
  - intros env url options w Hinv Hin.
    apply ingest_refuses_known_url; [|exact Hin].
    unfold StoredUrlsParse in Hinv. rewrite Forall_forall in Hinv.
    unfold Ingested in Hin. apply in_map_iff in Hin as (r & <- & Hr).
    apply Hinv. apply list_elem_of_In. exact Hr.
  - intros env url options w w1 res env2 options2 Hrun.
    destruct (ingest_returns_ingested env url options w w1 res Hrun) as [Hv Hin].
    split; [exact Hin | apply ingest_refuses_known_url; assumption].
Qed.

(** The sample repository is in the store: a call with its URL is refused and
    the store is what it was. *)
Lemma dedup_guard_witness :
  ingestRepository quietEnv sampleUrl None ingestedWorld = (ingestedWorld, Err alreadyExists).
Proof.
  destruct dedup_guard as [Hguard _].
  apply Hguard.
  - repeat constructor.
  - left. reflexivity.
Defined.

(** A run that writes the repository row and throws while the status write
    of the [catch] clause fails: what it throws is the error of that write,
    and the status is what it was before the [catch] clause, namely
    [analyzing] when the first status write went through, and what the store
    held before the run otherwise. *)
Lemma ingest_handler_write_fails env url options w info ee w' e :
  WritesRow env url w info ->
  fault_setAnalysisStatus env Storage.error = Some ee ->
  ingestRepository env url options w = (w', Err e) ->
  e = ee /\
  getAnalysisStatus (repoIdOf url) w' =
    match fault_setAnalysisStatus env analyzing with
    | None => Some (statusRecord env (repoIdOf url) analyzing None)
    | Some _ => getAnalysisStatus (repoIdOf url) w
    end.
Proof.
  intros (Hv & Hf & Hg & Hc) He.
  destruct (fault_setAnalysisStatus env analyzing) as [ea|] eqn:Ha.
  { open_run. rewrite Hv. simpl negb. cbv iota.
    open_calls. simpl. rewrite Hf, Hg, Hc. simpl. rewrite Ha. simpl. rewrite He. simpl.
    intros Hrun. inversion Hrun; subst. split; reflexivity. }
  destruct (candidates env url options info) as [cs|eg] eqn:Hcs.
  2:{ unfold candidates in Hcs.
      open_run. rewrite Hv. simpl negb. cbv iota.
      open_calls. simpl. rewrite Hf, Hg, Hc. simpl. rewrite Ha, Hcs. simpl.
      rewrite He. simpl.
      intros Hrun. inversion Hrun; subst. split; [reflexivity|].
      unfold getAnalysisStatus. simpl. apply lookup_insert_eq. }
  unfold candidates in Hcs.
  open_run. rewrite Hv. simpl negb. cbv iota.
  open_calls. simpl. rewrite Hf, Hg, Hc. simpl. rewrite Ha, Hcs.
  rewrite combine_analyses.
  match goal with |- context [storeAll ?e0 ?id ?i _ ?s] =>
    destruct (storeAll_advances e0 id cs i s) as (s3 & H3 & A3) end.
  rewrite H3. simpl.
  destruct A3 as [Ar At Acs Aes Akv Arepos]. simpl in *.
  destruct (fault_setAnalysisStatus env completed) as [ec|] eqn:Hdone; simpl.
  - rewrite Ar. simpl. rewrite He. simpl.
    intros Hrun. inversion Hrun; subst. split; [reflexivity|].
    unfold getAnalysisStatus. rewrite Akv. apply lookup_insert_eq.
  - intros Hrun. inversion Hrun.
Qed.

(** C7, as the code has it.  Once the repository row is written: a run that
    returns leaves the status [completed].  A run that throws leaves the
    status [error], with the message of what it throws, provided the status
    write of the [catch] clause goes through; when that write fails, its
    error is what the run throws, and the status stays what it was:
    [analyzing] when the first status write went through, and what the store
    held before the run otherwise.  And once the commits are listed the run
    returns, whatever happened to the single commits, provided the final
    status write goes through. *)
Theorem status_after_row env url options w info :
  WritesRow env url w info ->
  exists w' r,
    ingestRepository env url options w = (w', r) /\
    match r with
    | Ok res =>
        getAnalysisStatus (repoIdOf url) w' =
          Some (statusRecord env (repoIdOf url) completed None)
    | Err e =>
        (fault_setAnalysisStatus env Storage.error = None ->
         getAnalysisStatus (repoIdOf url) w' =
           Some (statusRecord env (repoIdOf url) Storage.error (Some (errorMessage e)))) /\
        (forall ee,
           fault_setAnalysisStatus env Storage.error = Some ee ->
           e = ee /\
           getAnalysisStatus (repoIdOf url) w' =
             match fault_setAnalysisStatus env analyzing with
             | None => Some (statusRecord env (repoIdOf url) analyzing None)
             | Some _ => getAnalysisStatus (repoIdOf url) w
             end)
    end /\
    (forall cs,
       fault_setAnalysisStatus env analyzing = None ->
       candidates env url options info = Ok cs ->
       fault_setAnalysisStatus env completed = None ->
       exists res, r = Ok res).
Proof.
  intros Hrow.
  destruct (ingest_after_row env url options w info Hrow) as (w' & r & Hrun & _ & Hst & Hend).
  exists w', r. split; [exact Hrun|]. split; [|exact Hend].
  destruct r as [res|e]; [exact Hst|].
  split; [exact Hst|].
  intros ee Hee.
  exact (ingest_handler_write_fails env url options w info ee w' e Hrow Hee Hrun).
Qed.

Lemma sample_writes_row listing statusFault rowFault diffFault :
  WritesRow (sampleEnv listing statusFault rowFault diffFault)
    sampleUrl emptyWorld sampleInfo.
Proof. repeat split. Qed.

(** GitHub fails to list the commits: the run throws and the status is
    [error], with the message of the failure. *)
Lemma status_after_row_witness :
  exists w',
    ingestRepository listingFailsEnv sampleUrl None emptyWorld =
      (w', Err (JsError "GitHub API error (502): Bad Gateway")) /\
    getAnalysisStatus "octocat/Hello-World" w' =
      Some (statusRecord listingFailsEnv "octocat/Hello-World" Storage.error
              (Some "GitHub API error (502): Bad Gateway")).
Proof.
  destruct (status_after_row listingFailsEnv sampleUrl None emptyWorld sampleInfo
              (sample_writes_row _ _ _ _)) as (w' & r & Hrun & Hst & _).
  assert (Hr : r = Err (JsError "GitHub API error (502): Bad Gateway")).
  { assert (H : snd (ingestRepository listingFailsEnv sampleUrl None emptyWorld)
                = Err (JsError "GitHub API error (502): Bad Gateway"))
      by (vm_compute; reflexivity).
    rewrite Hrun in H. exact H. }
  subst r. exists w'. split; [exact Hrun | exact (proj1 Hst eq_refl)].
Defined.

(** C7, as the specification states it, fails: the row is written, listing
    the commits fails, the status write of the [catch] clause fails too; the
    run throws the error of that write and the status stays [analyzing]. *)
Lemma status_left_analyzing :
  WritesRow staleEnv sampleUrl emptyWorld sampleInfo /\
  exists w',
    ingestRepository staleEnv sampleUrl None emptyWorld
      = (w', Err (JsError "KV put failed")) /\
    getAnalysisStatus "octocat/Hello-World" w' =
      Some (statusRecord staleEnv "octocat/Hello-World" analyzing None).
Proof.
  split; [apply sample_writes_row|].
  eexists. split; [vm_compute; reflexivity|].
  vm_compute. reflexivity.
Qed.

End IngestFacts.

(** ** Learner sessions *)

Module SessionFacts.
Import Tutorial SessionSpec Samples.

Ltac open_session :=
  unfold startSession, nextStep, previousStep, completeAction, completeSession,
    getSession, mbind, M_bind, db_getSession, db_createSession,
    db_updateSessionProgress, db_completeSession, getTutorial, modify, throw,
    mret, M_ret; simpl.

(** [getSession] on known stores. *)
Lemma getSession_known st sid s t c :
  Known st sid s t c ->
  getSession sid st = (st, Ok (mkSession s t c (current_step s))).
Proof.
  intros (Hs & Ht & Hc). open_session. rewrite Hs, Ht, Hc. reflexivity.
Qed.

(** [nextStep] below the last step moves one step on and completes nothing. *)
Lemma nextStep_advances now st sid s t c :
  Known st sid s t c ->
  current_step s < lastIndex c ->
  let s' := withStep s (current_step s + 1) in
  let st' := withSessions st (alter (fun x => withStep x (current_step s + 1)) sid (sessions st)) in
  nextStep now sid st = (st', Ok (mkSession s' t c (current_step s + 1))) /\
  Known st' sid s' t c.
Proof.
  intros (Hs & Ht & Hc) Hlt s' st'. unfold lastIndex in Hlt.
  assert (HK : Known st' sid s' t c).
  { repeat split; simpl; [rewrite lookup_alter_eq, Hs; reflexivity | exact Ht | exact Hc]. }
  split; [|exact HK].
  open_session. rewrite Hs, Ht, Hc.
  destruct (Z.leb_spec (Z.of_nat (List.length (steps c)) - 1) (current_step s)); [lia|].
  simpl. rewrite lookup_alter_eq, Hs. simpl. rewrite Ht, Hc. reflexivity.
Qed.

(** [nextStep] on the last step (or beyond) stamps [completed_at] and leaves
    the step alone. *)
Lemma nextStep_completes now st sid s t c :
  Known st sid s t c ->
  lastIndex c <= current_step s ->
  let s' := withCompletedAt s now in
  let st' := withSessions st (alter (fun x => withCompletedAt x now) sid (sessions st)) in
  nextStep now sid st = (st', Ok (mkSession s' t c (current_step s))) /\
  Known st' sid s' t c.
Proof.
  intros (Hs & Ht & Hc) Hge s' st'. unfold lastIndex in Hge.
  assert (HK : Known st' sid s' t c).
  { repeat split; simpl; [rewrite lookup_alter_eq, Hs; reflexivity | exact Ht | exact Hc]. }
  split; [|exact HK].
  open_session. rewrite Hs, Ht, Hc.
  destruct (Z.leb_spec (Z.of_nat (List.length (steps c)) - 1) (current_step s)); [|lia].
  simpl. rewrite lookup_alter_eq, Hs. simpl. rewrite Ht, Hc. reflexivity.
Qed.

(** The complete action stamps [completed_at] and leaves the step alone. *)
Lemma completeAction_completes now st sid s t c :
  Known st sid s t c ->
  let s' := withCompletedAt s now in
  let st' := withSessions st (alter (fun x => withCompletedAt x now) sid (sessions st)) in
  completeAction now sid st = (st', Ok (mkSession s' t c (current_step s))) /\
  Known st' sid s' t c.
Proof.
  intros (Hs & Ht & Hc) s' st'.
  assert (HK : Known st' sid s' t c).
  { repeat split; simpl; [rewrite lookup_alter_eq, Hs; reflexivity | exact Ht | exact Hc]. }
  split; [|exact HK].
  open_session. rewrite lookup_alter_eq, Hs. simpl. rewrite Ht, Hc. reflexivity.
Qed.

(** [n] calls of [nextStep] that stay below the last step move [n] steps on. *)
Lemma afterNexts_below_last now sid t c : forall n st s,
  Known st sid s t c ->
  current_step s + Z.of_nat n <= lastIndex c ->
  Known (afterNexts n now sid st) sid (withStep s (current_step s + Z.of_nat n)) t c.
Proof.
  induction n as [|n IH]; intros st s HK Hle.
  - simpl. replace (current_step s + Z.of_nat 0) with (current_step s) by lia.
    destruct s; exact HK.
  - simpl afterNexts.
    assert (Hle' : current_step s + Z.of_nat n <= lastIndex c) by lia.
    pose proof (IH st s HK Hle') as HKn.
    destruct (nextStep_advances now _ sid _ t c HKn) as [Hrun HK'].
    { simpl. lia. }
    rewrite Hrun. simpl fst. simpl in HK'.
    replace (current_step s + Z.of_nat (S n)) with (current_step s + Z.of_nat n + 1) by lia.
    exact HK'.
Qed.


(** [startSession] with a fresh id on a stored tutorial. *)
Lemma startSession_fresh now sid tid st t c :
  tutorials st !! tid = Some t ->
  contents st !! tid = Some c ->
  sessions st !! sid = None ->
  let s := {| session_id := sid; session_tutorial_id := tid; current_step := 0;
              started_at := now; completed_at := None |} in
  let st' := withSessions st (<[sid := s]> (sessions st)) in
  startSession now sid tid st = (st', Ok (mkSession s t c 0)) /\
  Known st' sid s t c.
Proof.
  intros Ht Hc Hfresh s st'. split.
  - open_session. rewrite Ht, Hc. simpl. rewrite Hfresh. reflexivity.
  - repeat split; simpl; [apply lookup_insert_eq | exact Ht | exact Hc].
Qed.

(** C3, as the code has it.  A new session is on step 0 and not completed.
    On a session at step [k] of a tutorial with [K] steps: [nextStep] with
    [k < K - 1] moves to [k + 1] and leaves [completed_at] alone; [nextStep]
    with [k = K - 1] stamps [completed_at] and leaves the step at [K - 1];
    [previousStep] at step 0 changes nothing and returns the session.  From a
    new session, [K - 1] calls of [nextStep] reach step [K - 1], not
    completed.  After completion the session stays completed under
    [nextStep] and under the complete action.  The complete action, and
    [nextStep] on the last step or beyond it, stamp [completed_at] anew and
    leave the step alone; [nextStep] below the last step still moves one step
    on, and leaves [completed_at] as it was. *)
Theorem session_state_machine :
  (forall now sid tid st t c,
     tutorials st !! tid = Some t -> contents st !! tid = Some c ->
     sessions st !! sid = None ->
     exists st' ts,
       startSession now sid tid st = (st', Ok ts) /\
       current_step (session ts) = 0 /\ completed (session ts) = false /\
       Known st' sid (session ts) t c) /\
  (forall now sid st s t c,
     Known st sid s t c -> current_step s < lastIndex c ->
     exists st' ts,
       nextStep now sid st = (st', Ok ts) /\
       session ts = withStep s (current_step s + 1) /\
       completed (session ts) = completed s /\
       Known st' sid (session ts) t c) /\
  (forall now sid st s t c,
     Known st sid s t c -> current_step s = lastIndex c ->
     exists st' ts,
       nextStep now sid st = (st', Ok ts) /\
       session ts = withCompletedAt s now /\
       completed (session ts) = true /\
       current_step (session ts) = lastIndex c /\
       Known st' sid (session ts) t c) /\
  (forall sid st s t c,
     Known st sid s t c -> current_step s = 0 ->
     exists ts, previousStep sid st = (st, Ok ts) /\ session ts = s) /\
  (forall now sid st s t c,
     Known st sid s t c -> current_step s = 0 -> completed s = false ->
     0 <= lastIndex c ->
     let st' := afterNexts (Z.to_nat (lastIndex c)) now sid st in
     exists s',
       Known st' sid s' t c /\
       current_step s' = lastIndex c /\ completed s' = false) /\
  (forall now sid st s t c,
     Known st sid s t c -> completed s = true ->
     (exists st' ts,
        nextStep now sid st = (st', Ok ts) /\
        completed (session ts) = true /\
        (lastIndex c <= current_step s ->
           session ts = withCompletedAt s now /\
           current_step (session ts) = current_step s) /\
        (current_step s < lastIndex c ->
           session ts = withStep s (current_step s + 1) /\
           current_step (session ts) = current_step s + 1 /\
           completed_at (session ts) = completed_at s)) /\
     (exists st' ts,
        completeAction now sid st = (st', Ok ts) /\
        session ts = withCompletedAt s now /\
        completed (session ts) = true /\
        current_step (session ts) = current_step s)).
Proof.
  split; [|split; [|split; [|split; [|split]]]].
  - intros now sid tid st t c Ht Hc Hfresh.
    destruct (startSession_fresh now sid tid st t c Ht Hc Hfresh) as [Hrun HK].
    eexists _, _. split; [exact Hrun|]. repeat split; apply HK.
  - intros now sid st s t c HK Hlt.
    destruct (nextStep_advances now st sid s t c HK Hlt) as [Hrun HK'].
    eexists _, _. split; [exact Hrun|]. repeat split; apply HK'.
  - intros now sid st s t c HK Heq.
    destruct (nextStep_completes now st sid s t c HK) as [Hrun HK']; [lia|].
    eexists _, _. split; [exact Hrun|]. repeat split; try apply HK'. exact Heq.
  - intros sid st s t c HK H0.
    exists (mkSession s t c (current_step s)). split; [|reflexivity].
    pose proof (getSession_known st sid s t c HK) as Hget.
    destruct HK as (Hs & Ht & Hc).
    unfold previousStep, mbind, M_bind, db_getSession. rewrite Hs, H0. simpl.
    rewrite H0 in Hget. exact Hget.
  - intros now sid st s t c HK H0 Hnot Hpos st'.
    exists (withStep s (current_step s + Z.of_nat (Z.to_nat (lastIndex c)))).
    split; [|split].
    + apply afterNexts_below_last; [exact HK | lia].
    + simpl. lia.
    + exact Hnot.
  - intros now sid st s t c HK Hdone. split.
    + destruct (Z.lt_ge_cases (current_step s) (lastIndex c)) as [Hlt | Hge].
      * destruct (nextStep_advances now st sid s t c HK Hlt) as [Hrun _].
        eexists _, _. split; [exact Hrun|]. simpl.
        split; [exact Hdone|]. split; [lia | repeat split].
      * destruct (nextStep_completes now st sid s t c HK Hge) as [Hrun _].
        eexists _, _. split; [exact Hrun|]. simpl.
        split; [reflexivity|]. split; [split; reflexivity | lia].
    + destruct (completeAction_completes now st sid s t c HK) as [Hrun _].
      eexists _, _. split; [exact Hrun|]. repeat split.
Qed.

(** A session is started on the three-step tutorial, moved to the last step,
    and completed there by one more [nextStep]. *)
Lemma session_state_machine_witness :
  exists st0 ts0 st1 ts1,
    startSession "2024-01-04T00:00:00Z" "s2" "t1" noSessions = (st0, Ok ts0) /\
    current_step (session ts0) = 0 /\
    nextStep "2024-01-04T00:10:00Z" "s2"
      (afterNexts 2 "2024-01-04T00:05:00Z" "s2" st0) = (st1, Ok ts1) /\
    current_step (session ts1) = 2 /\ completed (session ts1) = true.
Proof.
  destruct session_state_machine as (Hstart & _ & Hlast & _ & Hwalk & _).
  destruct (Hstart "2024-01-04T00:00:00Z" "s2" "t1" noSessions _ _ eq_refl eq_refl eq_refl)
    as (st0 & ts0 & Hrun0 & Hstep0 & Hnot0 & HK0).
  destruct (Hwalk "2024-01-04T00:05:00Z" "s2" st0 _ _ _ HK0 Hstep0 Hnot0 ltac:(vm_compute; discriminate))
    as (s' & HK' & Hstep' & Hnot').
  destruct (Hlast "2024-01-04T00:10:00Z" "s2" _ _ _ _ HK' Hstep')
    as (st1 & ts1 & Hrun1 & _ & Hdone1 & Hstep1 & _).
  exists st0, ts0, st1, ts1.
  split; [exact Hrun0|]. split; [exact Hstep0|].
  split; [exact Hrun1|]. split; [exact Hstep1 | exact Hdone1].
Defined.

(** C3, as the specification states it, fails on its last part: on a session
    that is completed while on step 0 of three, [nextStep] is no no-op, it
    moves the session to step 1, and keeps the time of completion. *)
Lemma next_after_completion_moves :
  exists st' ts,
    nextStep "2024-01-04T00:00:00Z" "s1" completedEarly = (st', Ok ts) /\
    (completed <$> sessions completedEarly !! "s1") = Some true /\
    (current_step <$> sessions completedEarly !! "s1") = Some 0 /\
    current_step (session ts) = 1 /\
    completed_at (session ts) = Some "2024-01-03T00:05:00Z" /\
    (current_step <$> sessions st' !! "s1") = Some 1.
Proof.
  eexists _, _. split; [vm_compute; reflexivity|].
  repeat split.
Qed.

End SessionFacts.

(** ** Tutorial content from the model *)

Module AIFacts.
Import JsString AI AISpec Samples AISamples.

Lemma orDefault_truthy x d : truthy d = true -> truthy (orDefault x d) = true.
Proof.
  intros Hd. unfold orDefault.
  destruct x as [v|]; [|exact Hd].
  destruct (truthy v) eqn:E; [exact E | exact Hd].
Qed.

(** [parseTutorialResponse] returns a title and a description, whatever the
    response and whatever [JSON.parse] makes of it. *)
Lemma parseTutorialResponse_titled JSON_parse response :
  let d := parseTutorialResponse JSON_parse response in
  truthy (title d) = true /\ truthy (description d) = true.
Proof.
  unfold parseTutorialResponse, parseTutorialJson.
  destruct (jsonMatch response) as [text|] eqn:Em; [|split; reflexivity].
  destruct (JSON_parse text) as [parsed|e] eqn:Ep; [|split; reflexivity].
  destruct parsed; simpl; try (split; reflexivity).
  split; apply orDefault_truthy; reflexivity.
Qed.

Lemma converts_string v : isString v = true -> interpolate v = Ok v.
Proof. destruct v; try discriminate. reflexivity. Qed.

Lemma orDefault_string x d :
  optString x = true -> isString d = true -> isString (orDefault x d) = true.
Proof.
  intros Hx Hd. unfold orDefault. destruct x as [v|]; [|exact Hd].
  destruct (truthy v); [exact Hx | exact Hd].
Qed.

Lemma mapItems_strings items :
  forallb isString items = true -> mapItems interpolate items = Ok items.
Proof.
  induction items as [|v items IH]; simpl; intros Hall; [reflexivity|].
  apply andb_true_iff in Hall as [Hv Hrest].
  rewrite (converts_string v Hv). simpl. rewrite (IH Hrest). reflexivity.
Qed.

Lemma mapItems_related items :
  forallb isRelatedFile items = true ->
  exists lines, mapItems relatedLine items = Ok lines.
Proof.
  induction items as [|v items IH]; simpl; intros Hall; [eexists; reflexivity|].
  apply andb_true_iff in Hall as [Hv Hrest].
  destruct (IH Hrest) as [lines Hlines]. rewrite Hlines.
  destruct v as [| | | |items'|members]; try discriminate. simpl in *.
  destruct (lookupMember members "path") as [p|]; [|discriminate].
  destruct (lookupMember members "relevance") as [r|]; [|discriminate].
  apply andb_true_iff in Hv as [Hp Hr]. simpl.
  rewrite (converts_string p Hp). simpl. rewrite (converts_string r Hr). simpl.
  eexists. reflexivity.
Qed.

(** The prompt of a typed context, or of none, is built. *)
Lemma typed_prompt_builds commit files repository codebaseContext :
  TypedOrAbsent codebaseContext ->
  exists prompt,
    buildTutorialPrompt commit files repository codebaseContext = Ok prompt /\
    p_message prompt = Storage.commit_message commit /\
    p_files prompt = files.
Proof.
  destruct codebaseContext as [c|]; simpl; [|intros _; eexists; repeat split].
  unfold Typed. intros Hty.
  repeat (apply andb_true_iff in Hty as [Hty ?]).
  unfold buildTutorialPrompt, contextSection.
  rewrite (converts_string _ Hty). simpl.
  rewrite (converts_string (orDefault (ri_framework (cc_repository c)) (JStr "Not specified")));
    [|apply orDefault_string; [assumption | reflexivity]].
  simpl.
  rewrite (converts_string (orDefault (ri_architecture (cc_repository c)) (JStr "Not specified")));
    [|apply orDefault_string; [assumption | reflexivity]].
  simpl.
  destruct (fs_mainFiles (cc_fileStructure c)) as [| | | |mainFiles|]; try discriminate.
  destruct (cp_patterns (cc_codePatterns c)) as [| | | |patterns|]; try discriminate.
  destruct (cc_relatedFiles c) as [| | | |related|]; try discriminate.
  simpl in *.
  rewrite (mapItems_strings mainFiles) by assumption. simpl.
  rewrite (mapItems_strings patterns) by assumption. simpl.
  destruct (mapItems_related related) as [lines Hlines]; [assumption|].
  rewrite Hlines. simpl. eexists. repeat split.
Qed.

(** C8, as the code has it.  [generateTutorialContent] builds its prompt
    before the [try] block: what [buildTutorialPrompt] throws is thrown,
    whatever the model would have answered.  The prompt is built when no
    codebase context is given and when the one given is typed as the
    interface says.  When the prompt is built the function returns, and what
    it returns has a title and a description.  When the call then fails, or
    the response is not parseable as JSON, it returns the template: the
    fallback of the commit in the first case, of no commit in the second,
    with its three steps.  When the response holds a JSON object, each field
    is the member of that name if it is truthy and the default otherwise; the
    default of [steps] is the empty list. *)
Theorem ai_degrade_path (JSON_parse : string -> outcome json)
    (AI_run : Prompt -> AiReply) (commit : Storage.Commit)
    (files : list Analyzer.GitHubFile) (repository : Storage.Repository)
    (codebaseContext : option CodebaseContext) :
  (forall e,
     buildTutorialPrompt commit files repository codebaseContext = Err e ->
     generateTutorialContent JSON_parse AI_run commit files repository codebaseContext
     = Err e) /\
  (TypedOrAbsent codebaseContext ->
     exists prompt,
       buildTutorialPrompt commit files repository codebaseContext = Ok prompt) /\
  (forall prompt,
     buildTutorialPrompt commit files repository codebaseContext = Ok prompt ->
     exists d,
       generateTutorialContent JSON_parse AI_run commit files repository codebaseContext
       = Ok d /\
       truthy (title d) = true /\ truthy (description d) = true /\
       (CallFailed (AI_run prompt) ->
          d = generateFallbackTutorial (Some (Storage.commit_message commit)) /\
          hasSteps d = true) /\
       (NotJson JSON_parse (AI_run prompt) ->
          d = generateFallbackTutorial None /\ hasSteps d = true) /\
       (forall members, HoldsObject JSON_parse (AI_run prompt) members ->
          title d = orDefault (lookupMember members "title")
                      (JStr "Learn from this commit") /\
          description d = orDefault (lookupMember members "description")
                            (JStr "Step-by-step implementation guide") /\
          steps d = orDefault (lookupMember members "steps") (JArray []))).
Proof.
  split; [|split].
  - intros e He. unfold generateTutorialContent. rewrite He. reflexivity.
  - intros Hty.
    destruct (typed_prompt_builds commit files repository codebaseContext Hty)
      as (prompt & Hp & _).
    exists prompt. exact Hp.
  - intros prompt Hp. unfold generateTutorialContent. rewrite Hp. simpl.
    destruct (AI_run prompt) as [e| |response]; simpl.
    + eexists. split; [reflexivity|]. repeat split; try tauto.
    + eexists. split; [reflexivity|]. repeat split; try tauto.
    + eexists. split; [reflexivity|].
      destruct (parseTutorialResponse_titled JSON_parse (orEmpty response)) as (Ht & Hd).
      split; [exact Ht|]. split; [exact Hd|]. split; [tauto|].
      unfold parseTutorialResponse, parseTutorialJson.
      destruct (jsonMatch (orEmpty response)) as [text|] eqn:Em.
      * split.
        -- intros (e & He). rewrite He. split; reflexivity.
        -- intros members Hm. rewrite Hm. simpl. repeat split.
      * split; [intros _; split; reflexivity | intros members []].
Qed.

(** No codebase context and the binding is down: the template of the commit
    comes back. *)
Lemma ai_degrade_path_witness :
  generateTutorialContent parseJson outage sampleCommitRow [] sampleRepositoryRow None
  = Ok (generateFallbackTutorial (Some "Add dark mode toggle")).
Proof.
  destruct (ai_degrade_path parseJson outage sampleCommitRow [] sampleRepositoryRow None)
    as (_ & Hbuilds & Hreturns).
  destruct (Hbuilds I) as (prompt & Hp).
  destruct (Hreturns prompt Hp) as (d & Hrun & _ & _ & Hfail & _).
  destruct (Hfail I) as [-> _]. exact Hrun.
Defined.

(** C8, as the specification states it, fails twice.  The model answers with
    the empty JSON object, and the step sequence that comes back is empty.
    And the analysis of the codebase was answered with an object whose
    [relatedFiles] is a number, which [parseCodebaseContext] keeps: the
    prompt cannot be built, and tutorial generation throws although the
    fallback is at hand, with the binding down as well as with a model that
    answers. *)
Lemma degrade_path_counterexamples :
  (exists d,
     generateTutorialContent parseJson emptyObject sampleCommitRow [] sampleRepositoryRow
       None = Ok d /\
     steps d = JArray [] /\ hasSteps d = false) /\
  cc_relatedFiles looseContext = JNumber 1 0 /\
  generateTutorialContent parseJson outage sampleCommitRow [] sampleRepositoryRow
    (Some looseContext) = Err (JsError "codebaseContext.relatedFiles.map is not a function") /\
  generateTutorialContent parseJson emptyObject sampleCommitRow [] sampleRepositoryRow
    (Some looseContext) = Err (JsError "codebaseContext.relatedFiles.map is not a function").
Proof.
  split; [|split; [|split]].
  - eexists. split; [vm_compute; reflexivity|]. split; reflexivity.
  - vm_compute. reflexivity.
  - vm_compute. reflexivity.
  - vm_compute. reflexivity.
Qed.

End AIFacts.

(** ** The classifier, further *)

Module AnalyzerMore.
Import JsString Analyzer ClassifierSpec Samples.

Lemma total_from (fs : list GitHubFile) : forall acc,
  fold_left (fun total file => total + additions file + deletions file) fs acc =
  acc + getTotalLinesChanged fs.
Proof.
  unfold getTotalLinesChanged.
  induction fs as [|f fs IH]; intros acc; simpl; [lia|].
  rewrite IH, (IH (0 + additions f + deletions f)). lia.
Qed.

Lemma total_cons f fs :
  getTotalLinesChanged (f :: fs) = additions f + deletions f + getTotalLinesChanged fs.
Proof. unfold getTotalLinesChanged at 1. simpl. rewrite total_from. lia. Qed.


(** X1.  A worthy verdict is only given past the size gates, on a commit
    that has file data, in one of the four teaching categories, and never on
    a config-only commit or a version bump. *)
Theorem worthy_commit_shape (commit : GitHubCommit) :
  isLearningWorthy (analyzeCommit commit) = true ->
  passesGates commit /\
  (exists f fs, files commit = Some (f :: fs)) /\
  In (category (analyzeCommit commit)) [CatFeature; CatFix; CatRefactor; CatTest] /\
  hasOnlyConfigFiles (filesOf commit) = false /\
  isVersionBump (toLowerCase (message commit)) = false.
Proof.
  intros Hw.
  assert (Hg : passesGates commit).
  { revert Hw. unfold analyzeCommit, passesGates.
    destruct (Nat.ltb_spec 15 (List.length (filesOf commit))); [discriminate|].
    change (linesChanged (initialAnalysis commit))
      with (getTotalLinesChanged (filesOf commit)).
    destruct (Z.ltb_spec (getTotalLinesChanged (filesOf commit)) 5); [discriminate|].
    destruct (Z.ltb_spec 500 (getTotalLinesChanged (filesOf commit))); [discriminate|].
    intros _. lia. }
  split; [exact Hg|].
  rewrite (AnalyzerFacts.analyzeCommit_past_gates commit Hg) in *.
  rewrite AnalyzerFacts.applyOverrides_worthy in Hw.
  rewrite AnalyzerFacts.applyOverrides_category.
  rewrite AnalyzerFacts.judgeCategory_worthy in Hw by reflexivity.
  rewrite AnalyzerFacts.judgeCategory_category.
  apply andb_true_iff in Hw as [Hw Hbump]. apply andb_true_iff in Hw as [Hw Hcfg].
  apply negb_true_iff in Hbump, Hcfg.
  split; [|split; [|split; assumption]].
  - destruct Hg as [_ [Hlo _]]. unfold filesOf in *.
    destruct (files commit) as [[|f fs]|]; [cbv in Hlo; congruence | eauto | cbv in Hlo; congruence].
  - simpl in *. unfold spec_worthy in Hw.
    destruct (categorizeCommit (toLowerCase (message commit)) (filesOf commit));
      simpl; auto; discriminate.
Qed.

(** The dark mode commit is worthy, so it has all of the above. *)
Lemma worthy_commit_shape_witness :
  passesGates darkMode /\ category (analyzeCommit darkMode) = CatFeature.
Proof.
  destruct (worthy_commit_shape darkMode eq_refl) as (Hg & _).
  split; [exact Hg | reflexivity].
Defined.

(** X2.  Every verdict carries one of the twelve reasons of the source, so
    the reason is never empty; and the verdict is about the commit it was
    given: its sha, its total of changed lines, its file types. *)
Theorem every_verdict_has_a_reason (commit : GitHubCommit) :
  In (reason (analyzeCommit commit)) allReasons /\
  reason (analyzeCommit commit) <> EmptyString /\
  a_sha (analyzeCommit commit) = sha commit /\
  linesChanged (analyzeCommit commit) = getTotalLinesChanged (filesOf commit) /\
  fileTypes (analyzeCommit commit) = getFileTypes (filesOf commit).
Proof.
  assert (H : In (reason (analyzeCommit commit)) allReasons /\
              a_sha (analyzeCommit commit) = sha commit /\
              linesChanged (analyzeCommit commit) = getTotalLinesChanged (filesOf commit) /\
              fileTypes (analyzeCommit commit) = getFileTypes (filesOf commit)).
  { unfold analyzeCommit, applyOverrides, judgeCategory, allReasons.
    repeat match goal with
           | |- context [if ?b then _ else _] => destruct b
           | |- context [match category ?a with _ => _ end] => destruct (category a)
           end; simpl;
      (split; [repeat (try (left; reflexivity); right) | repeat split]). }
  destruct H as (Hin & Hs & Hl & Hf). repeat split; try assumption.
  intros Hempty. rewrite Hempty in Hin. unfold allReasons in Hin. simpl in Hin.
  repeat (destruct Hin as [Hin | Hin]; [discriminate|]). exact Hin.
Qed.

(** X3.  The version-bump override has the last word: past the gates, a
    message with a version number and one of bump, release, version makes the
    commit not worthy with the reason Version bump, whatever its category and
    whether or not its files are all configuration files. *)
Theorem version_bump_override (commit : GitHubCommit) :
  passesGates commit ->
  isVersionBump (toLowerCase (message commit)) = true ->
  isLearningWorthy (analyzeCommit commit) = false /\
  reason (analyzeCommit commit) = "Version bump" /\
  category (analyzeCommit commit) =
    categorizeCommit (toLowerCase (message commit)) (filesOf commit).
Proof.
  intros Hg Hb. rewrite (AnalyzerFacts.analyzeCommit_past_gates commit Hg).
  rewrite AnalyzerFacts.applyOverrides_worthy, AnalyzerFacts.applyOverrides_category,
    AnalyzerFacts.judgeCategory_category, Hb.
  split; [apply andb_false_r|]. split; [|reflexivity].
  unfold applyOverrides. rewrite Hb.
  destruct (hasOnlyConfigFiles (filesOf commit)); reflexivity.
Qed.

(** The bump to 2.3.1, on a source file with twenty changed lines. *)
Lemma version_bump_override_witness :
  isLearningWorthy (analyzeCommit versionBump) = false /\
  reason (analyzeCommit versionBump) = "Version bump".
Proof.
  assert (G : passesGates versionBump) by AnalyzerFacts.solve_gates.
  destruct (version_bump_override versionBump G eq_refl) as (Hw & Hr & _).
  split; assumption.
Defined.





Lemma total_perm fs fs' :
  Permutation fs fs' -> getTotalLinesChanged fs = getTotalLinesChanged fs'.
Proof.
  induction 1 as [|x l l' _ IH|x y l|l l' l'' _ IH1 _ IH2].
  - reflexivity.
  - rewrite !total_cons, IH. reflexivity.
  - rewrite !total_cons. lia.
  - congruence.
Qed.

Lemma filter_length_perm (p : GitHubFile -> bool) fs fs' :
  Permutation fs fs' -> List.length (List.filter p fs) = List.length (List.filter p fs').
Proof.
  induction 1 as [|x l l' _ IH|x y l|l l' l'' _ IH1 _ IH2]; simpl.
  - reflexivity.
  - destruct (p x); simpl; congruence.
  - destruct (p x), (p y); reflexivity.
  - congruence.
Qed.

Lemma forallb_perm (p : GitHubFile -> bool) fs fs' :
  Permutation fs fs' -> forallb p fs = forallb p fs'.
Proof.
  induction 1 as [|x l l' _ IH|x y l|l l' l'' _ IH1 _ IH2]; simpl.
  - reflexivity.
  - rewrite IH. reflexivity.
  - destruct (p x), (p y); reflexivity.
  - congruence.
Qed.

(** X5.  The verdict does not depend on the order in which the files are
    listed: two commits with the same message whose file lists are
    permutations of each other get the same worthiness, category, reason and
    line total. *)
Theorem verdict_ignores_file_order (c c' : GitHubCommit) :
  message c = message c' ->
  Permutation (filesOf c) (filesOf c') ->
  isLearningWorthy (analyzeCommit c) = isLearningWorthy (analyzeCommit c') /\
  category (analyzeCommit c) = category (analyzeCommit c') /\
  reason (analyzeCommit c) = reason (analyzeCommit c') /\
  linesChanged (analyzeCommit c) = linesChanged (analyzeCommit c').
Proof.
  intros Hm Hp.
  pose proof (Permutation_length Hp) as Hlen.
  pose proof (total_perm _ _ Hp) as Htot.
  assert (Hcat : forall m, categorizeCommit m (filesOf c) = categorizeCommit m (filesOf c')).
  { intros m. unfold categorizeCommit, hasMainlyTestFiles, hasMainlyDocFiles.
    rewrite Hlen, (filter_length_perm isTestFile _ _ Hp),
      (filter_length_perm isDocFile _ _ Hp). reflexivity. }
  assert (Hcfg : hasOnlyConfigFiles (filesOf c) = hasOnlyConfigFiles (filesOf c'))
    by (apply forallb_perm; exact Hp).
  unfold analyzeCommit, applyOverrides, judgeCategory.
  change (linesChanged (initialAnalysis c)) with (getTotalLinesChanged (filesOf c)).
  change (linesChanged (initialAnalysis c')) with (getTotalLinesChanged (filesOf c')).
  rewrite Hm, Hlen, Htot, Hcat, Hcfg.
  destruct (15 <? List.length (filesOf c'))%nat; [repeat split; simpl; congruence|].
  destruct (getTotalLinesChanged (filesOf c') <? 5); [repeat split; simpl; congruence|].
  destruct (500 <? getTotalLinesChanged (filesOf c')); [repeat split; simpl; congruence|].
  simpl.
  destruct (categorizeCommit (toLowerCase (message c')) (filesOf c')); simpl;
    rewrite ?Htot;
    repeat match goal with
           | |- context [if ?b then _ else _] => destruct b; simpl
           end; repeat split; congruence.
Qed.

(** The pagination fix with its two files the other way round. *)
Lemma verdict_ignores_file_order_witness :
  isLearningWorthy (analyzeCommit paginationSwapped) = true /\
  reason (analyzeCommit paginationSwapped) = "Substantial bug fix".
Proof.
  destruct (verdict_ignores_file_order pagination paginationSwapped eq_refl)
    as (Hw & _ & Hr & _).
  { apply perm_swap. }
  rewrite <- Hw, <- Hr. split; reflexivity.
Defined.

End AnalyzerMore.

(** ** Commit identifiers and the commit pre-filter *)

Module ClientMore.
Import JsString Analyzer Client LocatorSpec CommitIds Storage Ingest IngestSpec Samples.

Lemma split_head_colon a b :
  colonFree a = true ->
  exists rest, split ":" (a +:+ String ":" b) = a :: rest.
Proof.
  induction a as [|c a IH]; intros Hfree.
  - rewrite ClientFacts.append_empty_l. simpl. eauto.
  - simpl in Hfree. apply andb_true_iff in Hfree as [Hc Ha].
    destruct (IH Ha) as (rest & Hrest).
    rewrite ClientFacts.append_cons. simpl.
    unfold notColon in Hc. apply negb_true_iff in Hc. rewrite Hc, Hrest. eauto.
Qed.

(** X6.  The identifier of a commit row is [repoId:sha], and reading the
    repository back out of it, as [generateTutorial] does, gives [repoId]
    when [repoId] has no colon; when it has one, what is read back is only
    the part before the first colon. *)
Theorem commit_id_names_its_repository (c : GitHubCommit) (repoId : string) :
  db_id (convertToDbCommit c repoId) = repoId +:+ ":" +:+ sha c /\
  (colonFree repoId = true ->
     repoOfCommitId (db_id (convertToDbCommit c repoId)) = repoId) /\
  (forall a b, colonFree a = true -> repoId = a +:+ ":" +:+ b ->
     repoOfCommitId (db_id (convertToDbCommit c repoId)) = a).
Proof.
  split; [reflexivity|]. split.
  - intros Hfree. unfold repoOfCommitId, convertToDbCommit. simpl db_id.
    change (repoId +:+ ":" +:+ sha c) with (repoId +:+ String ":" (sha c)).
    destruct (split_head_colon repoId (sha c) Hfree) as (rest & ->). reflexivity.
  - intros a b Hfree ->. unfold repoOfCommitId, convertToDbCommit. cbn [db_id].
    assert (E : forall r, (a +:+ ":" +:+ b) +:+ r = a +:+ String ":" (b +:+ r)).
    { intros r. clear. induction a as [|x a IH]; [reflexivity|].
      change (String x ((a +:+ ":" +:+ b) +:+ r) = String x (a +:+ String ":" (b +:+ r))).
      rewrite IH. reflexivity. }
    rewrite E.
    destruct (split_head_colon a (b +:+ ":" +:+ sha c) Hfree) as (rest & ->).
    reflexivity.
Qed.

(** The dark mode commit under the sample repository; and under an owner
    with a colon, which the locator accepts, the repository read back is not
    the repository. *)
Lemma commit_id_names_its_repository_witness :
  repoOfCommitId (db_id (convertToDbCommit darkMode "octocat/Hello-World"))
    = "octocat/Hello-World" /\
  isValid (parseRepositoryUrl "github.com/a:b/c") = true /\
  repoOfCommitId (db_id (convertToDbCommit darkMode (repoIdOf "github.com/a:b/c"))) = "a".
Proof.
  destruct (commit_id_names_its_repository darkMode "octocat/Hello-World") as (_ & H1 & _).
  destruct (commit_id_names_its_repository darkMode (repoIdOf "github.com/a:b/c"))
    as (_ & _ & H2).
  split; [apply H1; reflexivity|]. split; [reflexivity|].
  apply (H2 "a" "b/c"); reflexivity.
Defined.

Lemma filter_sublist {A} (p : A -> bool) (l : list A) : sublist (List.filter p l) l.
Proof.
  induction l as [|x l IH]; simpl; [constructor|].
  destruct (p x); [apply sublist_skip | apply sublist_cons]; exact IH.
Qed.

Lemma filter_idem {A} (p : A -> bool) (l : list A) :
  List.filter p (List.filter p l) = List.filter p l.
Proof.
  induction l as [|x l IH]; simpl; [reflexivity|].
  destruct (p x) eqn:E; simpl; [rewrite E, IH|]; auto.
Qed.

(** X7.  The pre-filter only drops commits: what it returns is a
    subsequence of what it was given, filtering again changes nothing, and
    every commit kept has a message of at least 10 characters that, in lower
    case, contains none of format, style, lint. *)
Theorem prefilter_keeps_a_subsequence (commits : list GitHubCommit) :
  sublist (filterLearningCommits commits) commits /\
  filterLearningCommits (filterLearningCommits commits) = filterLearningCommits commits /\
  Forall (fun c =>
            (10 <= String.length (message c))%nat /\
            includes (toLowerCase (message c)) "format" = false /\
            includes (toLowerCase (message c)) "style" = false /\
            includes (toLowerCase (message c)) "lint" = false)
         (filterLearningCommits commits).
Proof.
  unfold filterLearningCommits.
  split; [apply filter_sublist|]. split; [apply filter_idem|].
  apply Forall_forall. intros c Hc. apply list_elem_of_In, filter_In in Hc as [_ Hk].
  unfold keepForLearning in Hk.
  destruct (includes (toLowerCase (message c)) "merge" && _); [discriminate|].
  destruct (Nat.ltb_spec (String.length (message c)) 10); [discriminate|].
  destruct (includes (toLowerCase (message c)) "update" && _); [discriminate|].
  destruct (includes (toLowerCase (message c)) "format"); [discriminate|].
  destruct (includes (toLowerCase (message c)) "style"); [discriminate|].
  destruct (includes (toLowerCase (message c)) "lint"); [discriminate|].
  repeat split. lia.
Qed.


Lemma slice0_sublist {A} (l : list A) (e : Z) : sublist (slice0 l e) l.
Proof. unfold slice0. apply sublist_take. Qed.

Lemma slice0_length {A} (l : list A) (e : Z) :
  0 < e -> (List.length (slice0 l e) <= Z.to_nat e)%nat.
Proof.
  intros He. unfold slice0.
  destruct (Z.ltb_spec e 0); [lia|].
  rewrite length_take. lia.
Qed.

(** X8.  [getLearningCommits] asks GitHub once, for twice the limit but never
    more than 100 commits, the limit being 20 when none or 0 is given.  A
    failure of the listing is passed on.  Otherwise it returns a subsequence
    of the listing, all of it let through by the pre-filter, and for a
    positive limit never more than the limit. *)
Theorem learning_commits_bounded (env : Env) (o r : string)
    (br : option string) (lim : option Z) :
  let limit := intOr lim 20 in
  let perPage := Z.min (limit * 2) 100 in
  let shaParam := match br with
                  | Some b => if String.eqb b "" then None else Some b
                  | None => None
                  end in
  limit <> 0 /\ perPage <= 100 /\
  match gh_commits env o r shaParam perPage with
  | Err e => getLearningCommits env o r br lim = Err e
  | Ok listing =>
      exists kept,
        getLearningCommits env o r br lim = Ok kept /\
        sublist kept listing /\
        Forall (fun c => keepForLearning c = true) kept /\
        (0 < limit -> (List.length kept <= Z.to_nat limit)%nat)
  end.
Proof.
  intros limit perPage shaParam.
  assert (Hl : limit <> 0).
  { unfold limit, intOr. destruct lim as [n|]; [|discriminate].
    destruct (Z.eqb_spec n 0); [discriminate | assumption]. }
  split; [exact Hl|]. split; [unfold perPage; lia|].
  unfold getLearningCommits, getCommits. fold limit. fold shaParam.
  assert (Hp : intOr (Some (Z.min (limit * 2) 100)) 30 = perPage).
  { unfold intOr, perPage. destruct (Z.eqb_spec (Z.min (limit * 2) 100) 0); [lia | reflexivity]. }
  rewrite Hp.
  destruct (gh_commits env o r shaParam perPage) as [listing|e]; [|reflexivity].
  eexists. split; [reflexivity|]. split; [|split].
  - etransitivity; [apply slice0_sublist | apply filter_sublist].
  - apply Forall_forall. intros c Hc.
    apply (fun H => elem_of_sublist _ _ _ H (slice0_sublist _ _)) in Hc.
    apply list_elem_of_In, filter_In in Hc. tauto.
  - apply slice0_length.
Qed.

(** With the sample listing and no limit given, both commits come back. *)
Lemma learning_commits_bounded_witness :
  exists kept,
    getLearningCommits quietEnv "octocat" "Hello-World" (Some "main") None = Ok kept /\
    (List.length kept <= 20)%nat.
Proof.
  destruct (learning_commits_bounded quietEnv "octocat" "Hello-World" (Some "main") None)
    as (_ & _ & H).
  simpl in H. destruct H as (kept & Hrun & _ & _ & Hlen).
  exists kept. split; [exact Hrun | apply Hlen; reflexivity].
Defined.

End ClientMore.

(** ** Ingestion, further *)

Module IngestMore.
Import JsString Analyzer Client LocatorSpec Storage Ingest IngestSpec IngestFrame Samples
  IngestSamples.

#[local] Arguments getLearningCommits : simpl never.

Ltac open_run := IngestFacts.open_run.
Ltac open_calls := IngestFacts.open_calls.

(** Lookups away from the status key of the run see through its writes. *)
Ltac off_key Hk :=
  repeat (rewrite lookup_insert_ne;
          [| let Heq := fresh in intros Heq; apply Hk; symmetry; exact Heq]).

Lemma parse_invalid url :
  isValid (parseRepositoryUrl url) = false -> parseRepositoryUrl url = invalidFormat.
Proof.
  unfold parseRepositoryUrl.
  destruct (firstMatch patterns url) as [[o n]|]; simpl; [discriminate | reflexivity].
Qed.

(** X10.  Validation comes first and costs nothing: a URL that does not
    parse is refused with the message of the locator, a repository that
    GitHub does not give is refused with GitHub's error, and a failed insert
    of the repository row with the error of the insert; in all three cases
    every store is as it was. *)
Theorem ingest_fails_fast (env : Env) (url : string)
    (options : option IngestOptions) (w : World) :
  (isValid (parseRepositoryUrl url) = false ->
     ingestRepository env url options w = (w, Err (JsError "Invalid GitHub URL format"))) /\
  (forall e,
     isValid (parseRepositoryUrl url) = true ->
     ~ Ingested url w ->
     gh_repository env (owner (parseRepositoryUrl url)) (repo (parseRepositoryUrl url))
       = Err e ->
     ingestRepository env url options w = (w, Err e)) /\
  (forall info e,
     isValid (parseRepositoryUrl url) = true ->
     ~ Ingested url w ->
     gh_repository env (owner (parseRepositoryUrl url)) (repo (parseRepositoryUrl url))
       = Ok info ->
     fault_createRepository env = Some e ->
     ingestRepository env url options w = (w, Err e)).
Proof.
  assert (Hfind : ~ Ingested url w ->
            List.find (fun r => String.eqb (github_url r) url) (repositories w) = None).
  { intros Hnot. destruct (List.find _ _) as [r|] eqn:E; [|reflexivity].
    exfalso. apply Hnot. apply find_some in E as [Hin Heq].
    apply String.eqb_eq in Heq. unfold Ingested. rewrite <- Heq. apply in_map. exact Hin. }
  split; [|split].
  - intros Hv. open_run. rewrite Hv. simpl negb. cbv iota.
    pose proof (parse_invalid url Hv) as Hp.
    rewrite Hp. reflexivity.
  - intros e Hv Hnot Hg. open_run. rewrite Hv. simpl negb. cbv iota.
    open_calls. simpl. rewrite (Hfind Hnot), Hg. reflexivity.
  - intros info e Hv Hnot Hg Hc. open_run. rewrite Hv. simpl negb. cbv iota.
    open_calls. simpl. rewrite (Hfind Hnot), Hg, Hc. reflexivity.
Qed.


(** A URL of another host on a store that holds the sample repository. *)
Lemma ingest_fails_fast_witness :
  ingestRepository quietEnv "https://gitlab.com/octocat/Hello-World" None ingestedWorld
  = (ingestedWorld, Err (JsError "Invalid GitHub URL format")).
Proof.
  destruct (ingest_fails_fast quietEnv "https://gitlab.com/octocat/Hello-World" None
              ingestedWorld) as (H & _).
  apply H. reflexivity.
Defined.

(** One pass of the loop body, with what it does to the stores. *)
Lemma storeOne_touches env repoId i c s :
  exists s',
    storeOne env repoId i c (analyzeCommit c) s = (s', Ok tt) /\
    Advances s s'
      (if rowWriteFails env i then [] else [commitRow env repoId c])
      (match failureOf env i c with
       | Some e => [failureMessage c e]
       | None => []
       end) /\
    Touches repoId s s'
      (if rowWriteFails env i then [] else [commitRow env repoId c])
      (if negb (commitFails env i c) && diffWritten c then 1 else 0).
Proof.
  unfold storeOne, tryCatch, mbind, M_bind, onWorld, createCommit, storeCommitDiff,
    pushCommit, pushError, incrLearningCommits, updateResult, modify, mret, M_ret,
    commitFails, diffWriteFails, rowWriteFails, failureOf, diffWritten, isSome.
  destruct (fault_createCommit env i) as [e|] eqn:Ec; simpl.
  - eexists. split; [reflexivity|].
    split; split; simpl; rewrite ?app_nil_r, ?Z.add_0_r; auto.
  - destruct (isLearningWorthy (analyzeCommit c)) eqn:Ew; simpl.
    + destruct (files c) as [fs|] eqn:Ef; simpl.
      * destruct (fault_storeCommitDiff env i) as [e|] eqn:Ed; simpl.
        -- eexists. split; [reflexivity|].
           split; split; simpl; rewrite ?app_nil_r, ?Z.add_0_r; auto.
        -- eexists. split; [reflexivity|].
           split; split; simpl; rewrite ?app_nil_r, ?Z.add_0_r; auto.
           intros k Hk. apply lookup_insert_ne. intros Heq. exact (Hk (sha c) (eq_sym Heq)).
      * eexists. split; [reflexivity|].
        split; split; simpl; rewrite ?app_nil_r, ?Z.add_0_r; auto.
    + eexists. split; [reflexivity|].
      split; split; simpl; rewrite ?app_nil_r, ?Z.add_0_r; auto.
Qed.

Lemma storeAll_touches env repoId cs : forall i s,
  exists s',
    storeAll env repoId i (map (fun c => (c, analyzeCommit c)) cs) s = (s', Ok tt) /\
    Advances s s' (storedRows env repoId i cs) (recordedErrors env i cs) /\
    Touches repoId s s' (storedRows env repoId i cs) (learnedCount env i cs).
Proof.
  induction cs as [|c cs IH]; intros i s; simpl.
  - exists s. split; [reflexivity|].
    split; split; rewrite ?app_nil_r, ?Z.add_0_r; auto.
  - destruct (storeOne_touches env repoId i c s) as (s1 & H1 & A1 & T1).
    destruct (IH (S i) s1) as (s2 & H2 & A2 & T2).
    exists s2. split; [rewrite (IngestFacts.bind_ok _ _ _ _ _ H1); exact H2|].
    destruct A1 as [Ar1 At1 Ac1 Ae1 Ak1 Ap1], A2 as [Ar2 At2 Ac2 Ae2 Ak2 Ap2].
    destruct T1 as [Tl1 Tc1 Tr1], T2 as [Tl2 Tc2 Tr2].
    split; split; try congruence.
    + rewrite Ac2, Ac1, <- app_assoc. reflexivity.
    + rewrite Ae2, Ae1, <- app_assoc. reflexivity.
    + rewrite Tl2, Tl1. lia.
    + rewrite Tc2, Tc1, <- app_assoc. reflexivity.
    + intros k Hk. rewrite Tr2, Tr1 by exact Hk. reflexivity.
Qed.

(** How the loop counts. *)
Lemma loop_counts env repoId cs : forall i,
  0 <= learnedCount env i cs /\
  learnedCount env i cs + Z.of_nat (List.length (recordedErrors env i cs))
    <= Z.of_nat (List.length cs) /\
  learnedCount env i cs <= Z.of_nat (List.length (storedRows env repoId i cs)) /\
  (List.length (storedRows env repoId i cs) <= List.length cs)%nat /\
  (List.length cs <=
     List.length (storedRows env repoId i cs) + List.length (recordedErrors env i cs))%nat.
Proof.
  induction cs as [|c cs IH]; intros i; simpl; [lia|].
  specialize (IH (S i)). rewrite !length_app.
  rewrite IngestFacts.commitFails_failureOf.
  unfold rowWriteFails, failureOf, isSome.
  destruct (fault_createCommit env i); simpl.
  - lia.
  - destruct (diffWritten c); simpl; [destruct (fault_storeCommitDiff env i); simpl|]; lia.
Qed.

Lemma storedRows_repo env repoId cs : forall i,
  Forall (fun c => commit_repo_id c = repoId) (storedRows env repoId i cs).
Proof.
  induction cs as [|c cs IH]; intros i; simpl; [constructor|].
  apply Forall_app. split; [|apply IH].
  destruct (rowWriteFails env i); repeat constructor.
Qed.

(** The anatomy of a run: it fails before the repository row and changes
    nothing; or it writes the row and fails before the loop; or it goes
    through the loop, and then returns or fails on the last status write. *)
Lemma ingest_anatomy env url options w :
  (exists e, ingestRepository env url options w = (w, Err e)) \/
  (exists info w' r,
     WritesRow env url w info /\
     ingestRepository env url options w = (w', r) /\
     repositories w' = repositories w ++ [rowFor env url info] /\
     (forall k, k <> analysisKey (repoIdOf url) -> kv w' !! k = kv w !! k) /\
     ((commits w' = commits w /\ r2 w' = r2 w /\ exists e, r = Err e) \/
      (exists cs,
         ReachesLoop env url options w info cs /\
         commits w' = commits w ++ storedRows env (repoIdOf url) 0 cs /\
         (forall k, (forall h, k <> diffKey (repoIdOf url) h) -> r2 w' !! k = r2 w !! k) /\
         match r with
         | Ok res =>
             totalCommits res = List.length cs /\
             res_commits res = storedRows env (repoIdOf url) 0 cs /\
             errors res = recordedErrors env 0 cs /\
             learningCommits res = learnedCount env 0 cs
         | Err e => exists e0, fault_setAnalysisStatus env completed = Some e0
         end))).
Proof.
  destruct (isValid (parseRepositoryUrl url)) eqn:Hv.
  2:{ left. apply IngestFacts.ingest_before_row. intros info (Hv' & _). congruence. }
  destruct (List.find (fun r => String.eqb (github_url r) url) (repositories w)) eqn:Hf.
  { left. apply IngestFacts.ingest_before_row. intros info (_ & Hf' & _). congruence. }
  destruct (gh_repository env (owner (parseRepositoryUrl url))
              (repo (parseRepositoryUrl url))) as [info|e] eqn:Hg.
  2:{ left. apply IngestFacts.ingest_before_row. intros info (_ & _ & Hg' & _). congruence. }
  destruct (fault_createRepository env) as [e|] eqn:Hc.
  { left. apply IngestFacts.ingest_before_row. intros info' (_ & _ & _ & Hc'). congruence. }
  right. exists info.
  assert (Hrow : WritesRow env url w info) by (repeat split; assumption).
  destruct (fault_setAnalysisStatus env analyzing) as [ea|] eqn:Ha.
  { open_run. rewrite Hv. simpl negb. cbv iota.
    open_calls. simpl. rewrite Hf, Hg, Hc. simpl. rewrite Ha. simpl.
    destruct (fault_setAnalysisStatus env Storage.error) as [ee|] eqn:He; simpl;
      eexists _, _; (split; [exact Hrow|]); (split; [reflexivity|]);
      (split; [reflexivity|]); simpl.
    - split; [reflexivity|]. left. eauto.
    - split; [intros k Hk; off_key Hk; reflexivity|]. left. eauto. }
  destruct (candidates env url options info) as [cs|eg] eqn:Hcs.
  2:{ unfold candidates in Hcs.
    open_run. rewrite Hv. simpl negb. cbv iota.
    open_calls. simpl. rewrite Hf, Hg, Hc. simpl. rewrite Ha, Hcs. simpl.
    destruct (fault_setAnalysisStatus env Storage.error) as [ee|] eqn:He; simpl;
      eexists _, _; (split; [exact Hrow|]); (split; [reflexivity|]);
      (split; [reflexivity|]); simpl.
    - split; [intros k Hk; off_key Hk; reflexivity|]. left. eauto.
    - split; [|left; eauto].
      intros k Hk. off_key Hk. reflexivity. }
  assert (Hreach : ReachesLoop env url options w info cs) by (repeat split; assumption).
  unfold candidates in Hcs.
  open_run. rewrite Hv. simpl negb. cbv iota.
  open_calls. simpl. rewrite Hf, Hg, Hc. simpl. rewrite Ha, Hcs.
  rewrite IngestFacts.combine_analyses.
  match goal with |- context [storeAll ?e ?id ?i _ ?s] =>
    destruct (storeAll_touches e id cs i s) as (s3 & H3 & A3 & T3) end.
  rewrite H3. simpl.
  destruct A3 as [Ar At Acs Aes Akv Arepos]. destruct T3 as [Tl Tc Tr]. simpl in *.
  destruct (fault_setAnalysisStatus env completed) as [ec|] eqn:Hdone; simpl.
  - rewrite Ar.
    destruct (fault_setAnalysisStatus env Storage.error) as [ee|] eqn:He; simpl;
      eexists _, _; (split; [exact Hrow|]); (split; [reflexivity|]);
      (split; [exact Arepos|]); simpl.
    + split; [intros k Hk; rewrite Akv; off_key Hk; reflexivity|].
      right. exists cs. split; [exact Hreach|]. split; [exact Tc|]. split; [exact Tr|].
      eauto.
    + split; [intros k Hk; off_key Hk; rewrite Akv; off_key Hk; reflexivity|].
      right. exists cs. split; [exact Hreach|]. split; [exact Tc|]. split; [exact Tr|].
      eauto.
  - eexists _, _. split; [exact Hrow|]. split; [reflexivity|].
    split; [exact Arepos|]. simpl.
    split; [intros k Hk; off_key Hk; rewrite Akv; off_key Hk; reflexivity|].
    right. exists cs. split; [exact Hreach|]. split; [exact Tc|]. split; [exact Tr|].
    repeat split; assumption.
Qed.


Lemma candidates_within_limit env url options info cs :
  candidates env url options info = Ok cs ->
  0 < intOr (optionsCommitLimit options) 50 ->
  (List.length cs <= Z.to_nat (intOr (optionsCommitLimit options) 50))%nat.
Proof.
  unfold candidates, getLearningCommits. intros H Hpos.
  set (lim := intOr (optionsCommitLimit options) 50) in *.
  assert (Hl : intOr (Some lim) 20 = lim).
  { unfold intOr at 1. destruct (Z.eqb_spec lim 0); [lia | reflexivity]. }
  rewrite Hl in H.
  destruct (getCommits env _ _ _ _) as [listing|e]; [|discriminate].
  inversion H; subst cs. apply ClientMore.slice0_length. exact Hpos.
Qed.

(** X11.  The counters of a returned result add up.  Every candidate either
    has its row in [commits] or a message in [errors] or both, and is counted
    in [learningCommits] only when nothing failed for it: so
    [learningCommits + |errors| <= totalCommits],
    [learningCommits <= |commits| <= totalCommits <= |commits| + |errors|].  The
    rows in [commits] are the rows the run has added to the commit table, and
    for a positive limit (50 when none is given) [totalCommits] does not
    exceed it. *)
Theorem result_counters_add_up env url options w w' res :
  ingestRepository env url options w = (w', Ok res) ->
  0 <= learningCommits res /\
  learningCommits res + Z.of_nat (List.length (errors res)) <= Z.of_nat (totalCommits res) /\
  learningCommits res <= Z.of_nat (List.length (res_commits res)) /\
  (List.length (res_commits res) <= totalCommits res)%nat /\
  (totalCommits res <= List.length (res_commits res) + List.length (errors res))%nat /\
  commits w' = commits w ++ res_commits res /\
  (0 < intOr (optionsCommitLimit options) 50 ->
     (totalCommits res <= Z.to_nat (intOr (optionsCommitLimit options) 50))%nat).
Proof.
  intros Hrun.
  destruct (ingest_anatomy env url options w) as [(e & He) | (info & w1 & r & _ & Hrun' & _ & _ & Hcase)].
  { congruence. }
  rewrite Hrun in Hrun'. inversion Hrun'; subst w1 r. clear Hrun'.
  destruct Hcase as [(_ & _ & e & He) | (cs & Hreach & Hcommits & _ & Ht & Hc & He & Hl)];
    [discriminate|].
  destruct (loop_counts env (repoIdOf url) cs 0) as (H0 & H1 & H2 & H3 & H4).
  rewrite Ht, Hc, He, Hl.
  repeat split; try assumption.
  intros Hpos. destruct Hreach as (_ & _ & Hcs).
  apply (candidates_within_limit env url options info cs Hcs Hpos).
Qed.

(** The run in which the insert of the second row fails: two candidates, one
    row, one error, one commit counted as learning. *)
Lemma result_counters_add_up_witness :
  exists w' res,
    ingestRepository rowFaultEnv sampleUrl None emptyWorld = (w', Ok res) /\
    learningCommits res + Z.of_nat (List.length (errors res)) <= Z.of_nat (totalCommits res) /\
    commits w' = res_commits res.
Proof.
  destruct (ingestRepository rowFaultEnv sampleUrl None emptyWorld) as [w' [res|e]] eqn:E;
    [|vm_compute in E; discriminate].
  destruct (result_counters_add_up _ _ _ _ _ _ E) as (_ & H & _ & _ & _ & Hc & _).
  exists w', res. repeat split; assumption.
Defined.

(** X12.  A run leaves alone what is not its own.  Whatever the outcome, the
    repository and commit tables only grow at their end, by at most one
    repository row, for this URL, and by commit rows of this repository;
    every status entry but the one of this repository is as it was; and so is
    every object of the bucket that is not a diff of this repository. *)
Theorem ingest_touches_only_its_repository env url options w :
  Framed url w (fst (ingestRepository env url options w)).
Proof.
  destruct (ingest_anatomy env url options w)
    as [(e & ->) | (info & w1 & r & Hrow & -> & Hrepos & Hkv & Hcase)]; simpl.
  - split.
    + exists []. rewrite app_nil_r. repeat split; [simpl; lia | constructor].
    + exists []. rewrite app_nil_r. repeat split. constructor.
    + reflexivity.
    + reflexivity.
  - split.
    + exists [rowFor env url info]. split; [exact Hrepos|]. split; [simpl; lia|].
      repeat constructor.
    + destruct Hcase as [(Hc & _) | (cs & _ & Hc & _)].
      * exists []. rewrite app_nil_r. split; [exact Hc | constructor].
      * eexists. split; [exact Hc | apply storedRows_repo].
    + exact Hkv.
    + destruct Hcase as [(_ & Hr & _) | (cs & _ & _ & Hr & _)].
      * intros k _. rewrite Hr. reflexivity.
      * exact Hr.
Qed.

(** A run for a URL that parses and has no row gets past the dedup guard:
    when GitHub does not give the repository, or the insert of the repository
    row is rejected, it throws that error and leaves the stores alone. *)
Lemma ingest_stops_at_insert env url options w :
  isValid (parseRepositoryUrl url) = true ->
  ~ Ingested url w ->
  (forall e,
     gh_repository env (owner (parseRepositoryUrl url)) (repo (parseRepositoryUrl url))
       = Err e ->
     ingestRepository env url options w = (w, Err e)) /\
  (forall info e,
     gh_repository env (owner (parseRepositoryUrl url)) (repo (parseRepositoryUrl url))
       = Ok info ->
     fault_createRepository env = Some e ->
     ingestRepository env url options w = (w, Err e)).
Proof.
  intros Hv Hnot.
  assert (Hfind : List.find (fun r => String.eqb (github_url r) url) (repositories w) = None).
  { destruct (List.find _ _) as [r|] eqn:E; [|reflexivity].
    exfalso. apply Hnot. apply find_some in E as [Hin Heq].
    apply String.eqb_eq in Heq. unfold Ingested. rewrite <- Heq. apply in_map. exact Hin. }
  split.
  - intros e Hg. open_run. rewrite Hv. simpl negb. cbv iota.
    open_calls. simpl. rewrite Hfind, Hg. reflexivity.
  - intros info e Hg Hc. open_run. rewrite Hv. simpl negb. cbv iota.
    open_calls. simpl. rewrite Hfind, Hg, Hc. reflexivity.
Qed.

(** X9.  The spellings of one repository name one repository, and the dedup
    guard does not know it.  Whichever accepted prefix and suffix surround
    [owner/name], the identifier that ingestion derives is [owner/name].  The
    guard compares URLs: when one spelling is stored, a run for another
    spelling, which has no row, is not refused by it.  It asks GitHub for
    [owner/name] and inserts a repository row whose identifier is that of the
    stored row; when GitHub fails, or the insert is rejected, as the primary
    key makes it, the run throws that error instead of the already-exists
    error, and leaves every store as it was. *)
Theorem url_spellings_name_one_repository (pre pre' sfx sfx' : string) (o n : string) :
  In pre acceptedPrefixes -> In sfx acceptedSuffixes ->
  In pre' acceptedPrefixes -> In sfx' acceptedSuffixes ->
  validOwner o -> validName n ->
  let url := pre +:+ o +:+ "/" +:+ n +:+ sfx in
  let url' := pre' +:+ o +:+ "/" +:+ n +:+ sfx' in
  repoIdOf url = o +:+ "/" +:+ n /\
  repoIdOf url' = repoIdOf url /\
  forall env options w,
    IdsFromUrls w -> Ingested url w -> ~ Ingested url' w ->
    (forall info,
       exists r, In r (repositories w) /\ github_url r = url /\
                 repo_id (rowFor env url' info) = repo_id r) /\
    (forall e,
       gh_repository env o n = Err e ->
       ingestRepository env url' options w = (w, Err e)) /\
    (forall info e,
       gh_repository env o n = Ok info ->
       fault_createRepository env = Some e ->
       ingestRepository env url' options w = (w, Err e)).
Proof.
  intros Hp Hs Hp' Hs' Ho Hn url url'.
  pose proof (ClientFacts.firstMatch_accepts pre o n sfx Hp Ho Hn Hs) as Hm.
  pose proof (ClientFacts.firstMatch_accepts pre' o n sfx' Hp' Ho Hn Hs') as Hm'.
  assert (Hid : repoIdOf url = o +:+ "/" +:+ n).
  { unfold repoIdOf, parseRepositoryUrl, url. rewrite Hm. reflexivity. }
  assert (Hid' : repoIdOf url' = o +:+ "/" +:+ n).
  { unfold repoIdOf, parseRepositoryUrl, url'. rewrite Hm'. reflexivity. }
  assert (Hparse : isValid (parseRepositoryUrl url') = true /\
                   owner (parseRepositoryUrl url') = o /\
                   repo (parseRepositoryUrl url') = n).
  { unfold parseRepositoryUrl, url'. rewrite Hm'. repeat split. }
  destruct Hparse as (Hv & Ho' & Hn').
  split; [exact Hid|]. split; [congruence|].
  intros env options w Hids Hin Hnot.
  destruct (ingest_stops_at_insert env url' options w Hv Hnot) as [Hgh Hins].
  rewrite Ho', Hn' in Hgh, Hins.
  split; [|split; [exact Hgh | exact Hins]].
  intros info. unfold Ingested in Hin. apply in_map_iff in Hin as (r & Hurl & Hr).
  exists r. split; [exact Hr|]. split; [exact Hurl|].
  unfold IdsFromUrls in Hids. rewrite Forall_forall in Hids.
  rewrite (Hids r) by (apply list_elem_of_In; exact Hr).
  rewrite Hurl. simpl. congruence.
Qed.

(** The sample repository is stored under its https spelling; the bare
    spelling is not refused as known: the insert under the identifier that
    is taken is what fails. *)
Lemma url_spellings_name_one_repository_witness :
  repoIdOf "github.com/octocat/Hello-World" = repoIdOf sampleUrl /\
  ingestRepository keyTakenEnv "github.com/octocat/Hello-World" None ingestedWorld
  = (ingestedWorld,
     Err (JsError "D1_ERROR: UNIQUE constraint failed: repositories.id")).
Proof.
  destruct (url_spellings_name_one_repository
              "https://github.com/" "github.com/" "" "" "octocat" "Hello-World")
    as (_ & Hsame & Hrun);
    [unfold acceptedPrefixes; simpl; auto | unfold acceptedSuffixes; simpl; auto
    | unfold acceptedPrefixes; simpl; auto | unfold acceptedSuffixes; simpl; auto
    | split; [discriminate | reflexivity] | split; [discriminate | reflexivity] |].
  split; [exact Hsame|].
  destruct (Hrun keyTakenEnv None ingestedWorld) as (_ & _ & Hins).
  - repeat constructor.
  - left. reflexivity.
  - intros [Heq | []]. discriminate Heq.
  - exact (Hins sampleInfo _ eq_refl eq_refl).
Defined.

End IngestMore.

(** ** Learner sessions, further *)

Module SessionMore.
Import Tutorial SessionSpec Samples.

Ltac open_session := SessionFacts.open_session.

(** [previousStep] above step 0. *)
Lemma previousStep_moves_back st sid s t c :
  Known st sid s t c ->
  0 < current_step s ->
  let s' := withStep s (current_step s - 1) in
  let st' := withSessions st (alter (fun x => withStep x (current_step s - 1)) sid (sessions st)) in
  previousStep sid st = (st', Ok (mkSession s' t c (current_step s - 1))) /\
  Known st' sid s' t c.
Proof.
  intros (Hs & Ht & Hc) Hpos s' st'.
  assert (HK : Known st' sid s' t c).
  { repeat split; simpl; [rewrite lookup_alter_eq, Hs; reflexivity | exact Ht | exact Hc]. }
  split; [|exact HK].
  open_session. rewrite Hs.
  destruct (Z.leb_spec (current_step s) 0); [lia|].
  simpl. rewrite lookup_alter_eq, Hs. simpl. rewrite Ht, Hc. reflexivity.
Qed.

(** X13.  [previousStep] above step 0 moves the session one step back and
    touches nothing else of it: a completed session stays completed, with
    the same [completed_at], while it is walked back. *)
Theorem previous_step_moves_back (sid : string) (st : Stores)
    (s : LearnerSession) (t : TutorialRow) (c : TutorialContent) :
  Known st sid s t c ->
  0 < current_step s ->
  exists st' ts,
    previousStep sid st = (st', Ok ts) /\
    session ts = withStep s (current_step s - 1) /\
    completed_at (session ts) = completed_at s /\
    currentStepContent ts = stepAt (steps c) (current_step s - 1) /\
    Known st' sid (session ts) t c.
Proof.
  intros HK Hpos.
  destruct (previousStep_moves_back st sid s t c HK Hpos) as [Hrun HK'].
  eexists _, _. split; [exact Hrun|]. repeat split; apply HK'.
Qed.

(** The session of the sample stores, completed on step 0 and moved to step
    1 by [nextStep], is walked back to step 0 and is still completed. *)
Lemma previous_step_moves_back_witness :
  exists st' ts,
    previousStep "s1" (afterNexts 1 "2024-01-04T00:00:00Z" "s1" completedEarly) = (st', Ok ts) /\
    current_step (session ts) = 0 /\
    completed_at (session ts) = Some "2024-01-03T00:05:00Z".
Proof.
  assert (HK : exists s t c,
            Known (afterNexts 1 "2024-01-04T00:00:00Z" "s1" completedEarly) "s1" s t c /\
            current_step s = 1 /\ completed_at s = Some "2024-01-03T00:05:00Z").
  { eexists _, _, _. split; [|split]; [repeat split; vm_compute; reflexivity | reflexivity..]. }
  destruct HK as (s & t & c & HK & Hstep & Hdone).
  destruct (previous_step_moves_back "s1" _ s t c HK ltac:(lia))
    as (st' & ts & Hrun & Hs & Hc & _).
  exists st', ts. split; [exact Hrun|]. rewrite Hs, Hc in *. simpl.
  split; [lia | exact Hdone].
Defined.


Lemma withStep_back s k : current_step s = k -> forall j, withStep (withStep s j) k = s.
Proof. intros <- j. destruct s; reflexivity. Qed.

(** X14.  Next and previous undo each other.  Below the last step, and not
    below step 0, [previousStep] after [nextStep] puts the session row back as
    it was; above step 0, and not beyond the last step, so does [nextStep]
    after [previousStep].  Tutorials and contents are not touched. *)
Theorem next_and_previous_undo_each_other (now sid : string) (st : Stores)
    (s : LearnerSession) (t : TutorialRow) (c : TutorialContent) :
  Known st sid s t c ->
  (0 <= current_step s < lastIndex c ->
     exists st1 ts1 st2 ts2,
       nextStep now sid st = (st1, Ok ts1) /\
       previousStep sid st1 = (st2, Ok ts2) /\
       session ts2 = s /\ sessions st2 = sessions st /\
       tutorials st2 = tutorials st /\ contents st2 = contents st) /\
  (0 < current_step s <= lastIndex c ->
     exists st1 ts1 st2 ts2,
       previousStep sid st = (st1, Ok ts1) /\
       nextStep now sid st1 = (st2, Ok ts2) /\
       session ts2 = s /\ sessions st2 = sessions st /\
       tutorials st2 = tutorials st /\ contents st2 = contents st).
Proof.
  intros HK. pose proof HK as (Hs & _). split; intros Hrange.
  - destruct (SessionFacts.nextStep_advances now st sid s t c HK) as [Hrun1 HK1]; [lia|].
    destruct (previousStep_moves_back _ sid _ t c HK1) as [Hrun2 HK2]; [simpl; lia|].
    eexists _, _, _, _. split; [exact Hrun1|]. split; [exact Hrun2|]. simpl.
    replace (current_step s + 1 - 1) with (current_step s) by lia.
    split; [apply withStep_back; reflexivity|]. split; [|split; reflexivity].
    rewrite alter_alter_eq. apply alter_id. intros x Hx.
    rewrite Hs in Hx. inversion Hx; subst x. apply withStep_back. reflexivity.
  - destruct (previousStep_moves_back st sid s t c HK) as [Hrun1 HK1]; [lia|].
    destruct (SessionFacts.nextStep_advances now _ sid _ t c HK1) as [Hrun2 HK2]; [simpl; lia|].
    eexists _, _, _, _. split; [exact Hrun1|]. split; [exact Hrun2|]. simpl.
    replace (current_step s - 1 + 1) with (current_step s) by lia.
    split; [apply withStep_back; reflexivity|]. split; [|split; reflexivity].
    rewrite alter_alter_eq. apply alter_id. intros x Hx.
    rewrite Hs in Hx. inversion Hx; subst x. apply withStep_back. reflexivity.
Qed.

(** On the sample session, completed on step 0 of three: next, then previous. *)
Lemma next_and_previous_undo_each_other_witness :
  exists st1 ts1 st2 ts2,
    nextStep "2024-01-04T00:00:00Z" "s1" completedEarly = (st1, Ok ts1) /\
    previousStep "s1" st1 = (st2, Ok ts2) /\
    sessions st2 = sessions completedEarly.
Proof.
  assert (HK : exists s t c, Known completedEarly "s1" s t c /\
                             current_step s = 0 /\ lastIndex c = 2).
  { eexists _, _, _. repeat split. }
  destruct HK as (s & t & c & HK & Hstep & Hlast).
  destruct (next_and_previous_undo_each_other "2024-01-04T00:00:00Z" "s1" _ s t c HK)
    as [H _].
  destruct H as (st1 & ts1 & st2 & ts2 & H1 & H2 & _ & H3 & _); [lia|].
  exists st1, ts1, st2, ts2. repeat split; assumption.
Defined.

(** X15.  The step stays on the tutorial.  A session whose step is between 0
    and [K - 1] is still there after [nextStep], after [previousStep] and
    after the complete action; each of them returns, and returns the row that
    the store then holds. *)
Theorem step_stays_in_range (now sid : string) (st : Stores)
    (s : LearnerSession) (t : TutorialRow) (c : TutorialContent) :
  Known st sid s t c ->
  0 <= current_step s <= lastIndex c ->
  forall op, In op [nextStep now sid; previousStep sid; completeAction now sid] ->
  exists st' ts,
    op st = (st', Ok ts) /\
    0 <= current_step (session ts) <= lastIndex c /\
    Known st' sid (session ts) t c.
Proof.
  intros HK Hrange op [<- | [<- | [<- | []]]].
  - destruct (Z.lt_ge_cases (current_step s) (lastIndex c)) as [Hlt | Hge].
    + destruct (SessionFacts.nextStep_advances now st sid s t c HK Hlt) as [Hrun HK'].
      eexists _, _. split; [exact Hrun|]. split; [simpl; lia | exact HK'].
    + destruct (SessionFacts.nextStep_completes now st sid s t c HK Hge) as [Hrun HK'].
      eexists _, _. split; [exact Hrun|]. split; [simpl; lia | exact HK'].
  - destruct (Z.lt_ge_cases 0 (current_step s)) as [Hpos | Hzero].
    + destruct (previousStep_moves_back st sid s t c HK Hpos) as [Hrun HK'].
      eexists _, _. split; [exact Hrun|]. split; [simpl; lia | exact HK'].
    + exists st, (mkSession s t c (current_step s)).
      pose proof (SessionFacts.getSession_known st sid s t c HK) as Hget.
      destruct HK as (Hs & Ht & Hc).
      split; [|split; [simpl; lia | repeat split; assumption]].
      unfold previousStep, mbind, M_bind, db_getSession. rewrite Hs.
      destruct (Z.leb_spec (current_step s) 0); [exact Hget | lia].
  - destruct (SessionFacts.completeAction_completes now st sid s t c HK) as [Hrun HK'].
    eexists _, _. split; [exact Hrun|]. split; [simpl; lia | exact HK'].
Qed.

(** The sample session under [previousStep], on step 0. *)
Lemma step_stays_in_range_witness :
  exists st' ts,
    previousStep "s1" completedEarly = (st', Ok ts) /\
    0 <= current_step (session ts) <= 2.
Proof.
  assert (HK : exists s t c, Known completedEarly "s1" s t c /\
                             current_step s = 0 /\ lastIndex c = 2).
  { eexists _, _, _. repeat split. }
  destruct HK as (s & t & c & HK & Hstep & Hlast).
  destruct (step_stays_in_range "2024-01-04T00:00:00Z" "s1" _ s t c HK ltac:(lia)
              (previousStep "s1") ltac:(simpl; auto))
    as (st' & ts & Hrun & Hr & _).
  exists st', ts. split; [exact Hrun | lia].
Defined.

(** X16.  An unknown session id.  [getSession], [nextStep] and
    [previousStep] throw Session not found and change nothing.
    [completeSession] does not notice: it returns, having changed nothing,
    and it is the read-back of the complete action that throws. *)
Theorem unknown_session (now sid : string) (st : Stores) :
  sessions st !! sid = None ->
  getSession sid st = (st, Err (JsError "Session not found")) /\
  nextStep now sid st = (st, Err (JsError "Session not found")) /\
  previousStep sid st = (st, Err (JsError "Session not found")) /\
  (exists st', completeSession now sid st = (st', Ok tt) /\
               sessions st' = sessions st /\ tutorials st' = tutorials st /\
               contents st' = contents st) /\
  (exists st', completeAction now sid st = (st', Err (JsError "Session not found")) /\
               sessions st' = sessions st).
Proof.
  intros Hnone.
  split; [open_session; rewrite Hnone; reflexivity|].
  split; [open_session; rewrite Hnone; reflexivity|].
  split; [open_session; rewrite Hnone; reflexivity|].
  split.
  - eexists. split; [reflexivity|]. simpl. split; [apply alter_id'; exact Hnone|].
    split; reflexivity.
  - eexists. split.
    + open_session. rewrite lookup_alter_eq, Hnone. reflexivity.
    + simpl. apply alter_id'. exact Hnone.
Qed.

(** No session has been started on the sample stores. *)
Lemma unknown_session_witness :
  nextStep "2024-01-04T00:00:00Z" "s9" noSessions
  = (noSessions, Err (JsError "Session not found")).
Proof.
  destruct (unknown_session "2024-01-04T00:00:00Z" "s9" noSessions eq_refl) as (_ & H & _).
  exact H.
Defined.


(** X17.  Every session operation works on one session: whatever it returns
    or throws, the rows of the other sessions, the tutorials and the contents
    are as they were. *)
Theorem session_operations_are_local (now sid tid other : string) (st : Stores) :
  other <> sid ->
  forall op,
    In op [startSession now sid tid; getSession sid; nextStep now sid;
           previousStep sid; completeAction now sid] ->
    sessions (fst (op st)) !! other = sessions st !! other /\
    tutorials (fst (op st)) = tutorials st /\
    contents (fst (op st)) = contents st.
Proof.
  intros Hne op Hop.
  assert (Hins : forall x, <[sid := x]> (sessions st) !! other = sessions st !! other)
    by (intros; apply lookup_insert_ne; congruence).
  assert (Halt : forall f, alter f sid (sessions st) !! other = sessions st !! other)
    by (intros; apply lookup_alter_ne; congruence).
  destruct Hop as [<- | [<- | [<- | [<- | [<- | []]]]]]; open_session;
    repeat match goal with
           | |- context [match ?m !! ?k with _ => _ end] => destruct (m !! k); simpl
           | |- context [if ?b then _ else _] => destruct b; simpl
           end;
    rewrite ?Hins, ?Halt; repeat split.
Qed.

(** A second session is started beside the sample session. *)
Lemma session_operations_are_local_witness :
  sessions (fst (startSession "2024-01-04T00:00:00Z" "s2" "t1" completedEarly)) !! "s1"
  = sessions completedEarly !! "s1".
Proof.
  destruct (session_operations_are_local "2024-01-04T00:00:00Z" "s2" "t1" "s1"
              completedEarly ltac:(discriminate)
              (startSession "2024-01-04T00:00:00Z" "s2" "t1") ltac:(simpl; auto))
    as [H _].
  exact H.
Defined.

(** X18.  Nothing is written for a tutorial that cannot be read.
    [startSession] throws Tutorial not found, or Tutorial content not found,
    and creates no session; with an id that is taken it throws and leaves the
    session that has it alone; and [nextStep] on a session whose tutorial or
    content is gone throws before it moves anything. *)
Theorem unreadable_tutorial_writes_nothing (now sid tid : string) (st : Stores) :
  (tutorials st !! tid = None ->
     startSession now sid tid st = (st, Err (JsError "Tutorial not found"))) /\
  (forall t, tutorials st !! tid = Some t -> contents st !! tid = None ->
     startSession now sid tid st = (st, Err (JsError "Tutorial content not found"))) /\
  (forall t c s, tutorials st !! tid = Some t -> contents st !! tid = Some c ->
     sessions st !! sid = Some s ->
     exists e, startSession now sid tid st = (st, Err e)) /\
  (forall s, sessions st !! sid = Some s ->
     tutorials st !! session_tutorial_id s = None \/
     contents st !! session_tutorial_id s = None ->
     exists e, nextStep now sid st = (st, Err e)).
Proof.
  split; [|split; [|split]].
  - intros Ht. open_session. rewrite Ht. reflexivity.
  - intros t Ht Hc. open_session. rewrite Ht, Hc. reflexivity.
  - intros t c s Ht Hc Hs. open_session. rewrite Ht, Hc. simpl. rewrite Hs. eauto.
  - intros s Hs [Ht | Hc]; open_session; rewrite Hs.
    + rewrite Ht. eauto.
    + destruct (tutorials st !! session_tutorial_id s); [rewrite Hc|]; eauto.
Qed.

(** The sample stores hold tutorial t1 only. *)
Lemma unreadable_tutorial_writes_nothing_witness :
  startSession "2024-01-04T00:00:00Z" "s2" "t7" noSessions
  = (noSessions, Err (JsError "Tutorial not found")).
Proof.
  destruct (unreadable_tutorial_writes_nothing "2024-01-04T00:00:00Z" "s2" "t7" noSessions)
    as (H & _).
  apply H. reflexivity.
Defined.

(** X19.  The step handed to the learner is the step the session is on.
    After [nextStep] from step [k], with [0 <= k < K - 1], the current step
    content is the entry [k + 1] of the tutorial's steps, and there is one.
    On a tutorial without steps, [startSession] hands out no step and the
    first [nextStep] completes the session, on step 0. *)
Theorem current_step_content_follows (now sid : string) (st : Stores)
    (s : LearnerSession) (t : TutorialRow) (c : TutorialContent) :
  Known st sid s t c ->
  (0 <= current_step s < lastIndex c ->
     exists st' ts step,
       nextStep now sid st = (st', Ok ts) /\
       currentStepContent ts = Some step /\
       steps c !! Z.to_nat (current_step s + 1) = Some step) /\
  (steps c = [] -> current_step s = 0 ->
     stepAt (steps c) (current_step s) = None /\
     exists st' ts,
       nextStep now sid st = (st', Ok ts) /\
       completed (session ts) = true /\ current_step (session ts) = 0 /\
       currentStepContent ts = None).
Proof.
  intros HK. split.
  - intros Hrange.
    destruct (SessionFacts.nextStep_advances now st sid s t c HK) as [Hrun _]; [lia|].
    unfold lastIndex in Hrange.
    destruct (lookup_lt_is_Some_2 (steps c) (Z.to_nat (current_step s + 1))) as [step Hstep];
      [lia|].
    eexists _, _, step. split; [exact Hrun|]. split; [|exact Hstep].
    simpl. unfold stepAt.
    destruct (Z.ltb_spec (current_step s + 1) 0); [lia | exact Hstep].
  - intros Hemp H0. split; [rewrite Hemp, H0; reflexivity|].
    destruct (SessionFacts.nextStep_completes now st sid s t c HK) as [Hrun _].
    { unfold lastIndex. rewrite Hemp. simpl. lia. }
    eexists _, _. split; [exact Hrun|]. simpl.
    split; [reflexivity|]. split; [exact H0|]. rewrite Hemp, H0. reflexivity.
Qed.

(** The sample session moves to the second of the three steps. *)
Lemma current_step_content_follows_witness :
  exists st' ts,
    nextStep "2024-01-04T00:00:00Z" "s1" completedEarly = (st', Ok ts) /\
    currentStepContent ts = Some (sampleStep "2").
Proof.
  assert (HK : exists s t c, Known completedEarly "s1" s t c /\
                             current_step s = 0 /\ lastIndex c = 2 /\
                             steps c !! 1%nat = Some (sampleStep "2")).
  { eexists _, _, _. repeat split. }
  destruct HK as (s & t & c & HK & Hstep & Hlast & Hsecond).
  destruct (current_step_content_follows "2024-01-04T00:00:00Z" "s1" _ s t c HK) as [H _].
  destruct H as (st' & ts & step & Hrun & Hcur & Hat); [lia|].
  exists st', ts. split; [exact Hrun|]. rewrite Hcur.
  rewrite Hstep in Hat. change (Z.to_nat (0 + 1)) with 1%nat in Hat. congruence.
Defined.

End SessionMore.

(** ** Refreshing a repository *)

Module RefreshFacts.
Import JsString Analyzer Client Storage Ingest CommitIds IngestSpec Refresh Samples
  RefreshSamples IngestSamples.

#[local] Arguments Ingest.getLearningCommits : simpl never.

Ltac open_refresh :=
  unfold refreshRepository, getRepository, getCommitsByRepo, liftOutcome, throw,
    mbind, M_bind, mret, M_ret.

(** The loop of the refresh: it always comes to its end, with the messages
    of the failed commits, the rows of the others, and nothing else. *)
Lemma refreshAll_runs env repoId cs : forall i errs w,
  exists w',
    refreshAll env repoId i cs errs w = (w', Ok (errs ++ recordedErrors env i cs)) /\
    repositories w' = repositories w /\
    kv w' = kv w /\
    commits w' = commits w ++ storedRows env repoId i cs /\
    (forall k, (forall h, k <> diffKey repoId h) -> r2 w' !! k = r2 w !! k).
Proof.
  induction cs as [|c cs IH]; intros i errs w; simpl.
  - exists w. rewrite !app_nil_r. repeat split; reflexivity.
  - unfold mbind, M_bind, tryCatch, refreshOne, createCommit, storeCommitDiff,
      mret, M_ret, failureOf, rowWriteFails, diffWritten, isSome, failureMessage.
    simpl.
    destruct (fault_createCommit env i) as [e|] eqn:Ec; simpl.
    + destruct (IH (S i) (errs ++ ["Failed to store commit " +:+ sha c +:+ ": "
                                   +:+ renderThrown e]) w)
        as (w' & Hrun & Hrep & Hkv & Hcom & Hr2).
      exists w'. rewrite Hrun, <- app_assoc. repeat split; assumption.
    + destruct (isLearningWorthy (analyzeCommit c)) eqn:Ew; simpl.
      * destruct (files c) as [fs|] eqn:Ef; simpl.
        -- destruct (fault_storeCommitDiff env i) as [e|] eqn:Ed; simpl;
             match goal with
             | |- context [refreshAll env repoId (S i) cs ?es ?w1] =>
                 destruct (IH (S i) es w1) as (w' & Hrun & Hrep & Hkv & Hcom & Hr2)
             end; exists w'; rewrite Hrun; simpl in *;
             rewrite <- ?app_assoc in *; rewrite ?app_nil_r;
             repeat split; try assumption.
           intros k Hk. rewrite (Hr2 k Hk). apply lookup_insert_ne.
           intros Heq. exact (Hk (sha c) (eq_sym Heq)).
        -- destruct (IH (S i) errs
                       {| repositories := repositories w;
                          commits := commits w ++ [commitRow env repoId c];
                          kv := kv w; r2 := r2 w |})
             as (w' & Hrun & Hrep & Hkv & Hcom & Hr2).
           exists w'. unfold commitRow in *. simpl in *. rewrite Hrun.
           rewrite <- ?app_assoc in *. repeat split; assumption.
      * destruct (IH (S i) errs
                    {| repositories := repositories w;
                       commits := commits w ++ [commitRow env repoId c];
                       kv := kv w; r2 := r2 w |})
          as (w' & Hrun & Hrep & Hkv & Hcom & Hr2).
        exists w'. unfold commitRow in *. simpl in *. rewrite Hrun.
        rewrite <- ?app_assoc in *. repeat split; assumption.
Qed.

Lemma storedRows_of_repo env repoId cs : forall i,
  Forall (fun c => commit_repo_id c = repoId) (storedRows env repoId i cs).
Proof.
  induction cs as [|c cs IH]; intros i; simpl; [constructor|].
  apply Forall_app. split; [|apply IH].
  destruct (rowWriteFails env i); repeat constructor.
Qed.

(** A refresh that gets its listing, step by step. *)
Lemma refresh_anatomy byDateDesc env repoId options w row cs :
  rowOf repoId w = Some row ->
  isValid (parseRepositoryUrl (github_url row)) = true ->
  listed env (github_url row) options = Ok cs ->
  exists w',
    refreshRepository byDateDesc env repoId options w
    = (w', Ok {| newCommits := List.length (newOnes byDateDesc repoId w cs);
                 refreshErrors := recordedErrors env 0 (newOnes byDateDesc repoId w cs) |}) /\
    repositories w' = repositories w /\
    kv w' = kv w /\
    commits w' = commits w ++ storedRows env repoId 0 (newOnes byDateDesc repoId w cs) /\
    (forall k, (forall h, k <> diffKey repoId h) -> r2 w' !! k = r2 w !! k).
Proof.
  intros Hrow Hv Hl. unfold rowOf in Hrow. unfold listed in Hl.
  destruct (refreshAll_runs env repoId (newOnes byDateDesc repoId w cs) 0%nat [] w)
    as (w' & Hrun & Hrest).
  exists w'. split; [|exact Hrest].
  open_refresh. rewrite Hrow. cbv beta iota. rewrite Hv.
  change (negb true) with false. cbv beta iota. rewrite Hl. cbv beta iota zeta. unfold newOnes in Hrun. rewrite Hrun. reflexivity.
Qed.


(** A refresh that finds nothing new returns at once. *)
Lemma refresh_nothing_new byDateDesc env repoId options w row cs :
  rowOf repoId w = Some row ->
  isValid (parseRepositoryUrl (github_url row)) = true ->
  listed env (github_url row) options = Ok cs ->
  newOnes byDateDesc repoId w cs = [] ->
  refreshRepository byDateDesc env repoId options w
  = (w, Ok {| newCommits := 0; refreshErrors := [] |}).
Proof.
  intros Hrow Hv Hl Hnew. unfold rowOf in Hrow. unfold listed in Hl.
  unfold newOnes in Hnew.
  open_refresh. rewrite Hrow. cbv beta iota. rewrite Hv.
  change (negb true) with false. cbv beta iota. rewrite Hl. cbv beta iota zeta.
  rewrite Hnew. reflexivity.
Qed.

Lemma storedRows_from env repoId (P : Commit -> Prop) cs : forall i,
  Forall (fun c => P (commitRow env repoId c)) cs ->
  Forall P (storedRows env repoId i cs).
Proof.
  induction cs as [|c cs IH]; intros i Hall; simpl; [constructor|].
  inversion Hall as [|? ? Hc Hcs]; subst.
  apply Forall_app. split; [|apply IH; exact Hcs].
  destruct (rowWriteFails env i); repeat constructor. exact Hc.
Qed.

Lemma storedRows_all env repoId cs : forall i,
  (forall j, fault_createCommit env j = None) ->
  List.length (storedRows env repoId i cs) = List.length cs.
Proof.
  induction cs as [|c cs IH]; intros i Hq; simpl; [reflexivity|].
  unfold rowWriteFails, isSome. rewrite Hq. simpl. rewrite (IH (S i) Hq). reflexivity.
Qed.

Lemma unseen_spec known cs :
  Forall (fun c => sha c ∉ known) (unseen known cs) /\
  (List.length (unseen known cs) <= List.length cs)%nat /\
  (Forall (fun c => sha c ∈ known) cs -> unseen known cs = []).
Proof.
  unfold unseen. induction cs as [|c cs (IH1 & IH2 & IH3)]; simpl.
  - repeat split; auto.
  - destruct (bool_decide_reflect (sha c ∈ known)) as [Hin|Hout]; simpl.
    + repeat split; [exact IH1 | lia |].
      intros Hall. inversion Hall; subst. auto.
    + repeat split; [constructor; assumption | lia |].
      intros Hall. inversion Hall; subst. contradiction.
Qed.

(** A refresh that stops before its loop leaves the stores as they were. *)
Lemma refresh_stops_unchanged byDateDesc env repoId options w :
  rowOf repoId w = None \/
  (exists row, rowOf repoId w = Some row /\
     (isValid (parseRepositoryUrl (github_url row)) = false \/
      exists e, listed env (github_url row) options = Err e)) ->
  exists r, refreshRepository byDateDesc env repoId options w = (w, r).
Proof.
  unfold rowOf, listed. intros [Hrow | (row & Hrow & Hstop)]; open_refresh; rewrite Hrow.
  - eexists. reflexivity.
  - cbv beta iota.
    destruct (isValid (parseRepositoryUrl (github_url row))) eqn:Hv.
    + destruct Hstop as [Hbad | (e & Hl)]; [discriminate|].
      change (negb true) with false. cbv beta iota. rewrite Hl. eexists. reflexivity.
    + eexists. reflexivity.
Qed.

(** X20.  A refresh validates before it writes: for a repository id without
    a row it throws Repository not found, for a row whose URL does not parse
    Invalid repository URL in database, and when GitHub does not list the
    commits what GitHub threw; in all three cases every store is as it
    was. *)
Theorem refresh_fails_before_writing (byDateDesc : list Commit -> list Commit)
    (env : Env) (repoId : string) (options : option IngestOptions) (w : World) :
  (rowOf repoId w = None ->
     refreshRepository byDateDesc env repoId options w
     = (w, Err (JsError "Repository not found"))) /\
  (forall row,
     rowOf repoId w = Some row ->
     isValid (parseRepositoryUrl (github_url row)) = false ->
     refreshRepository byDateDesc env repoId options w
     = (w, Err (JsError "Invalid repository URL in database"))) /\
  (forall row e,
     rowOf repoId w = Some row ->
     isValid (parseRepositoryUrl (github_url row)) = true ->
     listed env (github_url row) options = Err e ->
     refreshRepository byDateDesc env repoId options w = (w, Err e)).
Proof.
  unfold rowOf, listed. split; [|split].
  - intros Hrow. open_refresh. rewrite Hrow. reflexivity.
  - intros row Hrow Hv. open_refresh. rewrite Hrow. cbv beta iota. rewrite Hv.
    reflexivity.
  - intros row e Hrow Hv Hl. open_refresh. rewrite Hrow. cbv beta iota. rewrite Hv.
    change (negb true) with false. cbv beta iota. rewrite Hl. reflexivity.
Qed.

(** A refresh on stores that hold no repository. *)
Lemma refresh_fails_before_writing_witness :
  refreshRepository newestFirst quietEnv "octocat/Hello-World" None emptyWorld
  = (emptyWorld, Err (JsError "Repository not found")).
Proof.
  destruct (refresh_fails_before_writing newestFirst quietEnv "octocat/Hello-World" None
              emptyWorld) as (H & _).
  apply H. reflexivity.
Defined.

(** X21.  What a refresh may touch.  Whatever it returns or throws, the
    repository table and every status entry are as they were: a refresh
    records no analysis status.  The commit table grows at its end, by rows
    of this repository; the bucket changes under diff keys of this
    repository only. *)
Theorem refresh_touches_commits_and_diffs_only (byDateDesc : list Commit -> list Commit)
    (env : Env) (repoId : string) (options : option IngestOptions) (w : World) :
  let w' := fst (refreshRepository byDateDesc env repoId options w) in
  repositories w' = repositories w /\
  kv w' = kv w /\
  (exists added, commits w' = commits w ++ added /\
                 Forall (fun c => commit_repo_id c = repoId) added) /\
  (forall k, (forall h, k <> diffKey repoId h) -> r2 w' !! k = r2 w !! k).
Proof.
  assert (Hsame : forall r,
            refreshRepository byDateDesc env repoId options w = (w, r) ->
            let w' := fst (refreshRepository byDateDesc env repoId options w) in
            repositories w' = repositories w /\ kv w' = kv w /\
            (exists added, commits w' = commits w ++ added /\
                           Forall (fun c => commit_repo_id c = repoId) added) /\
            (forall k, (forall h, k <> diffKey repoId h) -> r2 w' !! k = r2 w !! k)).
  { intros r Hr. rewrite Hr. simpl. repeat split; auto.
    exists []. rewrite app_nil_r. split; [reflexivity | constructor]. }
  pose proof (refresh_stops_unchanged byDateDesc env repoId options w) as Hstop.
  destruct (rowOf repoId w) as [row|] eqn:Hrow;
    [|destruct Hstop as [r Hr]; [left; reflexivity | exact (Hsame r Hr)]].
  destruct (isValid (parseRepositoryUrl (github_url row))) eqn:Hv;
    [|destruct Hstop as [r Hr]; [right; exists row; auto | exact (Hsame r Hr)]].
  destruct (listed env (github_url row) options) as [cs|e] eqn:Hl;
    [|destruct Hstop as [r Hr]; [right; exists row; eauto | exact (Hsame r Hr)]].
  destruct (refresh_anatomy byDateDesc env repoId options w row cs Hrow Hv Hl)
    as (w' & Hrun & Hrep & Hkv & Hcom & Hr2).
  rewrite Hrun. simpl. repeat split; try assumption.
  eexists. split; [exact Hcom | apply storedRows_of_repo].
Qed.

Lemma storedRows_and_failures env repoId cs : forall i,
  (List.length (storedRows env repoId i cs) + failedInserts env i (List.length cs))%nat
  = List.length cs.
Proof.
  induction cs as [|c cs IH]; intros i; simpl; [reflexivity|].
  specialize (IH (S i)). rewrite length_app. unfold rowWriteFails, isSome.
  destruct (fault_createCommit env i); simpl; lia.
Qed.

(** X22.  What a refresh reports.  When the repository has a row with a URL
    that parses and GitHub lists the commits, the refresh returns, and
    [newCommits] is the number of commits it tried to store, not of the rows
    it stored: it is the number of listed commits whose hash is not among
    those of the rows read, each of them counted whether or not its insert
    went through.  The rows added are those of the inserts that went
    through, so [newCommits] is the rows added plus the inserts that failed;
    [errors] holds the message of every commit with a failed write. *)
Theorem refresh_counts_attempts (byDateDesc : list Commit -> list Commit)
    (env : Env) (repoId : string) (options : option IngestOptions) (w : World)
    (row : Repository) (cs : list GitHubCommit) :
  rowOf repoId w = Some row ->
  isValid (parseRepositoryUrl (github_url row)) = true ->
  listed env (github_url row) options = Ok cs ->
  let tried := newOnes byDateDesc repoId w cs in
  exists w' r added,
    refreshRepository byDateDesc env repoId options w = (w', Ok r) /\
    newCommits r = List.length tried /\
    refreshErrors r = recordedErrors env 0 tried /\
    commits w' = commits w ++ added /\
    added = storedRows env repoId 0 tried /\
    newCommits r = (List.length added + failedInserts env 0 (List.length tried))%nat /\
    (newCommits r <= List.length cs)%nat /\
    (List.length added <= newCommits r)%nat /\
    (newCommits r <= List.length added + List.length (refreshErrors r))%nat /\
    ((forall i, fault_createCommit env i = None) ->
       List.length added = newCommits r).
Proof.
  intros Hrow Hv Hl tried.
  destruct (refresh_anatomy byDateDesc env repoId options w row cs Hrow Hv Hl)
    as (w' & Hrun & _ & _ & Hcom & _).
  fold tried in Hrun, Hcom.
  eexists w', _, _. split; [exact Hrun|]. simpl.
  split; [reflexivity|]. split; [reflexivity|]. split; [exact Hcom|].
  split; [reflexivity|].
  destruct (IngestMore.loop_counts env repoId tried 0%nat) as (_ & _ & _ & Hle & Hge).
  split; [symmetry; apply storedRows_and_failures|].
  split; [apply unseen_spec|]. split; [exact Hle|]. split; [exact Hge|].
  intros Hq. apply storedRows_all. exact Hq.
Qed.

(** One commit of the sample repository is stored, GitHub lists it with
    another, and the insert of that one is rejected: no row is added, and
    the refresh reports one new commit, with the message of the failure. *)
Lemma refresh_counts_attempts_witness :
  exists w',
    refreshRepository newestFirst firstInsertFails "octocat/Hello-World" None
      oneCommitStored
    = (w', Ok {| newCommits := 1;
                 refreshErrors :=
                   ["Failed to store commit a3: Error: D1_ERROR: insert failed"] |}) /\
    commits w' = commits oneCommitStored.
Proof.
  assert (Hrow : exists row,
            rowOf "octocat/Hello-World" oneCommitStored = Some row /\
            isValid (parseRepositoryUrl (github_url row)) = true /\
            listed firstInsertFails (github_url row) None = Ok sampleBatch).
  { eexists. repeat split. }
  destruct Hrow as (row & Hrow & Hv & Hl).
  destruct (refresh_counts_attempts newestFirst firstInsertFails "octocat/Hello-World" None
              oneCommitStored row sampleBatch Hrow Hv Hl)
    as (w' & r & added & Hrun & Hnew & Herrs & Hcom & Hadded & _).
  exists w'. split.
  - rewrite Hrun. destruct r as [k errs]. simpl in Hnew, Herrs. subst k errs.
    reflexivity.
  - rewrite Hcom, Hadded. reflexivity.
Defined.

(** X23.  A refresh does not store a commit twice, as long as it sees every
    stored row: when the repository has at most 50 commit rows, whatever the
    order the database returns them in, no row that the refresh adds has the
    hash of a row this repository had, and when every listed commit is
    stored already the refresh changes nothing and reports no new commit. *)
Theorem refresh_skips_stored_commits (byDateDesc : list Commit -> list Commit)
    (env : Env) (repoId : string) (options : option IngestOptions) (w : World)
    (row : Repository) (cs : list GitHubCommit) :
  let storedShas := map commit_sha (List.filter (ofRepo repoId) (commits w)) in
  (forall rows, byDateDesc rows ≡ₚ rows) ->
  (List.length (List.filter (ofRepo repoId) (commits w)) <= 50)%nat ->
  rowOf repoId w = Some row ->
  isValid (parseRepositoryUrl (github_url row)) = true ->
  listed env (github_url row) options = Ok cs ->
  exists w' r added,
    refreshRepository byDateDesc env repoId options w = (w', Ok r) /\
    commits w' = commits w ++ added /\
    Forall (fun c => ~ In (commit_sha c) storedShas) added /\
    (Forall (fun c => In (sha c) storedShas) cs ->
       w' = w /\ r = {| newCommits := 0; refreshErrors := [] |}).
Proof.
  intros storedShas Hperm Hfew Hrow Hv Hl.
  assert (Hknown : forall h,
            h ∈ shaSet (take 50 (byDateDesc (List.filter (ofRepo repoId) (commits w))))
            <-> In h storedShas).
  { intros h. unfold shaSet. rewrite elem_of_list_to_set, take_ge.
    - rewrite (Hperm _). apply list_elem_of_In.
    - rewrite (Hperm _). exact Hfew. }
  destruct (refresh_anatomy byDateDesc env repoId options w row cs Hrow Hv Hl)
    as (w' & Hrun & _ & _ & Hcom & _).
  destruct (unseen_spec
              (shaSet (take 50 (byDateDesc (List.filter (ofRepo repoId) (commits w)))))
              cs) as (Hout & _ & Hnone).
  eexists w', _, _. split; [exact Hrun|]. split; [exact Hcom|]. split.
  - apply storedRows_from. unfold newOnes.
    eapply Forall_impl; [exact Hout|]. intros c Hc Hin. simpl in Hin.
    apply Hc, Hknown. exact Hin.
  - intros Hall.
    assert (Hnew : newOnes byDateDesc repoId w cs = []).
    { apply Hnone. eapply Forall_impl; [exact Hall|]. intros c Hc. apply Hknown. exact Hc. }
    pose proof (refresh_nothing_new byDateDesc env repoId options w row cs
                  Hrow Hv Hl Hnew) as Hquiet.
    rewrite Hquiet in Hrun. injection Hrun as Hw _. rewrite Hnew.
    split; [symmetry; exact Hw | reflexivity].
Qed.

(** One commit of the sample repository is stored and GitHub lists it with
    another: the row that is added is not the one that was there. *)
Lemma refresh_skips_stored_commits_witness :
  exists w' r added,
    refreshRepository newestFirst quietEnv "octocat/Hello-World" None oneCommitStored
    = (w', Ok r) /\
    commits w' = commits oneCommitStored ++ added /\
    Forall (fun c => ~ In (commit_sha c) ["a2"]) added.
Proof.
  assert (Hrow : exists row,
            rowOf "octocat/Hello-World" oneCommitStored = Some row /\
            isValid (parseRepositoryUrl (github_url row)) = true /\
            listed quietEnv (github_url row) None = Ok sampleBatch).
  { eexists. repeat split. }
  destruct Hrow as (row & Hrow & Hv & Hl).
  assert (Hperm : forall rows, newestFirst rows ≡ₚ rows).
  { intros rows. unfold newestFirst. symmetry. apply Permutation_rev. }
  assert (Hfew : (List.length (List.filter (ofRepo "octocat/Hello-World")
                                 (commits oneCommitStored)) <= 50)%nat).
  { simpl. lia. }
  destruct (refresh_skips_stored_commits newestFirst quietEnv "octocat/Hello-World" None
              oneCommitStored row sampleBatch Hperm Hfew Hrow Hv Hl)
    as (w' & r & added & Hrun & Hcom & Hnot & _).
  exists w', r, added. repeat split; assumption.
Defined.

End RefreshFacts.

(** ** Template tutorials *)

Module GeneratorFacts.
Import JsString Analyzer Generator Samples.

Lemma fileType_named file : In (fileType file) typeNames.
Proof.
  unfold fileType, typeNames.
  repeat match goal with
         | |- context [if ?b then _ else _] => destruct b
         end; simpl; tauto.
Qed.

Lemma pushTo_keys groups type file :
  (In type (map fst groups) -> map fst (pushTo groups type file) = map fst groups) /\
  (~ In type (map fst groups) ->
     map fst (pushTo groups type file) = map fst groups ++ [type]).
Proof.
  induction groups as [|[k fs] rest [IHin IHout]]; simpl.
  - split; [intros [] | reflexivity].
  - destruct (String.eqb_spec k type) as [->|Hne]; simpl.
    + split; [reflexivity | intros Hnot; exfalso; apply Hnot; left; reflexivity].
    + split.
      * intros [Heq | Hin]; [congruence | rewrite (IHin Hin); reflexivity].
      * intros Hnot. rewrite IHout; [reflexivity | tauto].
Qed.

Lemma pushTo_concat groups type file :
  concat (map snd (pushTo groups type file)) ≡ₚ concat (map snd groups) ++ [file].
Proof.
  induction groups as [|[k fs] rest IH]; simpl; [reflexivity|].
  destruct (String.eqb_spec k type) as [->|Hne]; simpl.
  - rewrite <- !app_assoc. apply Permutation_app_head, Permutation_app_comm.
  - rewrite IH, app_assoc. reflexivity.
Qed.

Lemma pushTo_Forall (P Q : string * list GitHubFile -> Prop) groups type file :
  Forall P groups ->
  (forall g, P g -> Q g) ->
  Q (type, [file]) ->
  (forall fs, P (type, fs) -> Q (type, fs ++ [file])) ->
  Forall Q (pushTo groups type file).
Proof.
  intros Hall Hweak Hnew Hgrow.
  induction Hall as [|[k fs] rest Hg Hrest IH]; simpl.
  - repeat constructor. exact Hnew.
  - destruct (String.eqb_spec k type) as [->|Hne].
    + constructor; [apply Hgrow; exact Hg|].
      eapply Forall_impl; [exact Hrest | exact Hweak].
    + constructor; [apply Hweak; exact Hg | exact IH].
Qed.

Lemma groups_invariant files :
  NoDup (map fst (groupFilesByType files)) /\
  concat (map snd (groupFilesByType files)) ≡ₚ files /\
  Forall (GroupOf files) (groupFilesByType files).
Proof.
  unfold groupFilesByType.
  induction files as [|f seen (Hkeys & Hall & Hgroups)] using rev_ind; simpl.
  - repeat split; constructor.
  - rewrite fold_left_app. simpl.
    set (groups := fold_left (fun groups file => pushTo groups (fileType file) file) seen [])
      in *.
    split; [|split].
    + destruct (pushTo_keys groups (fileType f) f) as [Hin Hout].
      destruct (in_dec String.string_dec (fileType f) (map fst groups)) as [H|H].
      * rewrite (Hin H). exact Hkeys.
      * rewrite (Hout H). apply NoDup_app. repeat split; try assumption.
        -- intros x Hx Hx'. apply list_elem_of_In in Hx, Hx'.
           destruct Hx' as [<-|[]]. exact (H Hx).
        -- repeat constructor. intros Hnil. inversion Hnil.
    + rewrite pushTo_concat, Hall. reflexivity.
    + apply (pushTo_Forall (GroupOf seen) (GroupOf (seen ++ [f]))); try assumption.
      * intros g (Hne & Hty & Hsub). repeat split; try assumption.
        apply sublist_inserts_r. exact Hsub.
      * repeat split; simpl.
        -- discriminate.
        -- repeat constructor.
        -- apply sublist_inserts_l. reflexivity.
      * intros fs (Hne & Hty & Hsub). simpl in *. repeat split; simpl.
        -- destruct fs; discriminate.
        -- apply Forall_app. split; [exact Hty | repeat constructor].
        -- apply sublist_app; [exact Hsub | reflexivity].
Qed.

Lemma groups_count files :
  (List.length (groupFilesByType files) <= 6)%nat /\
  (files <> [] -> (1 <= List.length (groupFilesByType files))%nat).
Proof.
  destruct (groups_invariant files) as (Hkeys & Hall & Hgroups). split.
  - rewrite <- (length_map fst).
    change 6%nat with (List.length typeNames).
    apply NoDup_incl_length; [apply NoDup_ListNoDup; exact Hkeys|].
    intros k Hk. apply in_map_iff in Hk as ([k' fs] & <- & Hin).
    rewrite Forall_forall in Hgroups.
    destruct (Hgroups (k', fs)) as (Hne & Hty & _); [apply list_elem_of_In; exact Hin|].
    simpl in *. destruct fs as [|f fs]; [congruence|].
    inversion Hty; subst. apply fileType_named.
  - intros Hne. destruct (groupFilesByType files) as [|g gs] eqn:E; simpl; [|lia].
    simpl in Hall. apply Permutation_nil in Hall. congruence.
Qed.

(** X24.  Every changed file is filed once.  The groups of
    [groupFilesByType] have distinct names; together they hold the files,
    each once; no group is empty; a group holds files of its type only, in
    the order of the commit; and there are at most six groups. *)
Theorem files_grouped_once (files : list GitHubFile) :
  let groups := groupFilesByType files in
  NoDup (map fst groups) /\
  concat (map snd groups) ≡ₚ files /\
  Forall (fun g => snd g <> [] /\
                   Forall (fun f => fileType f = fst g) (snd g) /\
                   sublist (snd g) files) groups /\
  (List.length groups <= 6)%nat.
Proof.
  destruct (groups_invariant files) as (Hkeys & Hall & Hgroups).
  repeat split; try assumption. apply groups_count.
Qed.

(** X25.  The Templates group takes HTML files only: a file is filed under
    Templates exactly when its extension is html.  The extensions jsx and
    tsx, which the Templates list names too, are taken by the
    JavaScript/TypeScript list before it. *)
Theorem templates_hold_html_only (file : GitHubFile) :
  (fileType file = "Templates" <-> extension file = Some "html") /\
  (extension file = Some "jsx" \/ extension file = Some "tsx" ->
   fileType file = "JavaScript/TypeScript").
Proof.
  unfold fileType. split.
  - destruct (extension file) as [e|].
    + destruct (String.eqb_spec e "html") as [->|Hne]; [split; reflexivity|].
      destruct (String.eqb_spec e "") as [->|Hne']; [simpl; split; discriminate|].
      unfold arrayIncludes. simpl.
      repeat match goal with
             | |- context [String.eqb e ?s] =>
                 destruct (String.eqb_spec e s); simpl
             end; split; intros H; try discriminate H; congruence.
    + simpl. split; discriminate.
  - intros [-> | ->]; reflexivity.
Qed.

(** A component file. *)
Lemma templates_hold_html_only_witness :
  fileType (file "src/App.tsx" 10 2) = "JavaScript/TypeScript".
Proof.
  destruct (templates_hold_html_only (file "src/App.tsx" 10 2)) as [_ H].
  apply H. right. reflexivity.
Defined.

Lemma groupSteps_length genId groups : forall n,
  List.length (groupSteps genId n groups) = List.length groups.
Proof.
  induction groups as [|g rest IH]; intros n; simpl; [reflexivity|].
  rewrite IH. reflexivity.
Qed.

Lemma groupSteps_ids genId groups : forall n,
  map Tutorial.step_id (groupSteps genId n groups)
  = map genId (seq n (List.length groups)).
Proof.
  induction groups as [|[k fs] rest IH]; intros n; simpl; [reflexivity|].
  rewrite IH. reflexivity.
Qed.

(** X26.  The template tutorial has four steps for a commit without file
    data; otherwise it has one step for each group of files between an
    opening and a closing step, from three to eight steps in all.  The steps
    carry the identifiers in the order they were generated. *)
Theorem simple_tutorial_steps (genId : nat -> string) (context : Context) :
  let steps := st_steps (generateSimpleTutorial genId context) in
  List.length steps
  = (match ctx_files context with
     | [] => 4
     | _ :: _ => 2 + List.length (groupFilesByType (ctx_files context))
     end)%nat /\
  (3 <= List.length steps <= 8)%nat /\
  map Tutorial.step_id steps = map genId (seq 0 (List.length steps)).
Proof.
  unfold generateSimpleTutorial. cbv zeta. unfold st_steps.
  destruct (ctx_files context) as [|f fs] eqn:Ef.
  - simpl. repeat split; lia.
  - change (List.length (f :: fs) =? 0)%nat with false. cbv iota.
    destruct (groups_count (f :: fs)) as [Hmax Hmin].
    specialize (Hmin ltac:(discriminate)).
    set (groups := groupFilesByType (f :: fs)) in *.
    rewrite !length_app, groupSteps_length. simpl List.length.
    split; [lia|]. split; [lia|].
    rewrite !map_app, groupSteps_ids. simpl map.
    replace (1 + (List.length groups + 1))%nat with (S (List.length groups + 1)) by lia.
    simpl seq. f_equal.
    rewrite Nat.add_1_r, seq_S, map_app. reflexivity.
Qed.

End GeneratorFacts.

(** ** Replies of the model and conversation memory *)

Module AIMore.
Import JsString AI AISpec Memory ReplyText.

Lemma fromFirstOpen_skips pre rest :
  noOpen pre = true -> fromFirstOpen (pre +:+ String "{" rest) = Some rest.
Proof.
  induction pre as [|c pre IH]; simpl; intros Hpre.
  - rewrite ?ClientFacts.append_empty_l. reflexivity.
  - rewrite ?ClientFacts.append_cons. simpl.
    apply andb_true_iff in Hpre as [Hc Hpre].
    apply negb_true_iff in Hc. rewrite Hc. exact (IH Hpre).
Qed.

Lemma uptoLastClose_none s : noClose s = true -> uptoLastClose s = None.
Proof.
  induction s as [|c s IH]; simpl; intros Hs; [reflexivity|].
  apply andb_true_iff in Hs as [Hc Hs]. apply negb_true_iff in Hc.
  rewrite (IH Hs), Hc. reflexivity.
Qed.

Lemma uptoLastClose_last body post :
  noClose post = true ->
  uptoLastClose (body +:+ String "}" post) = Some (body +:+ "}").
Proof.
  intros Hpost. induction body as [|c body IH].
  - rewrite ?ClientFacts.append_empty_l. simpl.
    rewrite (uptoLastClose_none post Hpost). reflexivity.
  - rewrite ?ClientFacts.append_cons. simpl. rewrite IH. reflexivity.
Qed.

Lemma fromFirstOpen_none s : noOpen s = true -> fromFirstOpen s = None.
Proof.
  induction s as [|c s IH]; simpl; intros Hs; [reflexivity|].
  apply andb_true_iff in Hs as [Hc Hs]. apply negb_true_iff in Hc.
  rewrite Hc. exact (IH Hs).
Qed.

Lemma jsonMatch_between pre body post :
  noOpen pre = true -> noClose post = true ->
  jsonMatch (pre +:+ String "{" (body +:+ String "}" post))
  = Some (String "{" (body +:+ "}")).
Proof.
  intros Hpre Hpost. unfold jsonMatch.
  rewrite (fromFirstOpen_skips pre _ Hpre), (uptoLastClose_last body post Hpost).
  reflexivity.
Qed.

(** X27.  The words around the JSON of a reply do not count.  What
    [parseTutorialResponse] reads is the text from the first opening brace
    to the last closing brace: with words before it that hold no opening
    brace and words after it that hold no closing brace, the draft is the
    draft of the braced text alone, whatever [JSON.parse] is.  A reply
    without an opening brace gives the template of no commit. *)
Theorem words_around_json_ignored (JSON_parse : string -> outcome json)
    (pre body post : string) :
  noOpen pre = true ->
  (noClose post = true ->
     jsonMatch (pre +:+ String "{" (body +:+ String "}" post))
     = Some (String "{" (body +:+ "}")) /\
     parseTutorialResponse JSON_parse (pre +:+ String "{" (body +:+ String "}" post))
     = parseTutorialResponse JSON_parse (String "{" (body +:+ "}"))) /\
  parseTutorialResponse JSON_parse pre = generateFallbackTutorial None.
Proof.
  intros Hpre. split.
  - intros Hpost. split; [apply jsonMatch_between; assumption|].
    unfold parseTutorialResponse, parseTutorialJson.
    rewrite (jsonMatch_between pre body post Hpre Hpost).
    change (String "{" (body +:+ "}")) with ("" +:+ String "{" (body +:+ String "}" "")).
    rewrite (jsonMatch_between "" body "" eq_refl eq_refl). reflexivity.
  - unfold parseTutorialResponse, parseTutorialJson, jsonMatch.
    rewrite (fromFirstOpen_none pre Hpre). reflexivity.
Qed.

(** A reply that wraps its JSON in a sentence. *)
Lemma words_around_json_ignored_witness :
  parseTutorialResponse parseJson "Here you go: {} Enjoy!"
  = parseTutorialResponse parseJson "{}".
Proof.
  destruct (words_around_json_ignored parseJson "Here you go: " "" " Enjoy!" eq_refl)
    as [H _].
  destruct (H eq_refl) as [_ Hsame]. exact Hsame.
Defined.

Lemma sliceLast_spec {A} (n : nat) (l : list A) :
  (List.length (sliceLast n l) <= n)%nat /\
  (exists dropped, l = dropped ++ sliceLast n l /\
                   List.length dropped = (List.length l - n)%nat).
Proof.
  unfold sliceLast. split.
  - rewrite length_drop. lia.
  - exists (take (List.length l - n) l). split.
    + symmetry. apply take_drop.
    + rewrite length_take. lia.
Qed.

Lemma last_suffix {A} (dropped kept : list A) (x : A) (l : list A) :
  l ++ [x] = dropped ++ kept -> kept <> [] -> last kept = Some x.
Proof.
  intros Heq Hne.
  assert (H : last (dropped ++ kept) = Some x) by (rewrite <- Heq; apply last_snoc).
  destruct kept as [|k kept]; [congruence|].
  rewrite last_app_cons in H. destruct (last (k :: kept)) eqn:E; [exact H|].
  apply last_None in E. discriminate.
Qed.

(** The memory that is saved, against the messages that were read. *)
Lemma withMessage_spec now found sid msg :
  let old := match found with Some m => mem_messages m | None => [] end in
  let m := withMessage now found sid msg in
  (List.length (mem_messages m) <= 20)%nat /\
  List.length (mem_messages m) = Nat.min 20 (List.length old + 1) /\
  last (mem_messages m) = Some msg /\
  (exists dropped, old ++ [msg] = dropped ++ mem_messages m) /\
  mem_lastUpdated m = now /\
  mem_sessionId m = match found with Some m0 => mem_sessionId m0 | None => sid end.
Proof.
  intros old m. subst m. unfold withMessage. cbv zeta.
  assert (Hold : mem_messages
            (match found with
             | Some m0 => m0
             | None => {| mem_sessionId := sid; mem_messages := [];
                          mem_codebaseContext := None; mem_currentStep := None;
                          mem_lastUpdated := now |}
             end) = old) by (destruct found; reflexivity).
  simpl mem_messages. rewrite Hold.
  assert (Hid : mem_sessionId
            (match found with
             | Some m0 => m0
             | None => {| mem_sessionId := sid; mem_messages := [];
                          mem_codebaseContext := None; mem_currentStep := None;
                          mem_lastUpdated := now |}
             end) = match found with Some m0 => mem_sessionId m0 | None => sid end)
    by (destruct found; reflexivity).
  simpl mem_sessionId. simpl mem_lastUpdated.
  assert (Hlen : List.length (old ++ [msg]) = (List.length old + 1)%nat)
    by (rewrite length_app; reflexivity).
  destruct (Nat.ltb_spec 20 (List.length (old ++ [msg]))) as [Hbig|Hsmall].
  - destruct (sliceLast_spec 20 (old ++ [msg])) as (Hle & dropped & Heq & Hdrop).
    assert (Hkept : List.length (sliceLast 20 (old ++ [msg])) = 20%nat).
    { apply (f_equal (@List.length _)) in Heq. rewrite (length_app dropped) in Heq. lia. }
    repeat split; try assumption; try lia.
    + apply (last_suffix dropped _ msg old); [exact Heq|].
      intros Hnil. rewrite Hnil in Hkept. discriminate.
    + exists dropped. exact Heq.
  - repeat split; try assumption; try lia.
    + apply last_snoc.
    + exists []. reflexivity.
Qed.

Lemma getConversationMemory_reads fault_get decode sessionId kv :
  getConversationMemory fault_get decode sessionId kv
  = (kv, Ok (readableMemory fault_get decode sessionId kv)).
Proof.
  unfold getConversationMemory, readableMemory, tryCatch, mbind, M_bind, kv_get,
    mret, M_ret, Ingest.liftOutcome.
  destruct fault_get as [e|]; [reflexivity|].
  destruct (kv !! conversationKey sessionId) as [text|]; [|reflexivity].
  destruct (String.eqb text ""); [reflexivity|].
  destruct (decode text) as [m|e]; reflexivity.
Qed.

Lemma saveConversationMemory_saves fault_put encode memory kv :
  saveConversationMemory fault_put encode memory kv
  = (afterSave fault_put encode memory kv, Ok tt).
Proof.
  unfold saveConversationMemory, afterSave, tryCatch, mbind, M_bind, kv_put,
    mret, M_ret, Ingest.liftOutcome.
  destruct (encode memory) as [text|e]; [|reflexivity].
  destruct fault_put as [e|]; reflexivity.
Qed.

(** X28.  The conversation memory keeps the last twenty messages.
    [addToConversationMemory] never throws, and it always hands one memory
    to the namespace: that memory is written, under the key of its session,
    whenever it can be encoded and the write goes through, and only then
    does the namespace change.  The memory ends with the new message and
    holds the last [min 20 (n + 1)] of the [n] stored messages followed by
    the new one; it is stamped with the time of the call and keeps the
    session, the codebase context and the step of the stored memory.  A
    stored memory that is absent, empty or unreadable counts as none: the
    memory then is that of the session of the call, with the new message
    alone. *)
Theorem memory_keeps_last_twenty (fault_get fault_put : option Thrown)
    (decode : string -> outcome ConversationMemory)
    (encode : ConversationMemory -> outcome string)
    (now sessionId : string) (role : Role) (content : string)
    (context : option json) (kv : KV) :
  let message := {| msg_role := role; msg_content := content;
                    msg_timestamp := now; msg_context := context |} in
  let found := readableMemory fault_get decode sessionId kv in
  let old := messagesOf found in
  exists m,
    addToConversationMemory fault_get fault_put decode encode
      now sessionId role content context kv
    = (match encode m, fault_put with
       | Ok text, None => <[conversationKey (mem_sessionId m) := text]> kv
       | _, _ => kv
       end, Ok tt) /\
    List.length (mem_messages m) = Nat.min 20 (List.length old + 1) /\
    last (mem_messages m) = Some message /\
    (exists dropped, old ++ [message] = dropped ++ mem_messages m) /\
    mem_lastUpdated m = now /\
    match found with
    | Some m0 =>
        mem_sessionId m = mem_sessionId m0 /\
        mem_codebaseContext m = mem_codebaseContext m0 /\
        mem_currentStep m = mem_currentStep m0
    | None =>
        mem_sessionId m = sessionId /\ mem_messages m = [message] /\
        mem_codebaseContext m = None /\ mem_currentStep m = None
    end.
Proof.
  intros message found old.
  exists (withMessage now found sessionId message).
  destruct (withMessage_spec now found sessionId message)
    as (_ & Hlen & Hlast & Hsuffix & Hstamp & _).
  split; [|split; [exact Hlen | split; [exact Hlast | split; [exact Hsuffix |
           split; [exact Hstamp|]]]]].
  - unfold addToConversationMemory, mbind, M_bind.
    rewrite getConversationMemory_reads. fold found. fold message.
    rewrite saveConversationMemory_saves. reflexivity.
  - destruct found as [m0|]; simpl; repeat split.
Qed.

End AIMore.
